(** * The proposal lifecycle and the settlement of payments

    A shallow embedding of the server side of the marketplace: the in-memory
    store [MemStorage] (server/storage.ts), the session middleware
    (server/auth.ts), the notification functions (server/email.ts) and the
    route handlers for proposals and payments ([registerRoutes], which the
    source tree holds behind the schema in shared/schema.ts, from line 113
    on), followed by the properties of the lifecycle and of the commission
    that the specification states about them.

    Conventions of the embedding:
    - a JavaScript [Map<number, V>] is an association list in insertion order
      ([JsMap]); [Map.set] on a present key keeps the key's position;
    - ids and timestamps ([Date.getTime()]) are integers in [Z];
    - the decimal columns [price], [amount] and [commission] are strings in
      the source, and the handlers only ever read them through
      [parseFloat(x.toString())] and write them through [n.toString()]; the
      embedding keeps the binary64 number such a string denotes, so that the
      arithmetic of the handlers is the IEEE arithmetic of [PrimFloat];
    - every [async] method runs to completion before the next one starts, so
      a handler is a function from the store to a response and a new store;
    - [new Date()], the mail transport and the payment gateway are inputs of
      the request that uses them. *)

From Stdlib Require Import ZArith List Bool String Lia Floats Uint63 Permutation.
From Stdlib Require Import Sorted.
Import ListNotations.

Set Implicit Arguments.
Set Warnings "-inexact-float".
Open Scope Z_scope.

(** ** JavaScript maps with numeric keys *)

Module JsMap.
Section Defs.
Variable V : Type.

Definition t := list (Z * V).

Definition empty : t := [].

Fixpoint get (k : Z) (m : t) : option V :=
  match m with
  | [] => None
  | (k', v) :: r => if k' =? k then Some v else get k r
  end.

Fixpoint set (k : Z) (v : V) (m : t) : t :=
  match m with
  | [] => [(k, v)]
  | (k', v') :: r => if k' =? k then (k, v) :: r else (k', v') :: set k v r
  end.

Definition keys (m : t) : list Z := map fst m.

Definition values (m : t) : list V := map snd m.

(** The map that [Map.set] yields on a present key, under unique keys:
    the entry of [k] is replaced where it stands. *)
Definition mapv (g : Z -> V -> V) (m : t) : t :=
  map (fun e => (fst e, g (fst e) (snd e))) m.

Definition adjust (k : Z) (g : V -> V) (m : t) : t :=
  mapv (fun k' v => if k' =? k then g v else v) m.
End Defs.
End JsMap.

Arguments JsMap.empty {V}.

(** [Array.prototype.sort] with a comparator: the stable sort, here by
    insertion.  [cmp a b <= 0] keeps [a] in front of [b]. *)

Section JsSort.
Variable A : Type.
Variable cmp : A -> A -> Z.

Fixpoint sort_insert (x : A) (l : list A) : list A :=
  match l with
  | [] => [x]
  | y :: r => if cmp x y <=? 0 then x :: y :: r else y :: sort_insert x r
  end.

Fixpoint js_sort (l : list A) : list A :=
  match l with
  | [] => []
  | x :: r => sort_insert x (js_sort r)
  end.
End JsSort.

(** [Array.prototype.find]. *)

Fixpoint js_find {A : Type} (f : A -> bool) (l : list A) : option A :=
  match l with
  | [] => None
  | x :: r => if f x then Some x else js_find f r
  end.

(** ** The schema (shared/schema.ts) *)

Module Role.
Inductive t := buyer | seller.

Definition eqb (a b : t) : bool :=
  match a, b with
  | buyer, buyer | seller, seller => true
  | _, _ => false
  end.
End Role.

Module ProjectStatus.
Inductive t := open | pending | in_progress | completed | cancelled.

Definition eqb (a b : t) : bool :=
  match a, b with
  | open, open | pending, pending | in_progress, in_progress
  | completed, completed | cancelled, cancelled => true
  | _, _ => false
  end.
End ProjectStatus.

Module ProposalStatus.
Inductive t := pending | accepted | rejected | completed | cancelled.

Definition eqb (a b : t) : bool :=
  match a, b with
  | pending, pending | accepted, accepted | rejected, rejected
  | completed, completed | cancelled, cancelled => true
  | _, _ => false
  end.
End ProposalStatus.

Module PaymentStatus.
Inductive t := pending | completed | refunded | failed.
End PaymentStatus.

Module User.
Record t := mk
  { id : Z; name : string; email : string; password : string;
    role : Role.t; createdAt : Z }.
End User.

Module InsertUser.
Record t := mk
  { name : string; email : string; password : string; role : Role.t }.
End InsertUser.

Module Project.
Record t := mk
  { id : Z; title : string; description : string; budget : string;
    deadline : Z; status : ProjectStatus.t; buyerId : Z; createdAt : Z }.

Definition with_status (s : ProjectStatus.t) (p : t) : t :=
  mk (id p) (title p) (description p) (budget p) (deadline p) s
     (buyerId p) (createdAt p).
End Project.

Module InsertProject.
Record t := mk
  { title : string; description : string; budget : string;
    deadline : Z; buyerId : Z }.
End InsertProject.

Module Proposal.
Record t := mk
  { id : Z; serviceDetails : string; price : float; deliveryTime : Z;
    status : ProposalStatus.t; projectId : Z; sellerId : Z; createdAt : Z }.

Definition with_status (s : ProposalStatus.t) (p : t) : t :=
  mk (id p) (serviceDetails p) (price p) (deliveryTime p) s
     (projectId p) (sellerId p) (createdAt p).
End Proposal.

Module InsertProposal.
Record t := mk
  { serviceDetails : string; price : float; deliveryTime : Z;
    projectId : Z; sellerId : Z }.
End InsertProposal.

Module Payment.
Record t := mk
  { id : Z; amount : float; commission : float; status : PaymentStatus.t;
    projectId : Z; buyerId : Z; sellerId : Z;
    stripePaymentIntentId : option string; createdAt : Z }.
End Payment.

Module InsertPayment.
Record t := mk
  { amount : float; commission : float; projectId : Z; buyerId : Z;
    sellerId : Z; stripePaymentIntentId : option string }.
End InsertPayment.

(** [a || b] on a string that may be missing: the empty string is falsy. *)

Definition truthy_string (s : option string) : bool :=
  match s with
  | Some s' => negb (String.eqb s' "")
  | None => false
  end.

Definition or_string (a b : option string) : option string :=
  if truthy_string a then a else b.

(** ** The in-memory store (server/storage.ts)

    The store of messages takes no part in the lifecycle of proposals and
    payments and is left out. *)

Module MemStorage.
Record t := mk
  { users : JsMap.t User.t;
    projects : JsMap.t Project.t;
    proposals : JsMap.t Proposal.t;
    payments : JsMap.t Payment.t;
    userIdCounter : Z;
    projectIdCounter : Z;
    proposalIdCounter : Z;
    paymentIdCounter : Z }.

Definition constructor : t :=
  mk JsMap.empty JsMap.empty JsMap.empty JsMap.empty 1 1 1 1.

Definition set_users (x : JsMap.t User.t) (c : Z) (s : t) : t :=
  mk x (projects s) (proposals s) (payments s)
     c (projectIdCounter s) (proposalIdCounter s) (paymentIdCounter s).

Definition set_projects (x : JsMap.t Project.t) (c : Z) (s : t) : t :=
  mk (users s) x (proposals s) (payments s)
     (userIdCounter s) c (proposalIdCounter s) (paymentIdCounter s).

Definition set_proposals (x : JsMap.t Proposal.t) (c : Z) (s : t) : t :=
  mk (users s) (projects s) x (payments s)
     (userIdCounter s) (projectIdCounter s) c (paymentIdCounter s).

Definition set_payments (x : JsMap.t Payment.t) (c : Z) (s : t) : t :=
  mk (users s) (projects s) (proposals s) x
     (userIdCounter s) (projectIdCounter s) (proposalIdCounter s) c.

(** User operations *)

Definition getUser (id : Z) (s : t) : option User.t :=
  JsMap.get id (users s).

Definition createUser (now : Z) (insertUser : InsertUser.t) (s : t)
  : User.t * t :=
  let id := userIdCounter s in
  let user :=
    User.mk id (InsertUser.name insertUser) (InsertUser.email insertUser)
            (InsertUser.password insertUser) (InsertUser.role insertUser)
            now in
  (user, set_users (JsMap.set id user (users s)) (id + 1) s).

(** Project operations *)

Definition getProject (id : Z) (s : t) : option Project.t :=
  JsMap.get id (projects s).

Definition createProject (now : Z) (insertProject : InsertProject.t) (s : t)
  : Project.t * t :=
  let id := projectIdCounter s in
  let project :=
    Project.mk id (InsertProject.title insertProject)
               (InsertProject.description insertProject)
               (InsertProject.budget insertProject)
               (InsertProject.deadline insertProject)
               ProjectStatus.open
               (InsertProject.buyerId insertProject) now in
  (project, set_projects (JsMap.set id project (projects s)) (id + 1) s).

Definition updateProjectStatus (id : Z) (status : ProjectStatus.t) (s : t)
  : option Project.t * t :=
  match JsMap.get id (projects s) with
  | None => (None, s)
  | Some project =>
      let updatedProject := Project.with_status status project in
      (Some updatedProject,
       set_projects (JsMap.set id updatedProject (projects s))
                    (projectIdCounter s) s)
  end.

(** Proposal operations *)

Definition getProposalsByProject (projectId : Z) (s : t) : list Proposal.t :=
  js_sort (fun a b => Proposal.createdAt b - Proposal.createdAt a)
    (filter (fun proposal => Proposal.projectId proposal =? projectId)
            (JsMap.values (proposals s))).

Definition getProposalsBySeller (sellerId : Z) (s : t) : list Proposal.t :=
  js_sort (fun a b => Proposal.createdAt b - Proposal.createdAt a)
    (filter (fun proposal => Proposal.sellerId proposal =? sellerId)
            (JsMap.values (proposals s))).

Definition getProposal (id : Z) (s : t) : option Proposal.t :=
  JsMap.get id (proposals s).

Definition createProposal (now : Z) (insertProposal : InsertProposal.t)
    (s : t) : Proposal.t * t :=
  let id := proposalIdCounter s in
  let proposal :=
    Proposal.mk id (InsertProposal.serviceDetails insertProposal)
                (InsertProposal.price insertProposal)
                (InsertProposal.deliveryTime insertProposal)
                ProposalStatus.pending
                (InsertProposal.projectId insertProposal)
                (InsertProposal.sellerId insertProposal) now in
  (proposal, set_proposals (JsMap.set id proposal (proposals s)) (id + 1) s).

Definition updateProposalStatus (id : Z) (status : ProposalStatus.t) (s : t)
  : option Proposal.t * t :=
  match JsMap.get id (proposals s) with
  | None => (None, s)
  | Some proposal =>
      let updatedProposal := Proposal.with_status status proposal in
      (Some updatedProposal,
       set_proposals (JsMap.set id updatedProposal (proposals s))
                     (proposalIdCounter s) s)
  end.

(** Payment operations *)

Definition getPaymentsByBuyer (buyerId : Z) (s : t) : list Payment.t :=
  js_sort (fun a b => Payment.createdAt b - Payment.createdAt a)
    (filter (fun payment => Payment.buyerId payment =? buyerId)
            (JsMap.values (payments s))).

Definition getPaymentsBySeller (sellerId : Z) (s : t) : list Payment.t :=
  js_sort (fun a b => Payment.createdAt b - Payment.createdAt a)
    (filter (fun payment => Payment.sellerId payment =? sellerId)
            (JsMap.values (payments s))).

Definition getPaymentsByProject (projectId : Z) (s : t) : list Payment.t :=
  js_sort (fun a b => Payment.createdAt b - Payment.createdAt a)
    (filter (fun payment => Payment.projectId payment =? projectId)
            (JsMap.values (payments s))).

Definition createPayment (now : Z) (insertPayment : InsertPayment.t) (s : t)
  : Payment.t * t :=
  let id := paymentIdCounter s in
  let payment :=
    Payment.mk id (InsertPayment.amount insertPayment)
               (InsertPayment.commission insertPayment)
               PaymentStatus.pending
               (InsertPayment.projectId insertPayment)
               (InsertPayment.buyerId insertPayment)
               (InsertPayment.sellerId insertPayment)
               (or_string (InsertPayment.stripePaymentIntentId insertPayment)
                          None)
               now in
  (payment, set_payments (JsMap.set id payment (payments s)) (id + 1) s).

Definition updatePaymentStatus (id : Z) (status : PaymentStatus.t)
    (stripePaymentIntentId : option string) (s : t)
  : option Payment.t * t :=
  match JsMap.get id (payments s) with
  | None => (None, s)
  | Some payment =>
      let updatedPayment :=
        Payment.mk (Payment.id payment) (Payment.amount payment)
                   (Payment.commission payment) status
                   (Payment.projectId payment) (Payment.buyerId payment)
                   (Payment.sellerId payment)
                   (or_string stripePaymentIntentId
                              (Payment.stripePaymentIntentId payment))
                   (Payment.createdAt payment) in
      (Some updatedPayment,
       set_payments (JsMap.set id updatedPayment (payments s))
                    (paymentIdCounter s) s)
  end.
End MemStorage.

(** ** Numbers

    [Math.round] on a binary64 number, computed on the exact value the
    number denotes: the nearest integer, a half rounded up.  [None] stands for
    [NaN] and the infinities. *)

Definition float_exact (x : float) : option (Z * Z) :=
  match Prim2SF x with
  | S754_zero _ => Some (0, 0)
  | S754_finite s m e => Some (if s then Z.neg m else Z.pos m, e)
  | _ => None
  end.

Definition Math_round (x : float) : option Z :=
  match float_exact x with
  | Some (m, e) =>
      if 0 <=? e then Some (m * 2 ^ e)
      else Some ((2 * m + 2 ^ (- e)) / 2 ^ (- e + 1))
  | None => None
  end.

(** ** Sessions and middleware (server/auth.ts) *)

Record Session := mkSession { userId : option Z; userRole : option Role.t }.

Inductive Body :=
| Message (message : string)
| ZodMessage
| UserJson (id : Z) (name email : string) (role : Role.t) (createdAt : Z)
| ProjectJson (project : option Project.t)
| ProposalJson (proposal : option Proposal.t)
| PaymentJson (payment : option Payment.t)
| ClientSecret (clientSecret : option string).

Record Response := json { code : Z; body : Body }.

Definition truthy_id (id : option Z) : bool :=
  match id with
  | Some n => negb (n =? 0)
  | None => false
  end.

(** A middleware either answers the request or passes it on ([None]). *)

Definition isAuthenticated (session : Session) : option Response :=
  if truthy_id (userId session) then None
  else Some (json 401 (Message "Unauthorized - Please log in")).

Definition role_name (role : Role.t) : string :=
  match role with Role.buyer => "buyer" | Role.seller => "seller" end.

Definition checkRole (role : Role.t) (session : Session) : option Response :=
  match userRole session with
  | Some r =>
      if Role.eqb r role then None
      else Some (json 403 (Message ("Access denied - " ++ role_name role
                                      ++ " role required")))
  | None => Some (json 403 (Message ("Access denied - " ++ role_name role
                                       ++ " role required")))
  end.

(** [getCurrentUser]; destroying an invalid session is not modelled. *)

Definition getCurrentUser (session : Session) (s : MemStorage.t)
  : option User.t :=
  if truthy_id (userId session) then
    match userId session with
    | Some id => MemStorage.getUser id s
    | None => None
    end
  else None.

(** ** Notifications (server/email.ts)

    Each [send...Email] function catches the error of the transport and
    returns [{ success }]; the transport is the predicate [transport], and
    every attempt is recorded with its outcome. *)

Inductive Mail :=
| ProposalReceivedEmail (to projectTitle sellerName : string)
| PaymentProcessedEmail (to projectTitle : string) (amount : float).

Record Delivery := mkDelivery { mail : Mail; success : bool }.

Record World := mkWorld
  { storage : MemStorage.t; mailLog : list Delivery }.

Definition with_storage (s : MemStorage.t) (w : World) : World :=
  mkWorld s (mailLog w).

Definition sendMail (transport : Mail -> bool) (m : Mail) (w : World)
  : bool * World :=
  let ok := transport m in
  (ok, mkWorld (storage w) (mailLog w ++ [mkDelivery m ok])).

Definition sendProposalReceivedEmail (transport : Mail -> bool)
    (to projectTitle sellerName : string) (w : World) : bool * World :=
  sendMail transport (ProposalReceivedEmail to projectTitle sellerName) w.

Definition sendPaymentProcessedEmail (transport : Mail -> bool)
    (to projectTitle : string) (amount : float) (w : World) : bool * World :=
  sendMail transport (PaymentProcessedEmail to projectTitle amount) w.

(** ** The payment gateway *)

Record PaymentIntentParams := mkParams
  { pi_amount : option Z; pi_currency : string;
    md_proposalId : Z; md_projectId : Z; md_buyerId : Z; md_sellerId : Z }.

Record PaymentIntent := mkIntent
  { pi_id : string; client_secret : option string }.

(** [None] when [stripe.paymentIntents.create] throws. *)

Definition Gateway := PaymentIntentParams -> option PaymentIntent.

(** ** Request bodies and their validation *)

Record ProjectForm := mkProjectForm
  { f_title : option string; f_description : option string;
    f_budget : option string; f_deadline : option Z }.

Definition insertProjectSchema_parse (form : ProjectForm) (buyerId : Z)
  : option InsertProject.t :=
  match f_title form, f_description form, f_budget form, f_deadline form with
  | Some title, Some description, Some budget, Some deadline =>
      Some (InsertProject.mk title description budget deadline buyerId)
  | _, _, _, _ => None
  end.

Record ProposalForm := mkProposalForm
  { f_serviceDetails : option string; f_price : option float;
    f_deliveryTime : option Z }.

Definition insertProposalSchema_parse (form : ProposalForm)
    (projectId sellerId : Z) : option InsertProposal.t :=
  match f_serviceDetails form, f_price form, f_deliveryTime form with
  | Some serviceDetails, Some price, Some deliveryTime =>
      Some (InsertProposal.mk serviceDetails price deliveryTime
                              projectId sellerId)
  | _, _, _ => None
  end.

(** ** The routes ([registerRoutes]) *)

Definition route (middleware : list (option Response))
    (handler : World -> Response * World) (w : World) : Response * World :=
  match js_find (fun r => match r with Some _ => true | None => false end)
                middleware with
  | Some (Some r) => (r, w)
  | _ => handler w
  end.

(** POST /api/projects (lines 265-296) *)

Definition POST_projects (now : Z) (session : Session) (form : ProjectForm)
  : World -> Response * World :=
  route [isAuthenticated session; checkRole Role.buyer session] (fun w =>
    match getCurrentUser session (storage w) with
    | None => (json 401 (Message "Not authenticated"), w)
    | Some user =>
        match insertProjectSchema_parse form (User.id user) with
        | None => (json 400 ZodMessage, w)
        | Some validatedData =>
            let (project, s1) :=
              MemStorage.createProject now validatedData (storage w) in
            (json 201 (ProjectJson (Some project)), with_storage s1 w)
        end
    end).

(** PATCH /api/projects/:id/status (lines 298-324) *)

Definition PATCH_projects_status (session : Session) (projectId : Z)
    (status : option ProjectStatus.t) : World -> Response * World :=
  route [isAuthenticated session; checkRole Role.buyer session] (fun w =>
    match status with
    | None => (json 400 ZodMessage, w)
    | Some validatedStatus =>
        match MemStorage.getProject projectId (storage w) with
        | None => (json 404 (Message "Project not found"), w)
        | Some project =>
            match getCurrentUser session (storage w) with
            | None =>
                (json 403 (Message
                   "You don't have permission to update this project"), w)
            | Some user =>
                if negb (User.id user =? Project.buyerId project) then
                  (json 403 (Message
                     "You don't have permission to update this project"), w)
                else
                  let (updatedProject, s1) :=
                    MemStorage.updateProjectStatus projectId validatedStatus
                                                   (storage w) in
                  (json 200 (ProjectJson updatedProject), with_storage s1 w)
            end
        end
    end).

(** POST /api/projects/:id/proposals (lines 383-430) *)

Definition POST_projects_proposals (transport : Mail -> bool) (now : Z)
    (session : Session) (projectId : Z) (form : ProposalForm)
  : World -> Response * World :=
  route [isAuthenticated session; checkRole Role.seller session] (fun w =>
    match MemStorage.getProject projectId (storage w) with
    | None => (json 404 (Message "Project not found"), w)
    | Some project =>
        if negb (ProjectStatus.eqb (Project.status project) ProjectStatus.open)
        then (json 400 (Message "This project is not accepting proposals"), w)
        else
          match getCurrentUser session (storage w) with
          | None => (json 401 (Message "Not authenticated"), w)
          | Some user =>
              match insertProposalSchema_parse form projectId (User.id user)
              with
              | None => (json 400 ZodMessage, w)
              | Some validatedData =>
                  let existingProposals :=
                    MemStorage.getProposalsByProject projectId (storage w) in
                  let alreadySubmitted :=
                    existsb (fun p => Proposal.sellerId p =? User.id user)
                            existingProposals in
                  if alreadySubmitted then
                    (json 400 (Message
                       "You already submitted a proposal for this project"), w)
                  else
                    let (proposal, s1) :=
                      MemStorage.createProposal now validatedData (storage w) in
                    let w1 := with_storage s1 w in
                    let w2 :=
                      match MemStorage.getUser (Project.buyerId project) s1 with
                      | Some buyer =>
                          snd (sendProposalReceivedEmail transport
                                 (User.email buyer) (Project.title project)
                                 (User.name user) w1)
                      | None => w1
                      end in
                    (json 201 (ProposalJson (Some proposal)), w2)
              end
          end
    end).

(** PATCH /api/proposals/:id/status (lines 432-477).  The loop over
    [otherProposals] reads the status of each proposal in the list fetched
    before the loop. *)

Definition reject_others (proposalId : Z) (otherProposals : list Proposal.t)
    (s : MemStorage.t) : MemStorage.t :=
  fold_left
    (fun s' otherProposal =>
       if negb (Proposal.id otherProposal =? proposalId)
          && ProposalStatus.eqb (Proposal.status otherProposal)
                                ProposalStatus.pending
       then snd (MemStorage.updateProposalStatus (Proposal.id otherProposal)
                   ProposalStatus.rejected s')
       else s')
    otherProposals s.

Definition PATCH_proposals_status (session : Session) (proposalId : Z)
    (status : option ProposalStatus.t) : World -> Response * World :=
  route [isAuthenticated session; checkRole Role.buyer session] (fun w =>
    match status with
    | None => (json 400 ZodMessage, w)
    | Some validatedStatus =>
        match MemStorage.getProposal proposalId (storage w) with
        | None => (json 404 (Message "Proposal not found"), w)
        | Some proposal =>
            match MemStorage.getProject (Proposal.projectId proposal)
                                        (storage w) with
            | None => (json 404 (Message "Project not found"), w)
            | Some project =>
                match getCurrentUser session (storage w) with
                | None =>
                    (json 403 (Message
                       "You don't have permission to update this proposal"), w)
                | Some user =>
                    if negb (User.id user =? Project.buyerId project) then
                      (json 403 (Message
                         "You don't have permission to update this proposal"),
                       w)
                    else
                      let (updatedProposal, s1) :=
                        MemStorage.updateProposalStatus proposalId
                          validatedStatus (storage w) in
                      let s3 :=
                        if ProposalStatus.eqb validatedStatus
                                              ProposalStatus.accepted then
                          let s2 :=
                            snd (MemStorage.updateProjectStatus
                                   (Project.id project)
                                   ProjectStatus.in_progress s1) in
                          let otherProposals :=
                            MemStorage.getProposalsByProject
                              (Project.id project) s2 in
                          reject_others proposalId otherProposals s2
                        else s1 in
                      (json 200 (ProposalJson updatedProposal),
                       with_storage s3 w)
                end
            end
        end
    end).

(** POST /api/create-payment-intent (lines 506-563) *)

Definition POST_create_payment_intent (gateway : Gateway) (now : Z)
    (session : Session) (proposalId : option Z) : World -> Response * World :=
  route [isAuthenticated session; checkRole Role.buyer session] (fun w =>
    if negb (truthy_id proposalId) then
      (json 400 (Message "Proposal ID is required"), w)
    else
      match match proposalId with
            | Some id => MemStorage.getProposal id (storage w)
            | None => None
            end with
      | None => (json 404 (Message "Proposal not found"), w)
      | Some proposal =>
          match MemStorage.getProject (Proposal.projectId proposal)
                                      (storage w) with
          | None => (json 404 (Message "Project not found"), w)
          | Some project =>
              match getCurrentUser session (storage w) with
              | None =>
                  (json 403 (Message
                     "You don't have permission to make this payment"), w)
              | Some user =>
                  if negb (User.id user =? Project.buyerId project) then
                    (json 403 (Message
                       "You don't have permission to make this payment"), w)
                  else
                    let amount := Proposal.price proposal in
                    let commission := (amount * 0.15)%float in
                    let amountInCents := Math_round (amount * 100)%float in
                    match gateway (mkParams amountInCents "usd"
                                     (Proposal.id proposal) (Project.id project)
                                     (User.id user)
                                     (Proposal.sellerId proposal)) with
                    | None =>
                        (json 500 (Message "Error creating payment intent"), w)
                    | Some paymentIntent =>
                        let (_, s1) :=
                          MemStorage.createPayment now
                            (InsertPayment.mk amount commission
                               (Project.id project) (User.id user)
                               (Proposal.sellerId proposal)
                               (Some (pi_id paymentIntent)))
                            (storage w) in
                        (json 200 (ClientSecret (client_secret paymentIntent)),
                         with_storage s1 w)
                    end
              end
          end
      end).

(** POST /api/payments/confirm (lines 566-600) *)

Definition same_intent (paymentIntentId : string) (p : Payment.t) : bool :=
  match Payment.stripePaymentIntentId p with
  | Some id => String.eqb id paymentIntentId
  | None => false
  end.

Definition POST_payments_confirm (transport : Mail -> bool)
    (session : Session) (paymentIntentId : option string)
  : World -> Response * World :=
  route [isAuthenticated session; checkRole Role.buyer session] (fun w =>
    match paymentIntentId with
    | None => (json 400 (Message "Payment intent ID is required"), w)
    | Some intentId =>
        if negb (truthy_string paymentIntentId) then
          (json 400 (Message "Payment intent ID is required"), w)
        else
          let payments :=
            MemStorage.getPaymentsByBuyer
              (match userId session with Some id => id | None => 0 end)
              (storage w) in
          match js_find (same_intent intentId) payments with
          | None => (json 404 (Message "Payment not found"), w)
          | Some payment =>
              let (updatedPayment, s1) :=
                MemStorage.updatePaymentStatus (Payment.id payment)
                  PaymentStatus.completed None (storage w) in
              let w1 := with_storage s1 w in
              let buyer := MemStorage.getUser (Payment.buyerId payment) s1 in
              let seller := MemStorage.getUser (Payment.sellerId payment) s1 in
              let project :=
                MemStorage.getProject (Payment.projectId payment) s1 in
              let w3 :=
                match buyer, seller, project with
                | Some buyer, Some seller, Some project =>
                    let w2 :=
                      snd (sendPaymentProcessedEmail transport
                             (User.email buyer) (Project.title project)
                             (Payment.amount payment) w1) in
                    snd (sendPaymentProcessedEmail transport
                           (User.email seller) (Project.title project)
                           (Payment.amount payment
                            - Payment.commission payment)%float w2)
                | _, _, _ => w1
                end in
              (json 200 (PaymentJson updatedPayment), w3)
          end
    end).

(** ** Requests and runs

    A request is one call of a route together with the inputs it reads from
    its environment.  [Register] is POST /api/auth/register once its body is
    valid and its email is new: it calls [storage.createUser] with the hashed
    password and answers with the user less the password. *)

Inductive Request :=
| Register (now : Z) (insertUser : InsertUser.t)
| PostProject (now : Z) (session : Session) (form : ProjectForm)
| PatchProjectStatus (session : Session) (projectId : Z)
    (status : option ProjectStatus.t)
| SubmitProposal (transport : Mail -> bool) (now : Z) (session : Session)
    (projectId : Z) (form : ProposalForm)
| PatchProposalStatus (session : Session) (proposalId : Z)
    (status : option ProposalStatus.t)
| CreatePaymentIntent (gateway : Gateway) (now : Z) (session : Session)
    (proposalId : option Z)
| ConfirmPayment (transport : Mail -> bool) (session : Session)
    (paymentIntentId : option string).

Definition serve (r : Request) (w : World) : Response * World :=
  match r with
  | Register now insertUser =>
      let (user, s1) := MemStorage.createUser now insertUser (storage w) in
      (json 201 (UserJson (User.id user) (User.name user) (User.email user)
                          (User.role user) (User.createdAt user)),
       with_storage s1 w)
  | PostProject now session form => POST_projects now session form w
  | PatchProjectStatus session projectId status =>
      PATCH_projects_status session projectId status w
  | SubmitProposal transport now session projectId form =>
      POST_projects_proposals transport now session projectId form w
  | PatchProposalStatus session proposalId status =>
      PATCH_proposals_status session proposalId status w
  | CreatePaymentIntent gateway now session proposalId =>
      POST_create_payment_intent gateway now session proposalId w
  | ConfirmPayment transport session paymentIntentId =>
      POST_payments_confirm transport session paymentIntentId w
  end.

Definition run (rs : list Request) (w : World) : World :=
  fold_left (fun w' r => snd (serve r w')) rs w.

Definition initial : World := mkWorld MemStorage.constructor [].

Definition reachable (w : World) : Prop := exists rs, w = run rs initial.

(** The operations of the lifecycle and of the settlement, with the two
    requests that populate the store; a buyer's direct change of a
    project's status is not one of them. *)

Definition core (r : Request) : bool :=
  match r with
  | PatchProjectStatus _ _ _ => false
  | _ => true
  end.

(** A small cast for the examples. *)

Definition alice : InsertUser.t :=
  InsertUser.mk "Alice" "alice@buyer.example" "hash-a" Role.buyer.
Definition bob : InsertUser.t :=
  InsertUser.mk "Bob" "bob@seller.example" "hash-b" Role.seller.
Definition carol : InsertUser.t :=
  InsertUser.mk "Carol" "carol@seller.example" "hash-c" Role.seller.
Definition dave : InsertUser.t :=
  InsertUser.mk "Dave" "dave@buyer.example" "hash-d" Role.buyer.

Definition as_alice : Session := mkSession (Some 1) (Some Role.buyer).
Definition as_bob : Session := mkSession (Some 2) (Some Role.seller).
Definition as_carol : Session := mkSession (Some 3) (Some Role.seller).

Definition delivers : Mail -> bool := fun _ => true.
Definition bounces : Mail -> bool := fun _ => false.

Definition test_gateway : Gateway :=
  fun _ => Some (mkIntent "pi_1" (Some "pi_1_secret"%string)).

Definition website : ProjectForm :=
  mkProjectForm (Some "Website"%string) (Some "A new website"%string)
                (Some "1000.00"%string) (Some 1000000).

Definition offer (price : float) (days : Z) : ProposalForm :=
  mkProposalForm (Some "I can do it"%string) (Some price) (Some days).

(** Scenario 1 of the specification up to the two submissions: Alice posts
    project 1, Bob submits proposal 1 and Carol proposal 2. *)

Definition one_offer : list Request :=
  [ Register 10 alice; Register 11 bob; Register 12 carol; Register 13 dave;
    PostProject 20 as_alice website;
    SubmitProposal delivers 30 as_bob 1 (offer 800 10) ].

Definition two_offers : list Request :=
  one_offer ++ [ SubmitProposal delivers 31 as_carol 1 (offer 900 5) ].

Definition accept (session : Session) (proposalId : Z) : Request :=
  PatchProposalStatus session proposalId (Some ProposalStatus.accepted).

(** The entities of the store after [two_offers] that the examples name. *)

Definition alice_user : User.t :=
  User.mk 1 "Alice" "alice@buyer.example" "hash-a" Role.buyer 10.
Definition bob_user : User.t :=
  User.mk 2 "Bob" "bob@seller.example" "hash-b" Role.seller 11.
Definition website_project : Project.t :=
  Project.mk 1 "Website" "A new website" "1000.00" 1000000
             ProjectStatus.open 1 20.
Definition bob_offer : Proposal.t :=
  Proposal.mk 1 "I can do it" 800 10 ProposalStatus.pending 1 2 30.
Definition carol_offer : Proposal.t :=
  Proposal.mk 2 "I can do it" 900 5 ProposalStatus.pending 1 3 31.

(** ** Well-formed stores

    In a store built by the routes every entity sits under its own id, ids
    are unique, positive and below the counter that issues them, and a
    proposal refers to a project and to a seller of the store. *)

Record wf_map (V : Type) (id : V -> Z) (counter : Z) (m : JsMap.t V) : Prop :=
  mk_wf_map
  { wf_nodup : NoDup (JsMap.keys m);
    wf_id : forall k v, In (k, v) m -> id v = k;
    wf_range : forall k, In k (JsMap.keys m) -> 0 < k < counter;
    wf_counter : 0 < counter }.

Record wf (s : MemStorage.t) : Prop := mk_wf
  { wf_users : wf_map User.id (MemStorage.userIdCounter s) (MemStorage.users s);
    wf_projects :
      wf_map Project.id (MemStorage.projectIdCounter s) (MemStorage.projects s);
    wf_proposals :
      wf_map Proposal.id (MemStorage.proposalIdCounter s)
             (MemStorage.proposals s);
    wf_payments :
      wf_map Payment.id (MemStorage.paymentIdCounter s) (MemStorage.payments s);
    wf_refs : forall p, In p (JsMap.values (MemStorage.proposals s)) ->
      In (Proposal.projectId p) (JsMap.keys (MemStorage.projects s)) /\
      In (Proposal.sellerId p) (JsMap.keys (MemStorage.users s)) }.

(** ** The store's updates as pointwise maps *)

Definition complete (status : PaymentStatus.t) (sid : option string)
    (payment : Payment.t) : Payment.t :=
  Payment.mk (Payment.id payment) (Payment.amount payment)
             (Payment.commission payment) status
             (Payment.projectId payment) (Payment.buyerId payment)
             (Payment.sellerId payment)
             (or_string sid (Payment.stripePaymentIntentId payment))
             (Payment.createdAt payment).

(** The accept cascade: what the handler of PATCH /api/proposals/:id/status
    does to the proposals when the new status is [accepted], entry by
    entry. *)

Definition after_accept (proposalId projectId : Z) (k : Z) (v : Proposal.t)
  : Proposal.t :=
  if k =? proposalId then Proposal.with_status ProposalStatus.accepted v
  else if (Proposal.projectId v =? projectId)
          && ProposalStatus.eqb (Proposal.status v) ProposalStatus.pending
       then Proposal.with_status ProposalStatus.rejected v
       else v.

Definition accept_storage (proposalId projectId : Z) (s : MemStorage.t)
  : MemStorage.t :=
  MemStorage.set_proposals
    (JsMap.mapv (after_accept proposalId projectId)
                     (MemStorage.proposals s))
    (MemStorage.proposalIdCounter s)
    (MemStorage.set_projects
       (JsMap.adjust projectId
          (Project.with_status ProjectStatus.in_progress)
          (MemStorage.projects s))
       (MemStorage.projectIdCounter s) s).

Definition to_reject (proposalId : Z) (o : Proposal.t) : bool :=
  negb (Proposal.id o =? proposalId)
  && ProposalStatus.eqb (Proposal.status o) ProposalStatus.pending.

Definition accept_proposal (session : Session) (proposalId : Z) (w : World)
  : Response * World :=
  PATCH_proposals_status session proposalId (Some ProposalStatus.accepted) w.

(** ** The effect of a request on the store *)

Inductive effect (s : MemStorage.t) : Request -> MemStorage.t -> Prop :=
| E_none r : effect s r s
| E_register now insertUser :
    effect s (Register now insertUser)
           (snd (MemStorage.createUser now insertUser s))
| E_project now session form user d :
    getCurrentUser session s = Some user ->
    insertProjectSchema_parse form (User.id user) = Some d ->
    effect s (PostProject now session form)
           (snd (MemStorage.createProject now d s))
| E_project_status session projectId status project :
    MemStorage.getProject projectId s = Some project ->
    effect s (PatchProjectStatus session projectId (Some status))
           (MemStorage.set_projects
              (JsMap.adjust projectId (Project.with_status status)
                                 (MemStorage.projects s))
              (MemStorage.projectIdCounter s) s)
| E_proposal transport now session projectId form project user d :
    MemStorage.getProject projectId s = Some project ->
    Project.status project = ProjectStatus.open ->
    getCurrentUser session s = Some user ->
    insertProposalSchema_parse form projectId (User.id user) = Some d ->
    existsb (fun p => Proposal.sellerId p =? User.id user)
            (MemStorage.getProposalsByProject projectId s) = false ->
    effect s (SubmitProposal transport now session projectId form)
           (snd (MemStorage.createProposal now d s))
| E_accept session proposalId proposal project :
    MemStorage.getProposal proposalId s = Some proposal ->
    MemStorage.getProject (Proposal.projectId proposal) s = Some project ->
    effect s (PatchProposalStatus session proposalId
                                  (Some ProposalStatus.accepted))
           (accept_storage proposalId (Proposal.projectId proposal) s)
| E_status session proposalId status proposal :
    MemStorage.getProposal proposalId s = Some proposal ->
    status <> ProposalStatus.accepted ->
    effect s (PatchProposalStatus session proposalId (Some status))
           (MemStorage.set_proposals
              (JsMap.adjust proposalId (Proposal.with_status status)
                                 (MemStorage.proposals s))
              (MemStorage.proposalIdCounter s) s)
| E_payment gateway now session proposalId proposal project user intent :
    MemStorage.getProposal proposalId s = Some proposal ->
    MemStorage.getProject (Proposal.projectId proposal) s = Some project ->
    getCurrentUser session s = Some user ->
    effect s (CreatePaymentIntent gateway now session (Some proposalId))
           (snd (MemStorage.createPayment now
                   (InsertPayment.mk (Proposal.price proposal)
                      (Proposal.price proposal * 0.15)%float
                      (Project.id project) (User.id user)
                      (Proposal.sellerId proposal) (Some (pi_id intent)))
                   s))
| E_confirm transport session intentId payment :
    In payment (JsMap.values (MemStorage.payments s)) ->
    effect s (ConfirmPayment transport session (Some intentId))
           (MemStorage.set_payments
              (JsMap.adjust (Payment.id payment)
                 (complete PaymentStatus.completed None)
                 (MemStorage.payments s))
              (MemStorage.paymentIdCounter s) s).

(** [round(x, 2)] as the specification writes it: the nearest multiple of
    0.01, a half rounded up, computed as [Math.round(x * 100) / 100]. *)



Definition commission_ok (s : MemStorage.t) : Prop :=
  forall payment, In payment (JsMap.values (MemStorage.payments s)) ->
    Payment.commission payment = (Payment.amount payment * 0.15)%float.



(** Further runs for the examples. *)

Definition paid : list Request :=
  two_offers ++ [accept as_alice 1;
                 CreatePaymentIntent test_gateway 50 as_alice (Some 1)].

Definition bob_payment : Payment.t :=
  Payment.mk 1 800 120 PaymentStatus.pending 1 1 2 (Some "pi_1"%string) 50.


(** The operations of the settlement and of the lifecycle under the names
    the specification gives them. *)


Definition submit_proposal (transport : Mail -> bool) (now : Z)
    (session : Session) (projectId : Z) (form : ProposalForm) (w : World)
  : Response * World :=
  POST_projects_proposals transport now session projectId form w.

Definition confirm_payment (transport : Mail -> bool) (session : Session)
    (reference : string) (w : World) : Response * World :=
  POST_payments_confirm transport session (Some reference) w.

(** The parameters the handler of create-payment-intent hands to the
    gateway. *)

Definition intent_params (proposal : Proposal.t) (project : Project.t)
    (user : User.t) : PaymentIntentParams :=
  mkParams (Math_round (Proposal.price proposal * 100)%float) "usd"
           (Proposal.id proposal) (Project.id project) (User.id user)
           (Proposal.sellerId proposal).

(** One confirmation as a step on worlds, and its repetition. *)

Definition confirm_step (transport : Mail -> bool) (session : Session)
    (reference : string) (w : World) : World :=
  snd (confirm_payment transport session reference w).

(** ** The invariants of the lifecycle *)

Definition accepted_proposals (projectId : Z) (s : MemStorage.t)
  : list Proposal.t :=
  filter (fun p => ProposalStatus.eqb (Proposal.status p)
                                      ProposalStatus.accepted)
         (MemStorage.getProposalsByProject projectId s).

Definition at_most_one_accepted (s : MemStorage.t) : Prop :=
  forall projectId,
    (List.length (accepted_proposals projectId s) <= 1)%nat.

Definition no_accepted_while_open (s : MemStorage.t) : Prop :=
  forall projectId project,
    MemStorage.getProject projectId s = Some project ->
    Project.status project = ProjectStatus.open ->
    accepted_proposals projectId s = [].

(** A run is disciplined when every status update it makes targets a
    proposal that is pending when the request arrives. *)

Definition targets_pending (r : Request) (s : MemStorage.t) : bool :=
  match r with
  | PatchProposalStatus _ proposalId _ =>
      match MemStorage.getProposal proposalId s with
      | Some proposal =>
          ProposalStatus.eqb (Proposal.status proposal) ProposalStatus.pending
      | None => true
      end
  | _ => true
  end.

Fixpoint disciplined (rs : list Request) (w : World) : bool :=
  match rs with
  | [] => true
  | r :: rs' =>
      targets_pending r (storage w) && disciplined rs' (snd (serve r w))
  end.

(** The two facts the proofs carry along a run: an accepted proposal has a
    project that is not open, and next to an accepted proposal no other
    proposal of its project is accepted or pending. *)

Definition accepted_is_busy (s : MemStorage.t) : Prop :=
  forall p, In p (JsMap.values (MemStorage.proposals s)) ->
    Proposal.status p = ProposalStatus.accepted ->
    exists project,
      MemStorage.getProject (Proposal.projectId p) s = Some project
      /\ Project.status project <> ProjectStatus.open.

Definition exclusive (s : MemStorage.t) : Prop :=
  forall p q,
    In p (JsMap.values (MemStorage.proposals s)) ->
    In q (JsMap.values (MemStorage.proposals s)) ->
    Proposal.projectId p = Proposal.projectId q ->
    Proposal.status p = ProposalStatus.accepted ->
    q <> p ->
    Proposal.status q <> ProposalStatus.accepted
    /\ Proposal.status q <> ProposalStatus.pending.

(** * Definitions for the further properties

    The properties below go beyond the lifecycle and the commission: they
    are about the listings of the store, about what a run of requests keeps,
    about the gates in front of the routes, about the routes that read,
    about messages, and about registration and login. *)

(** ** Orders of the listings *)

Definition newest_first {A : Type} (createdAt : A -> Z) (a b : A) : Prop :=
  createdAt b <= createdAt a.

(** [a] is listed before [b]: it is newer, or as old and created first. *)

Definition listed_before {A : Type} (createdAt id : A -> Z) (a b : A) : Prop :=
  createdAt b < createdAt a \/ (createdAt a = createdAt b /\ id a < id b).

Definition ascending (l : list Z) : Prop := StronglySorted Z.lt l.

(** ** What a run keeps besides well-formedness

    The keys of every map ascend in the order of insertion; the buyer of a
    project, and the project, buyer and seller of a payment, are in the
    store; a seller has one proposal for a project at most; and a payment
    is for the price of a proposal of its seller for its project, paid by
    the buyer of that project. *)

Record linked (s : MemStorage.t) : Prop := mk_linked
  { asc_users : ascending (JsMap.keys (MemStorage.users s));
    asc_projects : ascending (JsMap.keys (MemStorage.projects s));
    asc_proposals : ascending (JsMap.keys (MemStorage.proposals s));
    asc_payments : ascending (JsMap.keys (MemStorage.payments s));
    project_buyer : forall j, In j (JsMap.values (MemStorage.projects s)) ->
      In (Project.buyerId j) (JsMap.keys (MemStorage.users s));
    payment_refs : forall y, In y (JsMap.values (MemStorage.payments s)) ->
      In (Payment.projectId y) (JsMap.keys (MemStorage.projects s))
      /\ In (Payment.buyerId y) (JsMap.keys (MemStorage.users s))
      /\ In (Payment.sellerId y) (JsMap.keys (MemStorage.users s));
    one_per_seller : forall p q,
      In p (JsMap.values (MemStorage.proposals s)) ->
      In q (JsMap.values (MemStorage.proposals s)) ->
      Proposal.projectId p = Proposal.projectId q ->
      Proposal.sellerId p = Proposal.sellerId q -> p = q;
    payment_backed : forall y, In y (JsMap.values (MemStorage.payments s)) ->
      exists p j,
        In p (JsMap.values (MemStorage.proposals s))
        /\ Proposal.projectId p = Payment.projectId y
        /\ Proposal.sellerId p = Payment.sellerId y
        /\ Proposal.price p = Payment.amount y
        /\ MemStorage.getProject (Payment.projectId y) s = Some j
        /\ Project.buyerId j = Payment.buyerId y }.

(** [v] enters the map [m] under an id of its own, giving [m']. *)

Definition fresh_insert {V : Type} (id : V -> Z) (m m' : JsMap.t V) (v : V)
  : Prop :=
  JsMap.get (id v) m = None
  /\ JsMap.get (id v) m' = Some v
  /\ (forall k, k <> id v -> JsMap.get k m' = JsMap.get k m)
  /\ (forall u, In u (JsMap.values m) -> id u < id v)
  /\ JsMap.values m' = JsMap.values m ++ [v].

(** ** The session of a request and the role its route asks for *)

Definition session_of (r : Request) : option Session :=
  match r with
  | Register _ _ => None
  | PostProject _ session _ => Some session
  | PatchProjectStatus session _ _ => Some session
  | SubmitProposal _ _ session _ _ => Some session
  | PatchProposalStatus session _ _ => Some session
  | CreatePaymentIntent _ _ session _ => Some session
  | ConfirmPayment _ session _ => Some session
  end.

Definition role_of (r : Request) : Role.t :=
  match r with
  | SubmitProposal _ _ _ _ _ => Role.seller
  | _ => Role.buyer
  end.

(** The request [r] comes from a session of the buyer [buyerId]. *)

Definition from_buyer (r : Request) (buyerId : Z) : Prop :=
  exists session,
    session_of r = Some session
    /\ userId session = Some buyerId
    /\ userRole session = Some Role.buyer.

Definition creates (r : Request) : bool :=
  match r with
  | Register _ _ | PostProject _ _ _ | SubmitProposal _ _ _ _ _
  | CreatePaymentIntent _ _ _ _ => true
  | _ => false
  end.

(** The session belongs to the buyer who posted [project]. *)

Definition owns_project (session : Session) (project : Project.t) : Prop :=
  userId session = Some (Project.buyerId project)
  /\ userRole session = Some Role.buyer.

(** A project is open, or in progress with an accepted proposal. *)

Definition progress (s : MemStorage.t) : Prop :=
  forall j, In j (JsMap.values (MemStorage.projects s)) ->
    Project.status j = ProjectStatus.open
    \/ (Project.status j = ProjectStatus.in_progress
        /\ exists p, In p (JsMap.values (MemStorage.proposals s))
                     /\ Proposal.projectId p = Project.id j
                     /\ Proposal.status p = ProposalStatus.accepted).

(** * Listings of projects and the reading routes

    [getAllProjects] and [getProjectsByBuyer] of [MemStorage]. *)

Definition getAllProjects (s : MemStorage.t) : list Project.t :=
  js_sort (fun a b => Project.createdAt b - Project.createdAt a)
          (JsMap.values (MemStorage.projects s)).

Definition getProjectsByBuyer (buyerId : Z) (s : MemStorage.t)
  : list Project.t :=
  js_sort (fun a b => Project.createdAt b - Project.createdAt a)
    (filter (fun project => Project.buyerId project =? buyerId)
            (JsMap.values (MemStorage.projects s))).

(** The answer of a route that reads: a refusal with its code and message,
    or a payload with its code. *)

Inductive Reply (A : Type) :=
| Refused (status : Z) (message : string)
| Answer (status : Z) (payload : A).

Arguments Refused {A} status message.
Arguments Answer {A} status payload.

Definition refusal {A : Type} (r : Response) : Reply A :=
  Refused (code r) (match body r with Message m => m | _ => ""%string end).

(** A route that reads the store behind its middleware. *)

Definition reading {A : Type} (middleware : list (option Response))
    (handler : Reply A) : Reply A :=
  match js_find (fun r => match r with Some _ => true | None => false end)
                middleware with
  | Some (Some r) => refusal r
  | _ => handler
  end.

Record SellerInfo := mkSellerInfo
  { si_id : Z; si_name : string; si_email : string }.

Record PartyInfo := mkPartyInfo { pi_user : Z; pi_name : string }.

Record ProjectInfo := mkProjectInfo { pj_id : Z; pj_title : string }.

(** GET /api/projects/:id/proposals (lines 341-381) *)

Definition GET_projects_proposals (session : Session) (projectId : Z)
    (s : MemStorage.t) : Reply (list (Proposal.t * option SellerInfo)) :=
  reading [isAuthenticated session]
    match MemStorage.getProject projectId s with
    | None => Refused 404 "Project not found"
    | Some project =>
        match getCurrentUser session s with
        | None => Refused 401 "Not authenticated"
        | Some user =>
            if negb (User.id user =? Project.buyerId project)
               && negb (Role.eqb (User.role user) Role.seller)
            then Refused 403
                   "You don't have permission to view these proposals"
            else
              let proposals := MemStorage.getProposalsByProject projectId s in
              Answer 200
                (map (fun proposal =>
                        (proposal,
                         match MemStorage.getUser (Proposal.sellerId proposal)
                                                  s with
                         | Some seller =>
                             Some (mkSellerInfo (User.id seller)
                                     (User.name seller) (User.email seller))
                         | None => None
                         end))
                     proposals)
        end
    end.

(** GET /api/seller/earnings (lines 630-662) *)

Record Earning := mkEarning
  { e_payment : Payment.t; netAmount : float;
    e_project : option ProjectInfo; e_buyer : option PartyInfo }.

Definition GET_seller_earnings (session : Session) (s : MemStorage.t)
  : Reply (list Earning) :=
  reading [isAuthenticated session; checkRole Role.seller session]
    match getCurrentUser session s with
    | None => Refused 401 "Not authenticated"
    | Some user =>
        let payments := MemStorage.getPaymentsBySeller (User.id user) s in
        Answer 200
          (map (fun payment =>
                  let project :=
                    MemStorage.getProject (Payment.projectId payment) s in
                  let buyer :=
                    MemStorage.getUser (Payment.buyerId payment) s in
                  let amount := Payment.amount payment in
                  let commission := Payment.commission payment in
                  let netAmount := (amount - commission)%float in
                  mkEarning payment netAmount
                    match project with
                    | Some project =>
                        Some (mkProjectInfo (Project.id project)
                                            (Project.title project))
                    | None => None
                    end
                    match buyer with
                    | Some buyer =>
                        Some (mkPartyInfo (User.id buyer) (User.name buyer))
                    | None => None
                    end)
               payments)
    end.

(** * Messages

    The messages of [MemStorage] (server/storage.ts, lines 210-244) and the
    routes over them.  The map of messages and its counter are kept in a
    record of their own, beside the store of the marketplace. *)

Module Message.
Record t := mk
  { id : Z; content : string; senderId : Z; receiverId : Z; projectId : Z;
    read : bool; createdAt : Z }.

Definition with_read (r : bool) (m : t) : t :=
  mk (id m) (content m) (senderId m) (receiverId m) (projectId m) r
     (createdAt m).
End Message.

Module InsertMessage.
Record t := mk
  { content : string; senderId : Z; receiverId : Z; projectId : Z }.
End InsertMessage.

Module MessageStorage.
Record t := mk { messages : JsMap.t Message.t; messageIdCounter : Z }.

Definition constructor : t := mk JsMap.empty 1.

Definition getMessagesByProject (projectId : Z) (s : t) : list Message.t :=
  js_sort (fun a b => Message.createdAt a - Message.createdAt b)
    (filter (fun message => Message.projectId message =? projectId)
            (JsMap.values (messages s))).

Definition getMessagesByUser (userId : Z) (s : t) : list Message.t :=
  js_sort (fun a b => Message.createdAt b - Message.createdAt a)
    (filter (fun message => (Message.senderId message =? userId)
                            || (Message.receiverId message =? userId))
            (JsMap.values (messages s))).

Definition getUnreadMessageCount (userId : Z) (s : t) : Z :=
  Z.of_nat
    (List.length
       (filter (fun message => (Message.receiverId message =? userId)
                               && negb (Message.read message))
               (JsMap.values (messages s)))).

Definition createMessage (now : Z) (insertMessage : InsertMessage.t) (s : t)
  : Message.t * t :=
  let id := messageIdCounter s in
  let message :=
    Message.mk id (InsertMessage.content insertMessage)
               (InsertMessage.senderId insertMessage)
               (InsertMessage.receiverId insertMessage)
               (InsertMessage.projectId insertMessage) false now in
  (message, mk (JsMap.set id message (messages s)) (id + 1)).

Definition markMessageAsRead (id : Z) (s : t) : option Message.t * t :=
  match JsMap.get id (messages s) with
  | None => (None, s)
  | Some message =>
      let updatedMessage := Message.with_read true message in
      (Some updatedMessage,
       mk (JsMap.set id updatedMessage (messages s)) (messageIdCounter s))
  end.
End MessageStorage.

(** [sendMessageNotificationEmail] (server/email.ts, lines 127-155) catches
    the error of the transport like the other notifications. *)

Inductive Notice :=
| MessageNotificationEmail (to senderName projectTitle : string).

Record Posted := mkPosted { notice : Notice; delivered : bool }.

(** The marketplace with its messages and the notices about them. *)

Record Site := mkSite
  { world : World; inbox : MessageStorage.t; outbox : list Posted }.

(** The check both message routes make: the user is the buyer of the
    project, or a seller with an accepted proposal for it. *)

Definition takes_part (userId : Z) (project : Project.t) (projectId : Z)
    (s : MemStorage.t) : bool :=
  if negb (userId =? Project.buyerId project) then
    match js_find (fun p => (Proposal.sellerId p =? userId)
                            && ProposalStatus.eqb (Proposal.status p)
                                                  ProposalStatus.accepted)
                  (MemStorage.getProposalsByProject projectId s) with
    | Some _ => true
    | None => false
    end
  else true.

(** GET /api/projects/:id/messages (lines 665-713).  Each message of the
    listing that is unread and addressed to the user is marked as read in
    the store; the answer carries the messages as they were listed. *)

Definition mark_for (userId : Z) (s : MessageStorage.t) (message : Message.t)
  : MessageStorage.t :=
  if negb (Message.read message) && (Message.receiverId message =? userId)
  then snd (MessageStorage.markMessageAsRead (Message.id message) s)
  else s.

Definition GET_projects_messages (session : Session) (projectId : Z)
    (x : Site) : Reply (list (Message.t * option PartyInfo)) * Site :=
  match isAuthenticated session with
  | Some r => (refusal r, x)
  | None =>
      let s := storage (world x) in
      match MemStorage.getProject projectId s with
      | None => (Refused 404 "Project not found", x)
      | Some project =>
          match getCurrentUser session s with
          | None => (Refused 401 "Not authenticated", x)
          | Some user =>
              if negb (takes_part (User.id user) project projectId s) then
                (Refused 403
                   "You don't have permission to view these messages", x)
              else
                let messages :=
                  MessageStorage.getMessagesByProject projectId (inbox x) in
                let messagesWithInfo :=
                  map (fun message =>
                         (message,
                          match MemStorage.getUser (Message.senderId message)
                                                   s with
                          | Some sender =>
                              Some (mkPartyInfo (User.id sender)
                                                (User.name sender))
                          | None => None
                          end))
                      messages in
                (Answer 200 messagesWithInfo,
                 mkSite (world x)
                        (fold_left (mark_for (User.id user)) messages
                                   (inbox x))
                        (outbox x))
          end
      end
  end.

(** POST /api/projects/:id/messages (lines 715-780); the receiver id of the
    body is a number. *)

Definition POST_projects_messages (transport : Notice -> bool) (now : Z)
    (session : Session) (projectId : Z) (content : option string)
    (receiverId : option Z) (x : Site) : Reply Message.t * Site :=
  match isAuthenticated session with
  | Some r => (refusal r, x)
  | None =>
      let s := storage (world x) in
      match content, receiverId with
      | Some text, Some rid =>
          if negb (truthy_string content) || negb (truthy_id receiverId) then
            (Refused 400 "Content and receiver ID are required", x)
          else
            match MemStorage.getProject projectId s with
            | None => (Refused 404 "Project not found", x)
            | Some project =>
                match getCurrentUser session s with
                | None => (Refused 401 "Not authenticated", x)
                | Some user =>
                    if negb (takes_part (User.id user) project projectId s)
                    then
                      (Refused 403
                         "You don't have permission to send messages in this project",
                       x)
                    else
                      match MemStorage.getUser rid s with
                      | None => (Refused 404 "Receiver not found", x)
                      | Some receiver =>
                          if negb (takes_part (User.id receiver) project
                                              projectId s)
                          then
                            (Refused 403
                               "Receiver is not part of this project", x)
                          else
                            let validatedData :=
                              InsertMessage.mk text (User.id user) rid
                                               projectId in
                            let (message, inbox1) :=
                              MessageStorage.createMessage now validatedData
                                                           (inbox x) in
                            let n :=
                              MessageNotificationEmail (User.email receiver)
                                (User.name user) (Project.title project) in
                            (Answer 201 message,
                             mkSite (world x) inbox1
                                    (outbox x ++ [mkPosted n (transport n)]))
                      end
                end
            end
      | _, _ => (Refused 400 "Content and receiver ID are required", x)
      end
  end.

(** GET /api/messages/unread-count (lines 782-794) *)

Definition GET_messages_unread_count (session : Session) (x : Site)
  : Reply Z :=
  reading [isAuthenticated session]
    match getCurrentUser session (storage (world x)) with
    | None => Refused 401 "Not authenticated"
    | Some user =>
        Answer 200
          (MessageStorage.getUnreadMessageCount (User.id user) (inbox x))
    end.

(** ** Events of the site *)

Inductive Event :=
| Marketplace (r : Request)
| ReadMessages (session : Session) (projectId : Z)
| SendMessage (transport : Notice -> bool) (now : Z) (session : Session)
    (projectId : Z) (content : option string) (receiverId : option Z).

Definition handle (e : Event) (x : Site) : Site :=
  match e with
  | Marketplace r => mkSite (snd (serve r (world x))) (inbox x) (outbox x)
  | ReadMessages session projectId =>
      snd (GET_projects_messages session projectId x)
  | SendMessage transport now session projectId content receiverId =>
      snd (POST_projects_messages transport now session projectId content
                                  receiverId x)
  end.

Definition play (es : list Event) (x : Site) : Site :=
  fold_left (fun x' e => handle e x') es x.

Definition opening : Site := mkSite initial MessageStorage.constructor [].

Definition live (x : Site) : Prop := exists es, x = play es opening.

(** [a] is listed before [b] in a listing with the oldest first. *)

Definition listed_oldest_first {A : Type} (createdAt id : A -> Z) (a b : A)
  : Prop :=
  createdAt a < createdAt b \/ (createdAt a = createdAt b /\ id a < id b).

(** Every message sits under its own id, and its sender, its receiver and
    its project are in the store of the marketplace. *)

Record wf_site (x : Site) : Prop := mk_wf_site
  { site_wf : wf (storage (world x));
    site_linked : linked (storage (world x));
    inbox_wf :
      wf_map Message.id (MessageStorage.messageIdCounter (inbox x))
             (MessageStorage.messages (inbox x));
    inbox_asc : ascending (JsMap.keys (MessageStorage.messages (inbox x)));
    inbox_refs : forall m,
      In m (JsMap.values (MessageStorage.messages (inbox x))) ->
      In (Message.senderId m) (JsMap.keys (MemStorage.users (storage (world x))))
      /\ In (Message.receiverId m)
            (JsMap.keys (MemStorage.users (storage (world x))))
      /\ In (Message.projectId m)
            (JsMap.keys (MemStorage.projects (storage (world x)))) }.

(** What reading does to a stored message. *)

Definition read_by (userId projectId : Z) (m : Message.t) : Message.t :=
  if (Message.projectId m =? projectId) && (Message.receiverId m =? userId)
  then Message.with_read true m else m.

(** A cast for the examples: Alice and Bob talk about the website once
    Bob's offer is accepted. *)

Definition chat : list Event :=
  map Marketplace (two_offers ++ [accept as_alice 1])
  ++ [SendMessage (fun _ => false) 60 as_alice 1 (Some "When can you start?"%string)
        (Some 2)].

Definition first_message : Message.t :=
  Message.mk 1 "When can you start?" 1 2 1 false 60.

(** A message as GET /api/projects/:id/messages answers it, and the notice
    POST /api/projects/:id/messages sends. *)

Definition with_sender (s : MemStorage.t) (message : Message.t)
  : Message.t * option PartyInfo :=
  (message,
   match MemStorage.getUser (Message.senderId message) s with
   | Some sender => Some (mkPartyInfo (User.id sender) (User.name sender))
   | None => None
   end).

Definition message_notice (receiver user : User.t) (project : Project.t)
  : Notice :=
  MessageNotificationEmail (User.email receiver) (User.name user)
                           (Project.title project).

(** [m'] is the message [m] at a later time: the same but for the flag,
    which is not taken back. *)

Definition same_message (m m' : Message.t) : Prop :=
  Message.id m' = Message.id m
  /\ Message.content m' = Message.content m
  /\ Message.senderId m' = Message.senderId m
  /\ Message.receiverId m' = Message.receiverId m
  /\ Message.projectId m' = Message.projectId m
  /\ Message.createdAt m' = Message.createdAt m
  /\ (Message.read m = true -> Message.read m' = true).

(** The unread messages addressed to [userId]. *)

Definition unread_for (userId : Z) (m : Message.t) : bool :=
  (Message.receiverId m =? userId) && negb (Message.read m).

(** * Registration and login (lines 157-221)

    [toLowerCase] is the function of that name on strings, [hashPassword]
    and [checkPassword] are the functions of server/auth.ts as the call at
    hand computes them.  A body is [None] when its schema rejects it, and
    else what the schema returns. *)

Record RegisterData := mkRegisterData
  { rd_name : string; rd_email : string; rd_password : string;
    rd_role : Role.t }.

Record LoginData := mkLoginData { ld_email : string; ld_password : string }.

Definition getUserByEmail (toLowerCase : string -> string) (email : string)
    (s : MemStorage.t) : option User.t :=
  js_find (fun user => String.eqb (toLowerCase (User.email user))
                                  (toLowerCase email))
          (JsMap.values (MemStorage.users s)).

(** A user less the password. *)

Definition userWithoutPassword (user : User.t) : Body :=
  UserJson (User.id user) (User.name user) (User.email user)
           (User.role user) (User.createdAt user).

Definition session_for (user : User.t) : Session :=
  mkSession (Some (User.id user)) (Some (User.role user)).

Definition POST_auth_register (toLowerCase : string -> string)
    (hashPassword : string -> string) (now : Z) (body : option RegisterData)
    (session : Session) (s : MemStorage.t)
  : Response * Session * MemStorage.t :=
  match body with
  | None => (json 400 ZodMessage, session, s)
  | Some userData =>
      match getUserByEmail toLowerCase (rd_email userData) s with
      | Some existingUser =>
          (json 400 (Message "User with this email already exists"),
           session, s)
      | None =>
          let hashedPassword := hashPassword (rd_password userData) in
          let (user, s1) :=
            MemStorage.createUser now
              (InsertUser.mk (rd_name userData) (rd_email userData)
                             hashedPassword (rd_role userData)) s in
          (json 201 (userWithoutPassword user), session_for user, s1)
      end
  end.

Definition POST_auth_login (toLowerCase : string -> string)
    (checkPassword : string -> string -> bool) (body : option LoginData)
    (session : Session) (s : MemStorage.t) : Response * Session :=
  match body with
  | None => (json 400 ZodMessage, session)
  | Some validatedData =>
      match getUserByEmail toLowerCase (ld_email validatedData) s with
      | None => (json 400 (Message "Invalid email or password"), session)
      | Some user =>
          let passwordMatch :=
            checkPassword (ld_password validatedData) (User.password user) in
          if negb passwordMatch then
            (json 400 (Message "Invalid email or password"), session)
          else (json 200 (userWithoutPassword user), session_for user)
      end
  end.

(** Worlds whose users all came through the registration route. *)

Inductive Visit :=
| SignUp (hashPassword : string -> string) (now : Z)
    (body : option RegisterData)
| Use (r : Request).

Definition visit (toLowerCase : string -> string) (v : Visit) (w : World)
  : World :=
  match v with
  | SignUp hashPassword now body =>
      with_storage
        (snd (POST_auth_register toLowerCase hashPassword now body
                (mkSession None None) (storage w))) w
  | Use r => snd (serve r w)
  end.

Definition tour (toLowerCase : string -> string) (vs : list Visit) (w : World)
  : World :=
  fold_left (fun w' v => visit toLowerCase v w') vs w.

Definition by_route (v : Visit) : bool :=
  match v with
  | Use (Register _ _) => false
  | _ => true
  end.

Definition signed_up (toLowerCase : string -> string) (w : World) : Prop :=
  exists vs, forallb by_route vs = true /\ w = tour toLowerCase vs initial.

Definition distinct_emails (toLowerCase : string -> string)
    (s : MemStorage.t) : Prop :=
  forall u v,
    In u (JsMap.values (MemStorage.users s)) ->
    In v (JsMap.values (MemStorage.users s)) ->
    toLowerCase (User.email u) = toLowerCase (User.email v) -> u = v.

(** [toLowerCase] on the letters A to Z, for the examples. *)

Definition lower_ascii (c : Ascii.ascii) : Ascii.ascii :=
  let n := Ascii.nat_of_ascii c in
  if ((65 <=? n) && (n <=? 90))%nat then Ascii.ascii_of_nat (n + 32) else c.

Fixpoint lower (s : string) : string :=
  match s with
  | EmptyString => EmptyString
  | String c r => String (lower_ascii c) (lower r)
  end.

Definition erin : RegisterData :=
  mkRegisterData "Erin" "Erin@Example.com" "secret1" Role.seller.

Definition erin_user : User.t :=
  User.mk 1 "Erin" "Erin@Example.com" "#secret1" Role.seller 5.

Definition salted (password : string) : string := ("#" ++ password)%string.

Definition matches (password hashed : string) : bool :=
  String.eqb (salted password) hashed.

(** GET /api/seller/proposals (lines 479-503) and GET /api/buyer/payments
    (lines 602-628) *)

Definition GET_seller_proposals (session : Session) (s : MemStorage.t)
  : Reply (list (Proposal.t * option Project.t)) :=
  reading [isAuthenticated session; checkRole Role.seller session]
    match getCurrentUser session s with
    | None => Refused 401 "Not authenticated"
    | Some user =>
        let proposals := MemStorage.getProposalsBySeller (User.id user) s in
        Answer 200
          (map (fun proposal =>
                  (proposal,
                   MemStorage.getProject (Proposal.projectId proposal) s))
               proposals)
    end.

Record PaymentWithInfo := mkPaymentWithInfo
  { p_payment : Payment.t; p_project : option ProjectInfo;
    p_seller : option PartyInfo }.

Definition GET_buyer_payments (session : Session) (s : MemStorage.t)
  : Reply (list PaymentWithInfo) :=
  reading [isAuthenticated session; checkRole Role.buyer session]
    match getCurrentUser session s with
    | None => Refused 401 "Not authenticated"
    | Some user =>
        let payments := MemStorage.getPaymentsByBuyer (User.id user) s in
        Answer 200
          (map (fun payment =>
                  let project :=
                    MemStorage.getProject (Payment.projectId payment) s in
                  let seller :=
                    MemStorage.getUser (Payment.sellerId payment) s in
                  mkPaymentWithInfo payment
                    match project with
                    | Some project =>
                        Some (mkProjectInfo (Project.id project)
                                            (Project.title project))
                    | None => None
                    end
                    match seller with
                    | Some seller =>
                        Some (mkPartyInfo (User.id seller) (User.name seller))
                    | None => None
                    end)
               payments)
    end.

(** A payment is as it was, or it was pending and is now completed. *)

Definition settles (y y' : Payment.t) : Prop :=
  y' = y
  \/ (Payment.status y = PaymentStatus.pending
      /\ y' = complete PaymentStatus.completed None y).

Definition pending_or_completed (y : Payment.t) : Prop :=
  Payment.status y = PaymentStatus.pending
  \/ Payment.status y = PaymentStatus.completed.

(** * Properties *)

(** ** Maps *)

Module JsMapFacts.
Section Facts.
Variable V : Type.
Implicit Types (m : JsMap.t V) (k : Z) (v : V).

Lemma get_set_eq k v m : JsMap.get k (JsMap.set k v m) = Some v.
Proof.
  induction m as [|[k' v'] r IH]; simpl.
  - now rewrite Z.eqb_refl.
  - destruct (k' =? k) eqn:E; simpl.
    + now rewrite Z.eqb_refl.
    + now rewrite E.
Qed.

Lemma get_set_neq k k' v m :
  k <> k' -> JsMap.get k' (JsMap.set k v m) = JsMap.get k' m.
Proof.
  intros N. induction m as [|[k0 v0] r IH]; simpl.
  - destruct (k =? k') eqn:E; [apply Z.eqb_eq in E; contradiction|reflexivity].
  - destruct (k0 =? k) eqn:E; simpl.
    + apply Z.eqb_eq in E. subst k0.
      destruct (k =? k') eqn:E'; [apply Z.eqb_eq in E'; contradiction|].
      reflexivity.
    + destruct (k0 =? k'); [reflexivity|exact IH].
Qed.

Lemma get_None k m : JsMap.get k m = None <-> ~ In k (JsMap.keys m).
Proof.
  induction m as [|[k' v'] r IH]; simpl.
  - tauto.
  - destruct (k' =? k) eqn:E.
    + apply Z.eqb_eq in E. split; [discriminate|]. intros H. exfalso. auto.
    + apply Z.eqb_neq in E. rewrite IH. tauto.
Qed.

Lemma get_In k v m : JsMap.get k m = Some v -> In (k, v) m.
Proof.
  induction m as [|[k' v'] r IH]; simpl; [discriminate|].
  destruct (k' =? k) eqn:E.
  - apply Z.eqb_eq in E. intros [= ->]. left. now subst.
  - auto.
Qed.

Lemma get_keys k v m : JsMap.get k m = Some v -> In k (JsMap.keys m).
Proof.
  intros H. apply get_In in H. apply (in_map fst) in H. exact H.
Qed.

Lemma In_get k v m :
  NoDup (JsMap.keys m) -> In (k, v) m -> JsMap.get k m = Some v.
Proof.
  induction m as [|[k' v'] r IH]; simpl; [tauto|].
  intros ND [E|H].
  - injection E as -> ->. now rewrite Z.eqb_refl.
  - inversion ND as [|? ? N ND']; subst.
    destruct (k' =? k) eqn:E.
    + apply Z.eqb_eq in E. subst k'. exfalso. apply N.
      apply (in_map fst) in H. exact H.
    + auto.
Qed.

Lemma set_fresh k v m :
  ~ In k (JsMap.keys m) -> JsMap.set k v m = m ++ [(k, v)].
Proof.
  induction m as [|[k' v'] r IH]; simpl; [reflexivity|].
  intros N. destruct (k' =? k) eqn:E.
  - apply Z.eqb_eq in E. exfalso. auto.
  - rewrite IH; auto.
Qed.

Lemma keys_mapv g m : JsMap.keys (JsMap.mapv g m) = JsMap.keys m.
Proof.
  unfold JsMap.keys, JsMap.mapv. rewrite map_map. reflexivity.
Qed.

Lemma mapv_mapv f g m :
  JsMap.mapv f (JsMap.mapv g m) = JsMap.mapv (fun k v => f k (g k v)) m.
Proof.
  unfold JsMap.mapv. rewrite map_map. reflexivity.
Qed.

Lemma mapv_ext_in f g m :
  (forall k v, In (k, v) m -> f k v = g k v) -> JsMap.mapv f m = JsMap.mapv g m.
Proof.
  intros H. apply map_ext_in. intros [k v] I. simpl. now rewrite H.
Qed.

Lemma mapv_id g m : (forall k v, In (k, v) m -> g k v = v) -> JsMap.mapv g m = m.
Proof.
  intros H. unfold JsMap.mapv. rewrite <- (map_id m) at 2.
  apply map_ext_in. intros [k v] I. simpl. now rewrite H.
Qed.

Lemma In_mapv g k v' m :
  In (k, v') (JsMap.mapv g m) <-> exists v, In (k, v) m /\ v' = g k v.
Proof.
  unfold JsMap.mapv. rewrite in_map_iff. split.
  - intros [[k0 v0] [E I]]. simpl in E. injection E as E1 E2. subst. eauto.
  - intros [v [I ->]]. exists (k, v). auto.
Qed.

Lemma get_mapv g k m :
  JsMap.get k (JsMap.mapv g m) = option_map (g k) (JsMap.get k m).
Proof.
  induction m as [|[k' v'] r IH]; simpl; [reflexivity|].
  destruct (k' =? k) eqn:E; [|exact IH].
  apply Z.eqb_eq in E. now subst.
Qed.

Lemma values_mapv_In g v' m :
  In v' (JsMap.values (JsMap.mapv g m)) <-> exists k v, In (k, v) m /\ v' = g k v.
Proof.
  unfold JsMap.values. rewrite in_map_iff. split.
  - intros [[k v0] [E I]]. simpl in E. subst v0.
    apply In_mapv in I. destruct I as [v [I ->]]. eauto.
  - intros [k [v [I ->]]]. exists (k, g k v). split; [reflexivity|].
    apply In_mapv. eauto.
Qed.

Lemma In_values v m : In v (JsMap.values m) <-> exists k, In (k, v) m.
Proof.
  unfold JsMap.values. rewrite in_map_iff. split.
  - intros [[k v0] [E I]]. simpl in E. subst. eauto.
  - intros [k I]. exists (k, v). auto.
Qed.

Lemma set_present k v g m :
  NoDup (JsMap.keys m) -> JsMap.get k m = Some v ->
  JsMap.set k (g v) m = JsMap.adjust k g m.
Proof.
  induction m as [|[k' v'] r IH]; simpl; [discriminate|].
  intros ND G. inversion ND as [|? ? N ND']; subst.
  unfold JsMap.adjust, JsMap.mapv. simpl. destruct (k' =? k) eqn:E.
  - apply Z.eqb_eq in E. subst k'. injection G as ->. f_equal.
    symmetry. apply (mapv_id (fun k' v => if k' =? k then g v else v)).
    intros k0 v0 I. destruct (k0 =? k) eqn:E; [|reflexivity].
    apply Z.eqb_eq in E. subst k0. exfalso. apply N.
    apply (in_map fst) in I. exact I.
  - f_equal. apply IH; assumption.
Qed.

Lemma adjust_absent k g m : JsMap.get k m = None -> JsMap.adjust k g m = m.
Proof.
  intros G. apply mapv_id. intros k0 v0 I.
  destruct (k0 =? k) eqn:E; [|reflexivity].
  apply Z.eqb_eq in E. subst k0. apply get_None in G. exfalso. apply G.
  apply (in_map fst) in I. exact I.
Qed.
End Facts.
End JsMapFacts.

(** ** Sorting *)

Section SortFacts.
Variable A : Type.
Variable cmp : A -> A -> Z.

Lemma sort_insert_perm x l : Permutation (sort_insert cmp x l) (x :: l).
Proof.
  induction l as [|y r IH]; simpl; [reflexivity|].
  destruct (cmp x y <=? 0); [reflexivity|].
  rewrite IH. apply perm_swap.
Qed.

Lemma js_sort_perm l : Permutation (js_sort cmp l) l.
Proof.
  induction l as [|x r IH]; simpl; [reflexivity|].
  rewrite sort_insert_perm. now constructor.
Qed.

Lemma js_sort_In x l : In x (js_sort cmp l) <-> In x l.
Proof.
  split; apply Permutation_in; [|symmetry]; apply js_sort_perm.
Qed.

Lemma existsb_perm (f : A -> bool) l l' :
  Permutation l l' -> existsb f l = existsb f l'.
Proof.
  induction 1; simpl.
  - reflexivity.
  - now rewrite IHPermutation.
  - destruct (f x), (f y); reflexivity.
  - congruence.
Qed.

Lemma js_sort_existsb f l : existsb f (js_sort cmp l) = existsb f l.
Proof. apply existsb_perm, js_sort_perm. Qed.

End SortFacts.

(** ** Well-formed stores *)

Section WfMap.
Variable V : Type.
Variable id : V -> Z.

Lemma wf_map_empty : wf_map id 1 JsMap.empty.
Proof.
  split; simpl; try tauto; try lia. constructor.
Qed.

Lemma wf_map_fresh counter m :
  wf_map id counter m -> ~ In counter (JsMap.keys m).
Proof.
  intros W I. pose proof (wf_range W _ I). lia.
Qed.

Lemma wf_map_create counter v m :
  wf_map id counter m -> id v = counter ->
  wf_map id (counter + 1) (JsMap.set counter v m).
Proof.
  intros W E. pose proof (wf_map_fresh W) as F.
  rewrite JsMapFacts.set_fresh by exact F.
  split.
  - unfold JsMap.keys. rewrite map_app. simpl.
    apply NoDup_app; [exact (wf_nodup W)|repeat constructor; simpl; tauto|].
    intros k I [<-|[]]. exact (F I).
  - intros k v' I. apply in_app_or in I. destruct I as [I|[I|[]]].
    + exact (wf_id W _ _ I).
    + injection I as <- <-. exact E.
  - intros k I. unfold JsMap.keys in I. rewrite map_app in I.
    apply in_app_or in I. destruct I as [I|[<-|[]]].
    + pose proof (wf_range W _ I). lia.
    + simpl. pose proof (wf_counter W). lia.
  - pose proof (wf_counter W). lia.
Qed.

Lemma wf_map_mapv g counter m :
  wf_map id counter m -> (forall k v, id (g k v) = id v) ->
  wf_map id counter (JsMap.mapv g m).
Proof.
  intros W G. split.
  - rewrite JsMapFacts.keys_mapv. exact (wf_nodup W).
  - intros k v' I. apply JsMapFacts.In_mapv in I.
    destruct I as [v [I ->]]. rewrite G. exact (wf_id W _ _ I).
  - intros k. rewrite JsMapFacts.keys_mapv. exact (wf_range W k).
  - exact (wf_counter W).
Qed.

Lemma wf_map_get counter m v :
  wf_map id counter m -> In v (JsMap.values m) -> JsMap.get (id v) m = Some v.
Proof.
  intros W I. apply JsMapFacts.In_values in I. destruct I as [k I].
  rewrite (wf_id W _ _ I). apply JsMapFacts.In_get; [exact (wf_nodup W)|].
  exact I.
Qed.

Lemma wf_map_get_id counter m k v :
  wf_map id counter m -> JsMap.get k m = Some v -> id v = k.
Proof.
  intros W G. apply (wf_id W). now apply JsMapFacts.get_In.
Qed.

Lemma wf_map_values_inj counter m v v' :
  wf_map id counter m -> In v (JsMap.values m) -> In v' (JsMap.values m) ->
  id v = id v' -> v = v'.
Proof.
  intros W I I' E. eapply wf_map_get in I; [|exact W].
  eapply wf_map_get in I'; [|exact W]. rewrite E in I. congruence.
Qed.

Lemma wf_map_values_nodup counter m :
  wf_map id counter m -> NoDup (JsMap.values m).
Proof.
  intros [ND ID _ _]. induction m as [|[k v] r IH]; simpl.
  - constructor.
  - simpl in ND. inversion ND as [|? ? N ND']; subst. constructor.
    + intros I. apply JsMapFacts.In_values in I. destruct I as [k' I].
      assert (k' = k).
      { rewrite <- (ID k v), <- (ID k' v); simpl; auto. }
      subst k'. apply N. apply (in_map fst) in I. exact I.
    + apply IH; [exact ND'|]. intros k' v' I. apply ID. now right.
Qed.
End WfMap.

Lemma wf_constructor : wf MemStorage.constructor.
Proof.
  split; simpl; try apply wf_map_empty. intros p [].
Qed.

(** ** The store's updates as pointwise maps *)

Lemma storage_eta s :
  MemStorage.mk (MemStorage.users s) (MemStorage.projects s)
    (MemStorage.proposals s) (MemStorage.payments s)
    (MemStorage.userIdCounter s) (MemStorage.projectIdCounter s)
    (MemStorage.proposalIdCounter s) (MemStorage.paymentIdCounter s) = s.
Proof. now destruct s. Qed.

Lemma updateProposalStatus_adjust id status s :
  NoDup (JsMap.keys (MemStorage.proposals s)) ->
  snd (MemStorage.updateProposalStatus id status s) =
  MemStorage.set_proposals
    (JsMap.adjust id (Proposal.with_status status) (MemStorage.proposals s))
    (MemStorage.proposalIdCounter s) s.
Proof.
  intros ND. unfold MemStorage.updateProposalStatus.
  destruct (JsMap.get id (MemStorage.proposals s)) as [p|] eqn:G; simpl.
  - now rewrite <- JsMapFacts.set_present with (v := p) by assumption.
  - rewrite JsMapFacts.adjust_absent by exact G. unfold MemStorage.set_proposals.
    now rewrite storage_eta.
Qed.

Lemma updateProjectStatus_adjust id status s :
  NoDup (JsMap.keys (MemStorage.projects s)) ->
  snd (MemStorage.updateProjectStatus id status s) =
  MemStorage.set_projects
    (JsMap.adjust id (Project.with_status status) (MemStorage.projects s))
    (MemStorage.projectIdCounter s) s.
Proof.
  intros ND. unfold MemStorage.updateProjectStatus.
  destruct (JsMap.get id (MemStorage.projects s)) as [p|] eqn:G; simpl.
  - now rewrite <- JsMapFacts.set_present with (v := p) by assumption.
  - rewrite JsMapFacts.adjust_absent by exact G. unfold MemStorage.set_projects.
    now rewrite storage_eta.
Qed.

Lemma updatePaymentStatus_adjust id status sid s :
  NoDup (JsMap.keys (MemStorage.payments s)) ->
  snd (MemStorage.updatePaymentStatus id status sid s) =
  MemStorage.set_payments
    (JsMap.adjust id (complete status sid) (MemStorage.payments s))
    (MemStorage.paymentIdCounter s) s.
Proof.
  intros ND. unfold MemStorage.updatePaymentStatus.
  destruct (JsMap.get id (MemStorage.payments s)) as [p|] eqn:G; simpl.
  - now rewrite <- JsMapFacts.set_present with (v := p) by assumption.
  - rewrite JsMapFacts.adjust_absent by exact G. unfold MemStorage.set_payments.
    now rewrite storage_eta.
Qed.

(** ** The accept cascade

    What the handler of PATCH /api/proposals/:id/status does to the proposals
    when the new status is [accepted], entry by entry. *)

Lemma reject_others_mapv proposalId others : forall s,
  NoDup (JsMap.keys (MemStorage.proposals s)) ->
  reject_others proposalId others s =
  MemStorage.set_proposals
    (JsMap.mapv
       (fun k v =>
          if existsb (Z.eqb k)
               (map Proposal.id (filter (to_reject proposalId) others))
          then Proposal.with_status ProposalStatus.rejected v else v)
       (MemStorage.proposals s))
    (MemStorage.proposalIdCounter s) s.
Proof.
  induction others as [|o r IH]; intros s ND.
  - simpl. rewrite JsMapFacts.mapv_id by reflexivity.
    unfold MemStorage.set_proposals. now rewrite storage_eta.
  - unfold reject_others. simpl fold_left.
    fold (to_reject proposalId o). simpl filter.
    destruct (to_reject proposalId o) eqn:C.
    + fold (reject_others proposalId r
              (snd (MemStorage.updateProposalStatus (Proposal.id o)
                      ProposalStatus.rejected s))).
      rewrite updateProposalStatus_adjust by exact ND.
      rewrite IH.
      * unfold MemStorage.set_proposals at 1 3. simpl.
        unfold JsMap.adjust. rewrite JsMapFacts.mapv_mapv.
        unfold MemStorage.set_proposals. f_equal.
        apply JsMapFacts.mapv_ext_in. intros k v _.
        destruct (k =? Proposal.id o); simpl;
          destruct (existsb _ _); try reflexivity.
      * simpl. unfold JsMap.adjust. rewrite JsMapFacts.keys_mapv.
        exact ND.
    + fold (reject_others proposalId r s). apply IH. exact ND.
Qed.

Lemma to_reject_ids proposalId projectId counter m k v :
  wf_map Proposal.id counter m -> In (k, v) m ->
  existsb (Z.eqb k)
    (map Proposal.id
       (filter (to_reject proposalId)
          (js_sort (fun a b => Proposal.createdAt b - Proposal.createdAt a)
             (filter (fun proposal => Proposal.projectId proposal =? projectId)
                     (JsMap.values m))))) =
  (Proposal.projectId v =? projectId) && to_reject proposalId v.
Proof.
  intros W I. apply eq_iff_eq_true.
  rewrite existsb_exists, andb_true_iff.
  assert (Iv : In v (JsMap.values m)) by (apply JsMapFacts.In_values; eauto).
  assert (Ek : Proposal.id v = k) by exact (wf_id W _ _ I).
  split.
  - intros [x [Hin Hx]]. apply Z.eqb_eq in Hx. subst x.
    apply in_map_iff in Hin. destruct Hin as [o [Eo Ho]].
    apply filter_In in Ho. destruct Ho as [Ho C].
    apply js_sort_In in Ho. apply filter_In in Ho. destruct Ho as [Ho F].
    assert (o = v).
    { eapply wf_map_values_inj; eauto. congruence. }
    subst o. auto.
  - intros [F C]. exists k. split; [|apply Z.eqb_refl].
    apply in_map_iff. exists v. split; [exact Ek|].
    apply filter_In. split; [|exact C].
    apply js_sort_In. apply filter_In. auto.
Qed.

Lemma accept_cascade s proposalId proposal project :
  wf s ->
  MemStorage.getProposal proposalId s = Some proposal ->
  MemStorage.getProject (Proposal.projectId proposal) s = Some project ->
  let s1 :=
    snd (MemStorage.updateProposalStatus proposalId ProposalStatus.accepted s)
  in
  let s2 :=
    snd (MemStorage.updateProjectStatus (Project.id project)
           ProjectStatus.in_progress s1) in
  reject_others proposalId
    (MemStorage.getProposalsByProject (Project.id project) s2) s2
  = accept_storage proposalId (Proposal.projectId proposal) s.
Proof.
  intros W GP GJ s1 s2.
  assert (EJ : Project.id project = Proposal.projectId proposal)
    by (eapply wf_map_get_id; [exact (wf_projects W)|exact GJ]).
  assert (E1 : s1 = MemStorage.set_proposals
                      (JsMap.adjust proposalId
                         (Proposal.with_status ProposalStatus.accepted)
                         (MemStorage.proposals s))
                      (MemStorage.proposalIdCounter s) s).
  { apply updateProposalStatus_adjust. exact (wf_nodup (wf_proposals W)). }
  assert (E2 : s2 = MemStorage.set_projects
                      (JsMap.adjust (Project.id project)
                         (Project.with_status ProjectStatus.in_progress)
                         (MemStorage.projects s))
                      (MemStorage.projectIdCounter s) s1).
  { unfold s2. rewrite updateProjectStatus_adjust.
    - rewrite E1. reflexivity.
    - rewrite E1. simpl. exact (wf_nodup (wf_projects W)). }
  assert (W1 : wf_map Proposal.id (MemStorage.proposalIdCounter s)
                 (MemStorage.proposals s2)).
  { rewrite E2, E1. simpl. apply wf_map_mapv; [exact (wf_proposals W)|].
    intros k v. now destruct (k =? proposalId). }
  rewrite reject_others_mapv by exact (wf_nodup W1).
  unfold MemStorage.getProposalsByProject.
  assert (EM : JsMap.mapv
      (fun k v =>
       if existsb (Z.eqb k)
            (map Proposal.id
               (filter (to_reject proposalId)
                  (js_sort
                     (fun a b => Proposal.createdAt b - Proposal.createdAt a)
                     (filter
                        (fun proposal =>
                           Proposal.projectId proposal =? Project.id project)
                        (JsMap.values (MemStorage.proposals s2))))))
       then Proposal.with_status ProposalStatus.rejected v else v)
      (MemStorage.proposals s2)
    = JsMap.mapv (after_accept proposalId (Proposal.projectId proposal))
        (MemStorage.proposals s)).
  { transitivity
      (JsMap.mapv
         (fun k v =>
            if (Proposal.projectId v =? Project.id project)
               && to_reject proposalId v
            then Proposal.with_status ProposalStatus.rejected v else v)
         (MemStorage.proposals s2)).
    - apply JsMapFacts.mapv_ext_in. intros k v I.
      now erewrite to_reject_ids by eassumption.
    - rewrite E2, E1. simpl. unfold JsMap.adjust.
      rewrite JsMapFacts.mapv_mapv. apply JsMapFacts.mapv_ext_in.
      intros k v I. unfold after_accept, to_reject. rewrite EJ.
      pose proof (wf_id (wf_proposals W) _ _ I) as Ek.
      destruct (k =? proposalId) eqn:K.
      + apply Z.eqb_eq in K. simpl. rewrite Ek, K, Z.eqb_refl. simpl.
        now rewrite andb_false_r.
      + rewrite Ek, K. simpl.
        destruct (Proposal.projectId v =? Proposal.projectId proposal);
          reflexivity. }
  rewrite EM. rewrite E2, E1. unfold accept_storage. rewrite EJ. reflexivity.
Qed.

(** ** The effect of a request on the store *)

Lemma route_pass session role (h : World -> Response * World) w :
  isAuthenticated session = None -> checkRole role session = None ->
  route [isAuthenticated session; checkRole role session] h w = h w.
Proof.
  intros A R. unfold route. rewrite A, R. reflexivity.
Qed.

Lemma route_cases session role (h : World -> Response * World) w :
  (isAuthenticated session = None /\ checkRole role session = None /\
   route [isAuthenticated session; checkRole role session] h w = h w)
  \/ (exists r,
        route [isAuthenticated session; checkRole role session] h w = (r, w)
        /\ (code r = 401 \/ code r = 403)).
Proof.
  unfold route, isAuthenticated, checkRole.
  destruct (truthy_id (userId session)); simpl.
  - destruct (userRole session) as [r|]; simpl.
    + destruct (Role.eqb r role); simpl; eauto.
    + eauto.
  - eauto.
Qed.

Lemma getCurrentUser_getUser session s user :
  getCurrentUser session s = Some user ->
  exists id, userId session = Some id /\ id <> 0
             /\ MemStorage.getUser id s = Some user.
Proof.
  unfold getCurrentUser, truthy_id.
  destruct (userId session) as [id|]; [|discriminate].
  destruct (id =? 0) eqn:E; simpl; [discriminate|].
  apply Z.eqb_neq in E. eauto.
Qed.

Lemma parse_proposal form projectId sellerId d :
  insertProposalSchema_parse form projectId sellerId = Some d ->
  InsertProposal.projectId d = projectId /\ InsertProposal.sellerId d = sellerId
  /\ f_price form = Some (InsertProposal.price d).
Proof.
  unfold insertProposalSchema_parse.
  destruct (f_serviceDetails form), (f_price form), (f_deliveryTime form);
    try discriminate.
  intros [= <-]. auto.
Qed.

Lemma status_eqb_eq a b : ProposalStatus.eqb a b = true <-> a = b.
Proof. destruct a, b; simpl; split; congruence. Qed.

Lemma project_status_eqb_eq a b : ProjectStatus.eqb a b = true <-> a = b.
Proof. destruct a, b; simpl; split; congruence. Qed.

Lemma js_find_In {A : Type} (f : A -> bool) l x :
  js_find f l = Some x -> In x l /\ f x = true.
Proof.
  induction l as [|y r IH]; simpl; [discriminate|].
  destruct (f y) eqn:E.
  - intros [= ->]. auto.
  - intros H. destruct (IH H). auto.
Qed.

Ltac through_route session role :=
  match goal with
  | |- context [route [isAuthenticated session; checkRole role session] ?h ?w]
    =>
      destruct (route_cases session role h w)
        as [(_ & _ & ->)|(? & -> & _)]; [|apply E_none]
  end.

Lemma serve_effect r w :
  wf (storage w) -> effect (storage w) r (storage (snd (serve r w))).
Proof.
  intros W. destruct r as
    [now insertUser | now session form | session projectId status
    | transport now session projectId form | session proposalId status
    | gateway now session proposalId | transport session paymentIntentId];
    simpl.
  - apply E_register.
  - unfold POST_projects. through_route session Role.buyer.
    destruct (getCurrentUser session (storage w)) as [user|] eqn:U;
      [|apply E_none].
    destruct (insertProjectSchema_parse form (User.id user)) as [d|] eqn:P;
      [|apply E_none].
    simpl. eapply E_project; eassumption.
  - unfold PATCH_projects_status. through_route session Role.buyer.
    destruct status as [status|]; [|apply E_none].
    destruct (MemStorage.getProject projectId (storage w)) as [project|] eqn:G;
      [|apply E_none].
    destruct (getCurrentUser session (storage w)) as [user|];
      [|apply E_none].
    destruct (User.id user =? Project.buyerId project); simpl;
      [|apply E_none].
    destruct (MemStorage.updateProjectStatus projectId status (storage w))
      as [u s1] eqn:E. simpl.
    replace s1 with
      (snd (MemStorage.updateProjectStatus projectId status (storage w)))
      by now rewrite E.
    rewrite updateProjectStatus_adjust by exact (wf_nodup (wf_projects W)).
    eapply E_project_status; eassumption.
  - unfold POST_projects_proposals. through_route session Role.seller.
    destruct (MemStorage.getProject projectId (storage w)) as [project|] eqn:G;
      [|apply E_none].
    destruct (ProjectStatus.eqb (Project.status project) ProjectStatus.open)
      eqn:O; simpl; [|apply E_none].
    apply project_status_eqb_eq in O.
    destruct (getCurrentUser session (storage w)) as [user|] eqn:U;
      [|apply E_none].
    destruct (insertProposalSchema_parse form projectId (User.id user))
      as [d|] eqn:P; [|apply E_none].
    destruct (existsb _ _) eqn:X; [apply E_none|].
    simpl.
    assert (S1 : storage
              match MemStorage.getUser (Project.buyerId project)
                      (snd (MemStorage.createProposal now d (storage w)))
              with
              | Some buyer =>
                  snd (sendProposalReceivedEmail transport (User.email buyer)
                         (Project.title project) (User.name user)
                         (with_storage
                            (snd (MemStorage.createProposal now d (storage w)))
                            w))
              | None =>
                  with_storage
                    (snd (MemStorage.createProposal now d (storage w))) w
              end = snd (MemStorage.createProposal now d (storage w))).
    { destruct (MemStorage.getUser _ _); reflexivity. }
    simpl in S1 |- *. rewrite S1. eapply E_proposal; eassumption.
  - unfold PATCH_proposals_status. through_route session Role.buyer.
    destruct status as [status|]; [|apply E_none].
    destruct (MemStorage.getProposal proposalId (storage w))
      as [proposal|] eqn:GP; [|apply E_none].
    destruct (MemStorage.getProject (Proposal.projectId proposal) (storage w))
      as [project|] eqn:GJ; [|apply E_none].
    destruct (getCurrentUser session (storage w)) as [user|];
      [|apply E_none].
    destruct (User.id user =? Project.buyerId project); simpl;
      [|apply E_none].
    destruct (MemStorage.updateProposalStatus proposalId status (storage w))
      as [u s1] eqn:E.
    assert (E1 : s1 = snd (MemStorage.updateProposalStatus proposalId status
                             (storage w))) by now rewrite E.
    destruct (ProposalStatus.eqb status ProposalStatus.accepted) eqn:A; simpl.
    + apply status_eqb_eq in A. subst status. rewrite E1.
      pose proof (accept_cascade _ W GP GJ) as AC. cbv zeta in AC.
      rewrite AC. eapply E_accept; eassumption.
    + rewrite E1.
      rewrite updateProposalStatus_adjust by exact (wf_nodup (wf_proposals W)).
      eapply E_status; [eassumption|].
      intros ->. discriminate.
  - unfold POST_create_payment_intent. through_route session Role.buyer.
    destruct proposalId as [proposalId|]; [|apply E_none].
    destruct (truthy_id (Some proposalId)); simpl; [|apply E_none].
    destruct (MemStorage.getProposal proposalId (storage w))
      as [proposal|] eqn:GP; [|apply E_none].
    destruct (MemStorage.getProject (Proposal.projectId proposal) (storage w))
      as [project|] eqn:GJ; [|apply E_none].
    destruct (getCurrentUser session (storage w)) as [user|] eqn:U;
      [|apply E_none].
    destruct (User.id user =? Project.buyerId project); simpl;
      [|apply E_none].
    destruct (gateway _) as [intent|]; [|apply E_none].
    simpl. eapply E_payment; eassumption.
  - unfold POST_payments_confirm. through_route session Role.buyer.
    destruct paymentIntentId as [intentId|]; [|apply E_none].
    destruct (truthy_string (Some intentId)); simpl; [|apply E_none].
    destruct (js_find _ _) as [payment|] eqn:F; [|apply E_none].
    apply js_find_In in F. destruct F as [F _].
    apply js_sort_In in F. apply filter_In in F. destruct F as [F _].
    destruct (MemStorage.updatePaymentStatus (Payment.id payment)
                PaymentStatus.completed None (storage w)) as [u s1] eqn:E.
    assert (E1 : s1 = snd (MemStorage.updatePaymentStatus (Payment.id payment)
                             PaymentStatus.completed None (storage w)))
      by now rewrite E.
    assert (S1 : forall a b c, storage
              match a, b, c with
              | Some buyer, Some seller, Some project =>
                  snd (sendPaymentProcessedEmail transport (User.email seller)
                         (Project.title project)
                         (Payment.amount payment
                          - Payment.commission payment)%float
                         (snd (sendPaymentProcessedEmail transport
                                 (User.email buyer) (Project.title project)
                                 (Payment.amount payment)
                                 (with_storage s1 w))))
              | _, _, _ => with_storage s1 w
              end = s1).
    { intros [a|] [b|] [c|]; reflexivity. }
    simpl. rewrite S1, E1.
    rewrite updatePaymentStatus_adjust by exact (wf_nodup (wf_payments W)).
    eapply E_confirm; eassumption.
Qed.

(** ** Every reachable store is well formed *)

Lemma keys_set_incl {V : Type} k k' (v : V) m :
  In k (JsMap.keys m) -> In k (JsMap.keys (JsMap.set k' v m)).
Proof.
  induction m as [|[k0 v0] r IH]; simpl; [tauto|].
  destruct (k0 =? k') eqn:E; simpl.
  - apply Z.eqb_eq in E. subst. tauto.
  - tauto.
Qed.

Lemma values_set_fresh {V : Type} k (v : V) m :
  ~ In k (JsMap.keys m) -> JsMap.values (JsMap.set k v m) = JsMap.values m ++ [v].
Proof.
  intros F. rewrite JsMapFacts.set_fresh by exact F.
  unfold JsMap.values. now rewrite map_app.
Qed.

Lemma after_accept_fields proposalId projectId k v :
  Proposal.id (after_accept proposalId projectId k v) = Proposal.id v
  /\ Proposal.projectId (after_accept proposalId projectId k v)
     = Proposal.projectId v
  /\ Proposal.sellerId (after_accept proposalId projectId k v)
     = Proposal.sellerId v.
Proof.
  unfold after_accept. destruct (k =? proposalId); [simpl; auto|].
  destruct (_ && _); simpl; auto.
Qed.

Lemma effect_wf s r s' : effect s r s' -> wf s -> wf s'.
Proof.
  intros E W. destruct W as [WU WJ WP WY WR].
  destruct E as
    [ r | now insertUser | now session form user d eU eP
    | session projectId status project eGJ
    | transport now session projectId form project user d eGJ eO eU eP eNew
    | session proposalId proposal project eGP eGJ
    | session proposalId status proposal eGP eNA
    | gateway now session proposalId proposal project user intent eGP eGJ eU
    | transport session intentId payment eIP ];
    simpl.
  - now split.
  - split; simpl; try assumption.
    + now apply wf_map_create.
    + intros p I. destruct (WR p I). split; [assumption|].
      now apply keys_set_incl.
  - split; simpl; try assumption.
    + now apply wf_map_create.
    + intros p I. destruct (WR p I). split; [|assumption].
      now apply keys_set_incl.
  - split; simpl; try assumption.
    + apply wf_map_mapv; [assumption|].
      intros k v. now destruct (k =? projectId).
    + intros p I. unfold JsMap.adjust. rewrite JsMapFacts.keys_mapv.
      now apply WR.
  - destruct (parse_proposal _ _ _ eP) as (EJ & ES & _).
    split; simpl; try assumption.
    + now apply wf_map_create.
    + intros p I.
      rewrite values_set_fresh in I by exact (wf_map_fresh WP).
      apply in_app_or in I. destruct I as [I|[<-|[]]]; [now apply WR|].
      simpl. rewrite EJ, ES. split.
      * eapply JsMapFacts.get_keys; eassumption.
      * apply getCurrentUser_getUser in eU.
        destruct eU as (id & _ & _ & GU).
        assert (User.id user = id)
          by (eapply wf_map_get_id; [exact WU|exact GU]).
        subst id. eapply JsMapFacts.get_keys; eassumption.
  - split; simpl; try assumption.
    + apply wf_map_mapv; [assumption|].
      intros k v. now destruct (k =? Proposal.projectId proposal).
    + apply wf_map_mapv; [assumption|].
      intros k v. apply after_accept_fields.
    + intros p I. apply JsMapFacts.values_mapv_In in I.
      destruct I as (k & v & I & ->).
      destruct (after_accept_fields proposalId (Proposal.projectId proposal)
                                    k v) as (_ & -> & ->).
      unfold JsMap.adjust. rewrite JsMapFacts.keys_mapv.
      apply WR. apply JsMapFacts.In_values. eauto.
  - split; simpl; try assumption.
    + apply wf_map_mapv; [assumption|].
      intros k v. now destruct (k =? proposalId).
    + intros p I. apply JsMapFacts.values_mapv_In in I.
      destruct I as (k & v & I & ->).
      assert (Iv : In v (JsMap.values (MemStorage.proposals s)))
        by (apply JsMapFacts.In_values; eauto).
      destruct (WR v Iv). now destruct (k =? proposalId).
  - split; simpl; try assumption.
    now apply wf_map_create.
  - split; simpl; try assumption.
    apply wf_map_mapv; [assumption|].
    intros k v. now destruct (k =? Payment.id payment).
Qed.

Lemma run_app rs rs' w : run (rs ++ rs') w = run rs' (run rs w).
Proof. unfold run. apply fold_left_app. Qed.

Lemma run_cons r rs w : run (r :: rs) w = run rs (snd (serve r w)).
Proof. reflexivity. Qed.

Lemma run_wf rs : forall w, wf (storage w) -> wf (storage (run rs w)).
Proof.
  induction rs as [|r rs IH]; intros w W; [exact W|].
  rewrite run_cons. apply IH. eapply effect_wf; [|exact W].
  now apply serve_effect.
Qed.

Lemma reachable_wf w : reachable w -> wf (storage w).
Proof.
  intros [rs ->]. apply run_wf. exact wf_constructor.
Qed.

(** ** Accepting a proposal *)

Lemma accept_outcome w session proposalId proposal project user :
  wf (storage w) ->
  isAuthenticated session = None -> checkRole Role.buyer session = None ->
  getCurrentUser session (storage w) = Some user ->
  MemStorage.getProposal proposalId (storage w) = Some proposal ->
  MemStorage.getProject (Proposal.projectId proposal) (storage w)
    = Some project ->
  User.id user = Project.buyerId project ->
  accept_proposal session proposalId w =
  (json 200 (ProposalJson
               (Some (Proposal.with_status ProposalStatus.accepted proposal))),
   with_storage
     (accept_storage proposalId (Proposal.projectId proposal) (storage w)) w).
Proof.
  intros W A R U GP GJ O.
  unfold accept_proposal, PATCH_proposals_status.
  rewrite route_pass by assumption.
  rewrite GP, GJ, U, O, Z.eqb_refl. simpl.
  pose proof (accept_cascade _ W GP GJ) as AC. cbv zeta in AC.
  unfold MemStorage.getProposal in GP.
  unfold MemStorage.updateProposalStatus at 1. rewrite GP. simpl.
  unfold MemStorage.updateProposalStatus in AC. rewrite GP in AC.
  simpl in AC. rewrite AC. reflexivity.
Qed.

Lemma accept_storage_proposal proposalId projectId s q :
  MemStorage.getProposal q (accept_storage proposalId projectId s) =
  option_map (after_accept proposalId projectId q)
             (MemStorage.getProposal q s).
Proof.
  unfold MemStorage.getProposal, accept_storage. simpl.
  apply JsMapFacts.get_mapv.
Qed.

Lemma accept_storage_project proposalId projectId s :
  MemStorage.getProject projectId (accept_storage proposalId projectId s) =
  option_map (Project.with_status ProjectStatus.in_progress)
             (MemStorage.getProject projectId s).
Proof.
  unfold MemStorage.getProject, accept_storage, JsMap.adjust. simpl.
  rewrite JsMapFacts.get_mapv. rewrite Z.eqb_refl. reflexivity.
Qed.

(** C2.  When the buyer of the project accepts a proposal of a reachable
    store, the answer is 200 and in the new store the proposal is accepted,
    its project is in progress, every other proposal of the project that was
    pending is rejected, and every other proposal is as it was.  When the
    project has no other proposal, nothing is rejected: the proposals are
    those that the update of the accepted proposal alone leaves. *)
Theorem accept_effect w session proposalId proposal project user :
  reachable w ->
  isAuthenticated session = None -> checkRole Role.buyer session = None ->
  getCurrentUser session (storage w) = Some user ->
  MemStorage.getProposal proposalId (storage w) = Some proposal ->
  MemStorage.getProject (Proposal.projectId proposal) (storage w)
    = Some project ->
  User.id user = Project.buyerId project ->
  let r := fst (accept_proposal session proposalId w) in
  let s' := storage (snd (accept_proposal session proposalId w)) in
  code r = 200
  /\ MemStorage.getProposal proposalId s'
     = Some (Proposal.with_status ProposalStatus.accepted proposal)
  /\ MemStorage.getProject (Proposal.projectId proposal) s'
     = Some (Project.with_status ProjectStatus.in_progress project)
  /\ (forall q other,
        q <> proposalId ->
        MemStorage.getProposal q (storage w) = Some other ->
        MemStorage.getProposal q s' =
        Some (if (Proposal.projectId other =? Proposal.projectId proposal)
                 && ProposalStatus.eqb (Proposal.status other)
                                       ProposalStatus.pending
              then Proposal.with_status ProposalStatus.rejected other
              else other))
  /\ ((forall other,
         In other (MemStorage.getProposalsByProject
                     (Proposal.projectId proposal) (storage w)) ->
         other = proposal) ->
      MemStorage.proposals s' =
      MemStorage.proposals
        (snd (MemStorage.updateProposalStatus proposalId
                ProposalStatus.accepted (storage w)))).
Proof.
  intros Rw A R U GP GJ O r s'. subst r s'.
  pose proof (reachable_wf Rw) as W.
  rewrite (@accept_outcome w session proposalId proposal project user
             W A R U GP GJ O). simpl.
  split; [reflexivity|]. split; [|split; [|split]].
  - rewrite accept_storage_proposal, GP. simpl.
    unfold after_accept. now rewrite Z.eqb_refl.
  - now rewrite accept_storage_project, GJ.
  - intros q other N G.
    rewrite accept_storage_proposal, G. simpl. unfold after_accept.
    apply Z.eqb_neq in N. now rewrite N.
  - intros Only.
    rewrite updateProposalStatus_adjust by exact (wf_nodup (wf_proposals W)).
    simpl. apply JsMapFacts.mapv_ext_in. intros k v I.
    unfold after_accept. destruct (k =? proposalId) eqn:K; [reflexivity|].
    destruct (Proposal.projectId v =? Proposal.projectId proposal) eqn:J;
      [|reflexivity].
    exfalso. assert (v = proposal).
    { apply Only. apply js_sort_In. apply filter_In. split; [|exact J].
      apply JsMapFacts.In_values. eauto. }
    subst v. apply Z.eqb_neq in K. apply K.
    transitivity (Proposal.id proposal).
    + symmetry. exact (wf_id (wf_proposals W) _ _ I).
    + eapply wf_map_get_id; [exact (wf_proposals W)|exact GP].
Qed.

Lemma accept_effect_witness :
  reachable (run two_offers initial)
  /\ let s' :=
       storage (snd (accept_proposal as_alice 1 (run two_offers initial))) in
     option_map Proposal.status (MemStorage.getProposal 1 s')
       = Some ProposalStatus.accepted
     /\ option_map Proposal.status (MemStorage.getProposal 2 s')
       = Some ProposalStatus.rejected
     /\ option_map Project.status (MemStorage.getProject 1 s')
       = Some ProjectStatus.in_progress.
Proof.
  split; [exists two_offers; reflexivity|].
  destruct (@accept_effect (run two_offers initial) as_alice 1
              bob_offer website_project alice_user)
    as (_ & P1 & J & Others & _);
    [ exists two_offers; reflexivity | reflexivity | reflexivity
    | reflexivity | reflexivity | reflexivity | reflexivity | ].
  cbv zeta. split; [|split].
  - rewrite P1. reflexivity.
  - rewrite (Others 2 carol_offer); [reflexivity|discriminate|reflexivity].
  - change 1 with (Proposal.projectId bob_offer) at 1.
    rewrite J. reflexivity.
Defined.




(** ** Payments *)

(** C9.  [updatePaymentStatus] on a payment of the store returns and stores a
    payment with the same commission, amount, project, buyer, seller, id and
    creation time; the status is the one given, and the intent id is the
    payment's own unless a non-empty one is given.  No other payment and no
    other part of the store changes. *)
Theorem updatePaymentStatus_frame id status stripePaymentIntentId s payment :
  JsMap.get id (MemStorage.payments s) = Some payment ->
  let r := fst (MemStorage.updatePaymentStatus id status
                  stripePaymentIntentId s) in
  let s' := snd (MemStorage.updatePaymentStatus id status
                   stripePaymentIntentId s) in
  exists updated,
    r = Some updated
    /\ JsMap.get id (MemStorage.payments s') = Some updated
    /\ Payment.commission updated = Payment.commission payment
    /\ Payment.amount updated = Payment.amount payment
    /\ Payment.projectId updated = Payment.projectId payment
    /\ Payment.buyerId updated = Payment.buyerId payment
    /\ Payment.sellerId updated = Payment.sellerId payment
    /\ Payment.id updated = Payment.id payment
    /\ Payment.createdAt updated = Payment.createdAt payment
    /\ Payment.status updated = status
    /\ Payment.stripePaymentIntentId updated
       = (if truthy_string stripePaymentIntentId then stripePaymentIntentId
          else Payment.stripePaymentIntentId payment)
    /\ (forall k, k <> id ->
          JsMap.get k (MemStorage.payments s')
          = JsMap.get k (MemStorage.payments s))
    /\ MemStorage.users s' = MemStorage.users s
    /\ MemStorage.projects s' = MemStorage.projects s
    /\ MemStorage.proposals s' = MemStorage.proposals s
    /\ MemStorage.paymentIdCounter s' = MemStorage.paymentIdCounter s.
Proof.
  intros G r s'. subst r s'. unfold MemStorage.updatePaymentStatus.
  rewrite G. simpl. eexists. split; [reflexivity|].
  split; [apply JsMapFacts.get_set_eq|].
  repeat (split; [reflexivity|]).
  split; [|repeat split; reflexivity].
  intros k N. apply JsMapFacts.get_set_neq. congruence.
Qed.

Lemma updatePaymentStatus_frame_witness :
  JsMap.get 1 (MemStorage.payments (storage (run paid initial)))
  = Some bob_payment
  /\ exists updated,
       fst (MemStorage.updatePaymentStatus 1 PaymentStatus.completed None
              (storage (run paid initial))) = Some updated
       /\ Payment.commission updated = 120%float
       /\ Payment.status updated = PaymentStatus.completed.
Proof.
  split; [reflexivity|].
  destruct (@updatePaymentStatus_frame 1 PaymentStatus.completed None
              (storage (run paid initial)) bob_payment eq_refl)
    as (updated & R & _ & C & _ & _ & _ & _ & _ & _ & S & _).
  exists updated. split; [exact R|]. split; [|exact S].
  rewrite C. reflexivity.
Defined.

Lemma effect_commission_ok s r s' :
  effect s r s' -> wf s -> commission_ok s -> commission_ok s'.
Proof.
  intros E W C.
  destruct E as
    [ r | now insertUser | now session form user d eU eP
    | session projectId status project eGJ
    | transport now session projectId form project user d eGJ eO eU eP eNew
    | session proposalId proposal project eGP eGJ
    | session proposalId status proposal eGP eNA
    | gateway now session proposalId proposal project user intent eGP eGJ eU
    | transport session intentId payment eIP ];
    try exact C.
  - intros p I. simpl in I.
    rewrite values_set_fresh in I by exact (wf_map_fresh (wf_payments W)).
    apply in_app_or in I. destruct I as [I|[<-|[]]]; [now apply C|].
    reflexivity.
  - intros p I. simpl in I. apply JsMapFacts.values_mapv_In in I.
    destruct I as (k & v & I & ->).
    assert (Cv : Payment.commission v = (Payment.amount v * 0.15)%float)
      by (apply C; apply JsMapFacts.In_values; eauto).
    destruct (k =? Payment.id payment); [simpl|]; exact Cv.
Qed.

Lemma run_commission_ok rs : forall w,
  wf (storage w) -> commission_ok (storage w) ->
  commission_ok (storage (run rs w)).
Proof.
  induction rs as [|r rs IH]; intros w W C; [exact C|].
  rewrite run_cons. pose proof (serve_effect r w W) as E. apply IH.
  - exact (effect_wf E W).
  - exact (effect_commission_ok E W C).
Qed.






(** ** Initiating a payment *)




(** ** Submitting a proposal *)

Lemma alreadySubmitted_iff s projectId sellerId :
  existsb (fun p => Proposal.sellerId p =? sellerId)
          (MemStorage.getProposalsByProject projectId s) = true
  <-> exists p, In p (JsMap.values (MemStorage.proposals s))
                /\ Proposal.projectId p = projectId
                /\ Proposal.sellerId p = sellerId.
Proof.
  unfold MemStorage.getProposalsByProject.
  rewrite js_sort_existsb, existsb_exists. split.
  - intros (p & I & E). apply filter_In in I. destruct I as [I J].
    apply Z.eqb_eq in E, J. eauto.
  - intros (p & I & J & E). exists p. split.
    + apply filter_In. split; [exact I|]. now apply Z.eqb_eq.
    + now apply Z.eqb_eq.
Qed.

Lemma alreadySubmitted_false s projectId sellerId :
  (forall p, In p (JsMap.values (MemStorage.proposals s)) ->
             Proposal.projectId p = projectId ->
             Proposal.sellerId p <> sellerId) ->
  existsb (fun p => Proposal.sellerId p =? sellerId)
          (MemStorage.getProposalsByProject projectId s) = false.
Proof.
  intros H. apply not_true_is_false. intros T.
  apply alreadySubmitted_iff in T. destruct T as (p & I & J & E).
  exact (H p I J E).
Qed.




(** ** No second submission *)

Lemma keys_get {V : Type} k (m : JsMap.t V) :
  In k (JsMap.keys m) -> exists v, JsMap.get k m = Some v.
Proof.
  intros I. destruct (JsMap.get k m) as [v|] eqn:G; [eauto|].
  apply JsMapFacts.get_None in G. contradiction.
Qed.





(** ** Notifications never undo a mutation *)

Lemma confirm_found w transport session reference uid payment :
  wf (storage w) ->
  isAuthenticated session = None -> checkRole Role.buyer session = None ->
  reference <> ""%string ->
  userId session = Some uid ->
  js_find (same_intent reference)
          (MemStorage.getPaymentsByBuyer uid (storage w)) = Some payment ->
  let s1 :=
    MemStorage.set_payments
      (JsMap.adjust (Payment.id payment)
         (complete PaymentStatus.completed None)
         (MemStorage.payments (storage w)))
      (MemStorage.paymentIdCounter (storage w)) (storage w) in
  let notices :=
    match MemStorage.getUser (Payment.buyerId payment) (storage w),
          MemStorage.getUser (Payment.sellerId payment) (storage w),
          MemStorage.getProject (Payment.projectId payment) (storage w) with
    | Some buyer, Some seller, Some project =>
        [ PaymentProcessedEmail (User.email buyer) (Project.title project)
            (Payment.amount payment);
          PaymentProcessedEmail (User.email seller) (Project.title project)
            (Payment.amount payment - Payment.commission payment)%float ]
    | _, _, _ => []
    end in
  confirm_payment transport session reference w =
  (json 200 (PaymentJson
               (Some (complete PaymentStatus.completed None payment))),
   mkWorld s1 (mailLog w
               ++ map (fun m => mkDelivery m (transport m)) notices)).
Proof.
  intros W A R N US F s1 notices. subst s1 notices.
  unfold confirm_payment, POST_payments_confirm.
  rewrite route_pass by assumption.
  assert (T : truthy_string (Some reference) = true).
  { simpl. destruct (String.eqb reference "") eqn:E; [|reflexivity].
    apply String.eqb_eq in E. contradiction. }
  rewrite T, US. simpl negb. cbv iota. rewrite F.
  assert (G : JsMap.get (Payment.id payment) (MemStorage.payments (storage w))
              = Some payment).
  { eapply wf_map_get; [exact (wf_payments W)|].
    apply js_find_In in F. destruct F as [F _].
    apply js_sort_In in F. apply filter_In in F. tauto. }
  unfold MemStorage.updatePaymentStatus. rewrite G.
  fold (complete PaymentStatus.completed None payment).
  rewrite (@JsMapFacts.set_present _ (Payment.id payment) payment
             (complete PaymentStatus.completed None) _
             (wf_nodup (wf_payments W)) G).
  unfold MemStorage.getUser, MemStorage.getProject. simpl.
  destruct (JsMap.get (Payment.buyerId payment) _) as [buyer|];
    [|simpl; now rewrite app_nil_r].
  destruct (JsMap.get (Payment.sellerId payment) _) as [seller|];
    [|simpl; now rewrite app_nil_r].
  destruct (JsMap.get (Payment.projectId payment) _) as [project|];
    [|simpl; now rewrite app_nil_r].
  simpl. rewrite <- app_assoc. reflexivity.
Qed.

Lemma submit_created w transport now session projectId form project user d :
  isAuthenticated session = None -> checkRole Role.seller session = None ->
  MemStorage.getProject projectId (storage w) = Some project ->
  Project.status project = ProjectStatus.open ->
  getCurrentUser session (storage w) = Some user ->
  insertProposalSchema_parse form projectId (User.id user) = Some d ->
  (forall p, In p (JsMap.values (MemStorage.proposals (storage w))) ->
             Proposal.projectId p = projectId ->
             Proposal.sellerId p <> User.id user) ->
  submit_proposal transport now session projectId form w =
  (json 201 (ProposalJson
               (Some (fst (MemStorage.createProposal now d (storage w))))),
   mkWorld (snd (MemStorage.createProposal now d (storage w)))
           (mailLog w ++
            match MemStorage.getUser (Project.buyerId project) (storage w) with
            | Some buyer =>
                let m := ProposalReceivedEmail (User.email buyer)
                           (Project.title project) (User.name user) in
                [mkDelivery m (transport m)]
            | None => []
            end)).
Proof.
  intros A R GJ O U P F.
  unfold submit_proposal, POST_projects_proposals.
  rewrite route_pass by assumption. rewrite GJ, O, U, P.
  rewrite alreadySubmitted_false by exact F.
  rewrite (surjective_pairing (MemStorage.createProposal now d (storage w))).
  cbv beta iota zeta.
  change (MemStorage.getUser (Project.buyerId project)
            (snd (MemStorage.createProposal now d (storage w))))
    with (MemStorage.getUser (Project.buyerId project) (storage w)).
  destruct (MemStorage.getUser (Project.buyerId project) (storage w))
    as [buyer|].
  - reflexivity.
  - unfold with_storage. now rewrite app_nil_r.
Qed.

(** C8.  Whatever the mail transport does, and so also when it fails on
    every mail: a submission that passes the checks answers 201, the created
    proposal is in the store with status pending, and the buyer is notified
    from the world that already holds it, the attempt being logged with the
    transport's outcome; a confirmation that finds its payment answers 200,
    the payment is in the store with status completed, and buyer and seller
    are notified from the world that already holds it. *)
Theorem mutation_survives_notification :
  (forall w transport now session projectId form project user d,
     isAuthenticated session = None -> checkRole Role.seller session = None ->
     MemStorage.getProject projectId (storage w) = Some project ->
     Project.status project = ProjectStatus.open ->
     getCurrentUser session (storage w) = Some user ->
     insertProposalSchema_parse form projectId (User.id user) = Some d ->
     (forall p, In p (JsMap.values (MemStorage.proposals (storage w))) ->
                Proposal.projectId p = projectId ->
                Proposal.sellerId p <> User.id user) ->
     let rw := submit_proposal transport now session projectId form w in
     let created := fst (MemStorage.createProposal now d (storage w)) in
     fst rw = json 201 (ProposalJson (Some created))
     /\ storage (snd rw) = snd (MemStorage.createProposal now d (storage w))
     /\ MemStorage.getProposal (Proposal.id created) (storage (snd rw))
        = Some created
     /\ Proposal.status created = ProposalStatus.pending
     /\ (forall buyer,
           MemStorage.getUser (Project.buyerId project) (storage w)
             = Some buyer ->
           let m := ProposalReceivedEmail (User.email buyer)
                      (Project.title project) (User.name user) in
           snd rw
           = snd (sendProposalReceivedEmail transport (User.email buyer)
                    (Project.title project) (User.name user)
                    (with_storage
                       (snd (MemStorage.createProposal now d (storage w))) w))
           /\ mailLog (snd rw) = mailLog w ++ [mkDelivery m (transport m)]))
  /\ (forall w transport session reference uid payment,
        reachable w ->
        isAuthenticated session = None -> checkRole Role.buyer session = None ->
        reference <> ""%string ->
        userId session = Some uid ->
        js_find (same_intent reference)
                (MemStorage.getPaymentsByBuyer uid (storage w))
          = Some payment ->
        let rw := confirm_payment transport session reference w in
        code (fst rw) = 200
        /\ storage (snd rw)
           = snd (MemStorage.updatePaymentStatus (Payment.id payment)
                    PaymentStatus.completed None (storage w))
        /\ exists completed,
             JsMap.get (Payment.id payment)
                       (MemStorage.payments (storage (snd rw)))
               = Some completed
             /\ Payment.status completed = PaymentStatus.completed
             /\ Payment.amount completed = Payment.amount payment
             /\ forall buyer seller project,
                  MemStorage.getUser (Payment.buyerId payment) (storage w)
                    = Some buyer ->
                  MemStorage.getUser (Payment.sellerId payment) (storage w)
                    = Some seller ->
                  MemStorage.getProject (Payment.projectId payment) (storage w)
                    = Some project ->
                  snd rw
                  = snd (sendPaymentProcessedEmail transport
                           (User.email seller) (Project.title project)
                           (Payment.amount payment
                            - Payment.commission payment)%float
                           (snd (sendPaymentProcessedEmail transport
                                   (User.email buyer) (Project.title project)
                                   (Payment.amount payment)
                                   (with_storage
                                      (snd (MemStorage.updatePaymentStatus
                                              (Payment.id payment)
                                              PaymentStatus.completed None
                                              (storage w))) w))))).
Proof.
  split.
  - intros w transport now session projectId form project user d
           A R GJ O U P F rw created. subst rw created.
    rewrite (@submit_created w transport now session projectId form project
               user d A R GJ O U P F).
    cbn [fst snd storage mailLog].
    split; [reflexivity|]. split; [reflexivity|]. split; [|split].
    + unfold MemStorage.getProposal. simpl. apply JsMapFacts.get_set_eq.
    + reflexivity.
    + intros buyer GB. rewrite GB. split; reflexivity.
  - intros w transport session reference uid payment Rw A R N US F rw.
    subst rw. pose proof (reachable_wf Rw) as W.
    rewrite (@confirm_found w transport session reference uid payment
               W A R N US F). simpl.
    split; [reflexivity|]. split.
    + rewrite updatePaymentStatus_adjust by exact (wf_nodup (wf_payments W)).
      reflexivity.
    + assert (G : JsMap.get (Payment.id payment)
                            (MemStorage.payments (storage w)) = Some payment).
      { eapply wf_map_get; [exact (wf_payments W)|].
        apply js_find_In in F. destruct F as [F _].
        apply js_sort_In in F. apply filter_In in F. tauto. }
      exists (complete PaymentStatus.completed None payment).
      split; [|split; [reflexivity|split; [reflexivity|]]].
      * unfold JsMap.adjust. rewrite JsMapFacts.get_mapv, G. simpl.
        now rewrite Z.eqb_refl.
      * intros buyer seller project GB GS GJ. rewrite GB, GS, GJ.
        rewrite updatePaymentStatus_adjust
          by exact (wf_nodup (wf_payments W)).
        unfold sendPaymentProcessedEmail, sendMail, with_storage. simpl.
        now rewrite <- app_assoc.
Qed.

Lemma mutation_survives_notification_witness :
  (let rw := submit_proposal bounces 31 as_carol 1 (offer 900 5)
               (run one_offer initial) in
   MemStorage.getProposal 2 (storage (snd rw)) = Some carol_offer
   /\ mailLog (snd rw)
      = mailLog (run one_offer initial)
        ++ [mkDelivery (ProposalReceivedEmail "alice@buyer.example" "Website"
                                              "Carol") false])
  /\ (let rw := confirm_payment bounces as_alice "pi_1" (run paid initial) in
      code (fst rw) = 200
      /\ option_map Payment.status
           (JsMap.get 1 (MemStorage.payments (storage (snd rw))))
         = Some PaymentStatus.completed).
Proof.
  split.
  - destruct (proj1 mutation_survives_notification
                (run one_offer initial) bounces 31 as_carol 1 (offer 900 5)
                website_project
                (User.mk 3 "Carol" "carol@seller.example" "hash-c"
                         Role.seller 12)
                (InsertProposal.mk "I can do it" 900 5 1 3)
                eq_refl eq_refl eq_refl eq_refl eq_refl eq_refl)
      as (_ & _ & G & _ & L).
    + intros p [<-|[]] _. discriminate.
    + cbv zeta. split; [exact G|]. exact (proj2 (L alice_user eq_refl)).
  - destruct (proj2 mutation_survives_notification
                (run paid initial) bounces as_alice "pi_1"%string 1
                bob_payment) as (C & _ & completed & G & S & _ & _);
      try reflexivity.
    + exists paid. reflexivity.
    + discriminate.
    + cbv zeta. split; [exact C|].
      change (Payment.id bob_payment) with 1 in G.
      rewrite G. simpl. now rewrite S.
Defined.

(** ** Confirming a payment again *)

Lemma filter_map_commute {A : Type} (f : A -> bool) (g : A -> A) l :
  (forall x, f (g x) = f x) -> filter f (map g l) = map g (filter f l).
Proof.
  intros H. induction l as [|x r IH]; simpl; [reflexivity|].
  rewrite H. destruct (f x); simpl; now rewrite IH.
Qed.

Lemma sort_insert_map {A : Type} (cmp : A -> A -> Z) (g : A -> A) x l :
  (forall a b, cmp (g a) (g b) = cmp a b) ->
  sort_insert cmp (g x) (map g l) = map g (sort_insert cmp x l).
Proof.
  intros H. induction l as [|y r IH]; simpl; [reflexivity|].
  rewrite H. destruct (cmp x y <=? 0); simpl; [reflexivity|].
  now rewrite IH.
Qed.

Lemma js_sort_map {A : Type} (cmp : A -> A -> Z) (g : A -> A) l :
  (forall a b, cmp (g a) (g b) = cmp a b) ->
  js_sort cmp (map g l) = map g (js_sort cmp l).
Proof.
  intros H. induction l as [|x r IH]; simpl; [reflexivity|].
  rewrite IH. now apply sort_insert_map.
Qed.

Lemma js_find_map {A : Type} (f : A -> bool) (g : A -> A) l :
  (forall x, f (g x) = f x) ->
  js_find f (map g l) = option_map g (js_find f l).
Proof.
  intros H. induction l as [|x r IH]; simpl; [reflexivity|].
  rewrite H. destruct (f x); [reflexivity|exact IH].
Qed.

Lemma values_adjust {V : Type} (id : V -> Z) counter k (g : V -> V) m :
  wf_map id counter m ->
  JsMap.values (JsMap.adjust k g m)
  = map (fun v => if id v =? k then g v else v) (JsMap.values m).
Proof.
  intros W. unfold JsMap.values, JsMap.adjust, JsMap.mapv.
  rewrite !map_map. apply map_ext_in. intros [k' v] I. simpl.
  now rewrite (wf_id W _ _ I).
Qed.

Lemma find_after_complete s reference uid payment :
  wf s ->
  js_find (same_intent reference) (MemStorage.getPaymentsByBuyer uid s)
    = Some payment ->
  js_find (same_intent reference)
    (MemStorage.getPaymentsByBuyer uid
       (MemStorage.set_payments
          (JsMap.adjust (Payment.id payment)
             (complete PaymentStatus.completed None) (MemStorage.payments s))
          (MemStorage.paymentIdCounter s) s))
  = Some (complete PaymentStatus.completed None payment).
Proof.
  intros W F. unfold MemStorage.getPaymentsByBuyer in *. simpl.
  rewrite (values_adjust _ _ (wf_payments W)).
  rewrite filter_map_commute, js_sort_map, js_find_map, F.
  - simpl. now rewrite Z.eqb_refl.
  - intros x. now destruct (Payment.id x =? Payment.id payment).
  - intros a b.
    now destruct (Payment.id a =? Payment.id payment),
                 (Payment.id b =? Payment.id payment).
  - intros x. now destruct (Payment.id x =? Payment.id payment).
Qed.

Lemma confirm_cases w transport session reference :
  (forall w', storage w' = storage w ->
              confirm_step transport session reference w' = w')
  \/ exists uid payment,
       isAuthenticated session = None /\ checkRole Role.buyer session = None
       /\ reference <> ""%string /\ userId session = Some uid
       /\ js_find (same_intent reference)
                  (MemStorage.getPaymentsByBuyer uid (storage w))
          = Some payment.
Proof.
  unfold confirm_step, confirm_payment, POST_payments_confirm.
  destruct (isAuthenticated session) as [ra|] eqn:A.
  { left. intros w' _. unfold route. simpl. reflexivity. }
  destruct (checkRole Role.buyer session) as [rr|] eqn:R.
  { left. intros w' _. unfold route. simpl. reflexivity. }
  unfold route. simpl js_find. cbv iota.
  destruct (truthy_string (Some reference)) eqn:T;
    [|left; intros w' _; reflexivity].
  simpl negb. cbv iota.
  assert (N : reference <> ""%string) by (intros ->; discriminate).
  destruct (userId session) as [uid|] eqn:US.
  2:{ unfold isAuthenticated in A. rewrite US in A. discriminate. }
  destruct (js_find (same_intent reference)
              (MemStorage.getPaymentsByBuyer uid (storage w)))
    as [payment|] eqn:F.
  - right. exists uid, payment. auto.
  - left. intros w' E. rewrite E, F. reflexivity.
Qed.

Lemma confirm_step_again w transport session reference :
  wf (storage w) ->
  exists d,
    mailLog (confirm_step transport session reference w) = mailLog w ++ d
    /\ forall w',
         storage w' = storage (confirm_step transport session reference w) ->
         storage (confirm_step transport session reference w') = storage w'
         /\ mailLog (confirm_step transport session reference w')
            = mailLog w' ++ d.
Proof.
  intros W.
  destruct (confirm_cases w transport session reference)
    as [Same|(uid & payment & A & R & N & US & F)].
  - exists []. rewrite (Same w eq_refl). split; [now rewrite app_nil_r|].
    intros w' E. rewrite (Same w' E). split; [reflexivity|].
    now rewrite app_nil_r.
  - unfold confirm_step.
    rewrite (@confirm_found w transport session reference uid payment
               W A R N US F).
    cbn [snd storage mailLog]. eexists. split; [reflexivity|].
    intros w' E.
    assert (In payment (JsMap.values (MemStorage.payments (storage w)))).
    { apply js_find_In in F. destruct F as [F _].
      apply js_sort_In in F. apply filter_In in F. tauto. }
    assert (W' : wf (storage w')).
    { rewrite E. eapply effect_wf; [|exact W].
      eapply (E_confirm _ transport session reference). eassumption. }
    pose proof (find_after_complete reference uid W F) as F'.
    rewrite <- E in F'.
    rewrite (@confirm_found w' transport session reference uid _
               W' A R N US F').
    cbn [snd storage mailLog]. rewrite E. simpl.
    unfold JsMap.adjust. rewrite JsMapFacts.mapv_mapv. split.
    + unfold MemStorage.set_payments. simpl. f_equal.
      apply JsMapFacts.mapv_ext_in. intros k v _.
      now destruct (k =? Payment.id payment).
    + reflexivity.
Qed.

Lemma concat_repeat_snoc {A : Type} (d : list A) n :
  List.concat (repeat d n) ++ d = d ++ List.concat (repeat d n).
Proof.
  induction n as [|n IH]; simpl.
  - now rewrite app_nil_r.
  - now rewrite <- app_assoc, IH.
Qed.

Lemma skipn_length_app {A : Type} (l d : list A) :
  skipn (List.length l) (l ++ d) = d.
Proof. induction l; simpl; auto. Qed.

(** C4, as the code has it.  Confirming the same reference again leaves the
    store as the first confirmation left it, for any number of calls; the
    handler does not look at the payment's status, so every call sends the
    notifications of the first call again: after n + 1 calls the log holds
    them n + 1 times, and they are the mail to the buyer and the mail to the
    seller whenever the payment is found and buyer, seller and project
    exist. *)
Theorem confirm_payment_repeated w transport session reference n :
  reachable w ->
  let confirm := confirm_step transport session reference in
  let notices := skipn (List.length (mailLog w)) (mailLog (confirm w)) in
  storage (Nat.iter (S n) confirm w) = storage (confirm w)
  /\ mailLog (Nat.iter (S n) confirm w)
     = mailLog w ++ List.concat (repeat notices (S n))
  /\ (forall uid payment buyer seller project,
        isAuthenticated session = None ->
        checkRole Role.buyer session = None ->
        reference <> ""%string -> userId session = Some uid ->
        js_find (same_intent reference)
                (MemStorage.getPaymentsByBuyer uid (storage w))
          = Some payment ->
        MemStorage.getUser (Payment.buyerId payment) (storage w)
          = Some buyer ->
        MemStorage.getUser (Payment.sellerId payment) (storage w)
          = Some seller ->
        MemStorage.getProject (Payment.projectId payment) (storage w)
          = Some project ->
        notices
        = map (fun m => mkDelivery m (transport m))
            [ PaymentProcessedEmail (User.email buyer) (Project.title project)
                (Payment.amount payment);
              PaymentProcessedEmail (User.email seller)
                (Project.title project)
                (Payment.amount payment - Payment.commission payment)%float ]).
Proof.
  intros Rw confirm notices. pose proof (reachable_wf Rw) as W.
  destruct (confirm_step_again w transport session reference W)
    as (d & L & Again).
  fold confirm in L, Again.
  assert (Ed : notices = d).
  { unfold notices. rewrite L. apply skipn_length_app. }
  assert (Iter : forall k,
             storage (Nat.iter (S k) confirm w) = storage (confirm w)
             /\ mailLog (Nat.iter (S k) confirm w)
                = mailLog w ++ List.concat (repeat d (S k))).
  { induction k as [|k [IS IL]].
    - simpl. rewrite app_nil_r. auto.
    - change (Nat.iter (S (S k)) confirm w)
        with (confirm (Nat.iter (S k) confirm w)).
      destruct (Again _ IS) as [S' L']. split; [congruence|].
      rewrite L', IL, <- app_assoc, concat_repeat_snoc. reflexivity. }
  destruct (Iter n) as [IS IL]. rewrite Ed.
  split; [exact IS|]. split; [exact IL|].
  intros uid payment buyer seller project A R N US F GB GS GJ.
  rewrite <- Ed. unfold notices, confirm, confirm_step.
  rewrite (@confirm_found w transport session reference uid payment
             W A R N US F).
  cbn [snd mailLog]. rewrite GB, GS, GJ. apply skipn_length_app.
Qed.

Lemma confirm_payment_repeated_witness :
  let confirm := confirm_step delivers as_alice "pi_1" in
  let w := run paid initial in
  storage (confirm (confirm w)) = storage (confirm w)
  /\ List.length (mailLog (confirm (confirm w)))
     = (List.length (mailLog w) + 4)%nat.
Proof.
  cbv zeta.
  destruct (@confirm_payment_repeated (run paid initial) delivers as_alice
              "pi_1" 1) as (S & L & _).
  - exists paid. reflexivity.
  - split; [exact S|].
    exact (eq_trans (f_equal (@List.length Delivery) L) eq_refl).
Defined.

(** The claim C4 fails on the code: the first confirmation of Alice's
    payment completes it and notifies Alice and Bob; the second one, on the
    payment that is then completed, notifies both again. *)
Lemma confirm_twice_notifies_twice :
  (let confirm := confirm_step delivers as_alice "pi_1" in
   let w := run paid initial in
   let notices :=
     [ mkDelivery (PaymentProcessedEmail "alice@buyer.example" "Website" 800)
                  true;
       mkDelivery (PaymentProcessedEmail "bob@seller.example" "Website" 680)
                  true ] in
   option_map Payment.status
     (JsMap.get 1 (MemStorage.payments (storage (confirm w))))
   = Some PaymentStatus.completed
   /\ mailLog (confirm w) = mailLog w ++ notices
   /\ mailLog (confirm (confirm w)) = mailLog w ++ notices ++ notices)
  /\ ~ (forall w transport session reference,
          reachable w ->
          let once := confirm_step transport session reference w in
          confirm_step transport session reference once = once).
Proof.
  split.
  - vm_compute. repeat split; reflexivity.
  - intros H.
    assert (R : reachable (run paid initial)) by (exists paid; reflexivity).
    pose proof (H _ delivers as_alice "pi_1"%string R) as E.
    cbv zeta in E. apply (f_equal (fun x => List.length (mailLog x))) in E.
    vm_compute in E. discriminate.
Qed.

(** ** The invariants of the lifecycle *)

Lemma after_accept_cases proposalId projectId k v :
  (k = proposalId
   /\ after_accept proposalId projectId k v
      = Proposal.with_status ProposalStatus.accepted v)
  \/ (k <> proposalId /\ Proposal.projectId v = projectId
      /\ Proposal.status v = ProposalStatus.pending
      /\ after_accept proposalId projectId k v
         = Proposal.with_status ProposalStatus.rejected v)
  \/ (k <> proposalId
      /\ (Proposal.projectId v <> projectId
          \/ Proposal.status v <> ProposalStatus.pending)
      /\ after_accept proposalId projectId k v = v).
Proof.
  unfold after_accept. destruct (k =? proposalId) eqn:K.
  - apply Z.eqb_eq in K. auto.
  - apply Z.eqb_neq in K. right.
    destruct (Proposal.projectId v =? projectId) eqn:J; simpl.
    + apply Z.eqb_eq in J.
      destruct (ProposalStatus.eqb (Proposal.status v) ProposalStatus.pending)
        eqn:P.
      * apply status_eqb_eq in P. auto.
      * right. repeat split; auto. right. intros E.
        apply status_eqb_eq in E. congruence.
    + apply Z.eqb_neq in J. auto.
Qed.

Lemma accept_storage_project_at proposalId projectId s j :
  MemStorage.getProject j (accept_storage proposalId projectId s) =
  option_map (fun v => if j =? projectId
                       then Project.with_status ProjectStatus.in_progress v
                       else v)
             (MemStorage.getProject j s).
Proof.
  unfold MemStorage.getProject, accept_storage, JsMap.adjust. simpl.
  apply JsMapFacts.get_mapv.
Qed.

Lemma effect_accepted_is_busy s r s' :
  effect s r s' -> core r = true -> wf s ->
  accepted_is_busy s -> accepted_is_busy s'.
Proof.
  intros E C W B.
  destruct E as
    [ r | now insertUser | now session form user d eU eP
    | session projectId status project eGJ
    | transport now session projectId form project user d eGJ eO eU eP eNew
    | session proposalId proposal project eGP eGJ
    | session proposalId status proposal eGP eNA
    | gateway now session proposalId proposal project user intent eGP eGJ eU
    | transport session intentId payment eIP ];
    try exact B; try discriminate C.
  - (* a project is created *)
    intros p I A. destruct (B p I A) as (project & G & O).
    exists project. split; [|exact O]. simpl.
    unfold MemStorage.getProject in *. simpl.
    rewrite JsMapFacts.get_set_neq; [exact G|].
    apply JsMapFacts.get_keys in G.
    pose proof (wf_range (wf_projects W) _ G). lia.
  - (* a proposal is created *)
    intros p I A. simpl in I.
    rewrite values_set_fresh in I by exact (wf_map_fresh (wf_proposals W)).
    apply in_app_or in I. destruct I as [I|[<-|[]]]; [|discriminate A].
    exact (B p I A).
  - (* accept *)
    intros p' I A. simpl in I. apply JsMapFacts.values_mapv_In in I.
    destruct I as (k & v & I & ->).
    assert (Iv : In v (JsMap.values (MemStorage.proposals s)))
      by (apply JsMapFacts.In_values; eauto).
    rewrite accept_storage_project_at.
    destruct (after_accept_fields proposalId (Proposal.projectId proposal)
                                  k v) as (_ & -> & _).
    destruct (after_accept_cases proposalId (Proposal.projectId proposal) k v)
      as [(K & E)|[(K & J & P & E)|(K & N & E)]]; rewrite E in A.
    + subst k. unfold MemStorage.getProposal in eGP.
      assert (v = proposal).
      { apply JsMapFacts.In_get in I; [congruence|].
        exact (wf_nodup (wf_proposals W)). }
      subst v. rewrite eGJ, Z.eqb_refl. simpl. eexists. split; [reflexivity|].
      discriminate.
    + discriminate A.
    + destruct (B v Iv A) as (project' & G & O). rewrite G. simpl.
      eexists. split; [reflexivity|].
      destruct (Proposal.projectId v =? Proposal.projectId proposal);
        [discriminate|exact O].
  - (* another status *)
    intros p' I A. simpl in I. apply JsMapFacts.values_mapv_In in I.
    destruct I as (k & v & I & ->).
    assert (Iv : In v (JsMap.values (MemStorage.proposals s)))
      by (apply JsMapFacts.In_values; eauto).
    destruct (k =? proposalId).
    + simpl in A. congruence.
    + exact (B v Iv A).
Qed.

Lemma targets_pending_status session proposalId status s proposal :
  targets_pending (PatchProposalStatus session proposalId status) s = true ->
  MemStorage.getProposal proposalId s = Some proposal ->
  Proposal.status proposal = ProposalStatus.pending.
Proof.
  simpl. intros T G. rewrite G in T. now apply status_eqb_eq.
Qed.

Lemma effect_exclusive s r s' :
  effect s r s' -> core r = true -> targets_pending r s = true -> wf s ->
  accepted_is_busy s -> exclusive s -> exclusive s'.
Proof.
  intros E C T W B X.
  destruct E as
    [ r | now insertUser | now session form user d eU eP
    | session projectId status project eGJ
    | transport now session projectId form project user d eGJ eO eU eP eNew
    | session proposalId proposal project eGP eGJ
    | session proposalId status proposal eGP eNA
    | gateway now session proposalId proposal project user intent eGP eGJ eU
    | transport session intentId payment eIP ];
    try exact X; try discriminate C.
  - (* a proposal is created *)
    destruct (parse_proposal _ _ _ eP) as (EJ & _ & _).
    intros p q Ip Iq J A N. simpl in Ip, Iq.
    rewrite values_set_fresh in Ip, Iq
      by exact (wf_map_fresh (wf_proposals W)).
    apply in_app_or in Ip. apply in_app_or in Iq.
    destruct Ip as [Ip|[<-|[]]]; [|discriminate A].
    destruct Iq as [Iq|[<-|[]]]; [exact (X p q Ip Iq J A N)|].
    exfalso. destruct (B p Ip A) as (project' & G & O).
    simpl in J. rewrite J, EJ in G. congruence.
  - (* accept *)
    pose proof (targets_pending_status _ _ _ _ T eGP) as Pending.
    assert (Ipr : In proposal (JsMap.values (MemStorage.proposals s))).
    { apply JsMapFacts.In_values. exists proposalId.
      now apply JsMapFacts.get_In. }
    assert (NoAcc : forall v,
               In v (JsMap.values (MemStorage.proposals s)) ->
               Proposal.projectId v = Proposal.projectId proposal ->
               Proposal.status v <> ProposalStatus.accepted).
    { intros v Iv J A.
      assert (N : proposal <> v) by congruence.
      destruct (X v proposal Iv Ipr J A N) as [_ NP]. contradiction. }
    assert (At : forall v, In (proposalId, v) (MemStorage.proposals s) ->
                           v = proposal).
    { intros v I. unfold MemStorage.getProposal in eGP.
      apply JsMapFacts.In_get in I; [congruence|].
      exact (wf_nodup (wf_proposals W)). }
    intros p' q' Ip Iq J A N. simpl in Ip, Iq.
    apply JsMapFacts.values_mapv_In in Ip, Iq.
    destruct Ip as (k & v & Ip & ->). destruct Iq as (k2 & v2 & Iq & ->).
    assert (Iv : In v (JsMap.values (MemStorage.proposals s)))
      by (apply JsMapFacts.In_values; eauto).
    assert (Iv2 : In v2 (JsMap.values (MemStorage.proposals s)))
      by (apply JsMapFacts.In_values; eauto).
    destruct (after_accept_fields proposalId (Proposal.projectId proposal)
                                  k v) as (_ & Jv & _).
    destruct (after_accept_fields proposalId (Proposal.projectId proposal)
                                  k2 v2) as (_ & Jv2 & _).
    rewrite Jv, Jv2 in J. clear Jv Jv2.
    destruct (after_accept_cases proposalId (Proposal.projectId proposal) k v)
      as [(K & E)|[(K & _ & _ & E)|(K & _ & E)]];
      destruct (after_accept_cases proposalId (Proposal.projectId proposal)
                                   k2 v2)
        as [(K2 & E2)|[(K2 & J2 & _ & E2)|(K2 & N2 & E2)]];
      rewrite E in A, N; rewrite E2 in N |- *; clear E E2;
      try discriminate A; try (split; discriminate).
    + (* both are the accepted proposal *)
      exfalso. apply N. subst k k2.
      rewrite (At v Ip), (At v2 Iq). reflexivity.
    + (* next to the accepted proposal, a proposal left as it was *)
      subst k. rewrite (At v Ip) in J.
      destruct N2 as [NJ|NP]; [congruence|].
      split; [|exact NP]. apply NoAcc; congruence.
    + (* the accepted proposal next to one accepted before *)
      exfalso. subst k2. rewrite (At v2 Iq) in J. exact (NoAcc v Iv J A).
    + (* two proposals left as they were *)
      exact (X v v2 Iv Iv2 J A N).
  - (* another status *)
    pose proof (targets_pending_status _ _ _ _ T eGP) as Pending.
    assert (Ipr : In proposal (JsMap.values (MemStorage.proposals s))).
    { apply JsMapFacts.In_values. exists proposalId.
      now apply JsMapFacts.get_In. }
    assert (At : forall v, In (proposalId, v) (MemStorage.proposals s) ->
                           v = proposal).
    { intros v I. unfold MemStorage.getProposal in eGP.
      apply JsMapFacts.In_get in I; [congruence|].
      exact (wf_nodup (wf_proposals W)). }
    intros p' q' Ip Iq J A N. simpl in Ip, Iq.
    apply JsMapFacts.values_mapv_In in Ip, Iq.
    destruct Ip as (k & v & Ip & ->). destruct Iq as (k2 & v2 & Iq & ->).
    assert (Iv : In v (JsMap.values (MemStorage.proposals s)))
      by (apply JsMapFacts.In_values; eauto).
    assert (Iv2 : In v2 (JsMap.values (MemStorage.proposals s)))
      by (apply JsMapFacts.In_values; eauto).
    destruct (k =? proposalId) eqn:K; [simpl in A; congruence|].
    destruct (k2 =? proposalId) eqn:K2.
    + exfalso. apply Z.eqb_eq in K2. subst k2. rewrite (At v2 Iq) in *.
      simpl in J.
      assert (N' : proposal <> v) by congruence.
      destruct (X v proposal Iv Ipr J A N') as [_ NP]. contradiction.
    + exact (X v v2 Iv Iv2 J A N).
Qed.

Lemma filter_nil {A : Type} (f : A -> bool) l :
  (forall x, In x l -> f x = false) -> filter f l = [].
Proof.
  induction l as [|x r IH]; simpl; intros H; [reflexivity|].
  rewrite (H x) by auto. apply IH. auto.
Qed.

Lemma accepted_proposals_In projectId s p :
  In p (accepted_proposals projectId s) <->
  In p (JsMap.values (MemStorage.proposals s))
  /\ Proposal.projectId p = projectId
  /\ Proposal.status p = ProposalStatus.accepted.
Proof.
  unfold accepted_proposals, MemStorage.getProposalsByProject.
  rewrite filter_In, js_sort_In, filter_In, status_eqb_eq, Z.eqb_eq. tauto.
Qed.

Lemma busy_no_accepted_while_open s :
  accepted_is_busy s -> no_accepted_while_open s.
Proof.
  intros B projectId project G O.
  destruct (accepted_proposals projectId s) as [|p l] eqn:E; [reflexivity|].
  assert (I : In p (accepted_proposals projectId s))
    by (rewrite E; now left).
  apply accepted_proposals_In in I. destruct I as (I & J & A).
  destruct (B p I A) as (project' & G' & O'). congruence.
Qed.

Lemma nodup_all_equal {A : Type} (l : list A) :
  NoDup l -> (forall a b, In a l -> In b l -> a = b) ->
  (List.length l <= 1)%nat.
Proof.
  destruct l as [|x [|y r]]; simpl; intros ND H; try lia.
  exfalso. inversion ND as [|? ? N _]; subst. apply N.
  rewrite (H x y); simpl; auto.
Qed.

Lemma exclusive_at_most_one s : wf s -> exclusive s -> at_most_one_accepted s.
Proof.
  intros W X projectId. apply nodup_all_equal.
  - unfold accepted_proposals, MemStorage.getProposalsByProject.
    apply NoDup_filter.
    eapply Permutation_NoDup; [symmetry; apply js_sort_perm|].
    apply NoDup_filter.
    exact (wf_map_values_nodup (wf_proposals W)).
  - intros a b Ia Ib. apply accepted_proposals_In in Ia, Ib.
    destruct Ia as (Ia & Ja & Aa), Ib as (Ib & Jb & Ab).
    destruct (Proposal.status b) eqn:Sb; try discriminate Ab.
    assert (D : {b = a} + {b <> a}).
    { destruct (Z.eq_dec (Proposal.id b) (Proposal.id a)) as [E|N].
      - left. eapply wf_map_values_inj;
          [exact (wf_proposals W)|exact Ib|exact Ia|exact E].
      - right. congruence. }
    destruct D as [->|N]; [reflexivity|].
    destruct (X a b Ia Ib (eq_trans Ja (eq_sym Jb)) Aa N) as [NA _].
    congruence.
Qed.

Lemma run_accepted_is_busy rs : forall w,
  forallb core rs = true -> wf (storage w) -> accepted_is_busy (storage w) ->
  accepted_is_busy (storage (run rs w)).
Proof.
  induction rs as [|r rs IH]; intros w C W B; [exact B|].
  simpl in C. apply andb_true_iff in C. destruct C as [Cr C].
  rewrite run_cons. pose proof (serve_effect r w W) as E.
  apply IH; [exact C|exact (effect_wf E W)|].
  exact (effect_accepted_is_busy E Cr W B).
Qed.

Lemma run_exclusive rs : forall w,
  forallb core rs = true -> disciplined rs w = true ->
  wf (storage w) -> accepted_is_busy (storage w) -> exclusive (storage w) ->
  exclusive (storage (run rs w)).
Proof.
  induction rs as [|r rs IH]; intros w C D W B X; [exact X|].
  simpl in C, D. apply andb_true_iff in C, D.
  destruct C as [Cr C], D as [Dr D].
  rewrite run_cons. pose proof (serve_effect r w W) as E.
  apply IH; [exact C|exact D|exact (effect_wf E W)| |].
  - exact (effect_accepted_is_busy E Cr W B).
  - exact (effect_exclusive E Cr Dr W B X).
Qed.




(** * Further properties of the store *)

(** ** The listings are sorted, complete and stable *)

Section SortedFacts.
Variable A : Type.
Variables key id : A -> Z.

Lemma sort_insert_In (cmp : A -> A -> Z) x y l :
  In y (sort_insert cmp x l) <-> y = x \/ In y l.
Proof.
  split.
  - intros I. apply (Permutation_in _ (sort_insert_perm cmp x l)) in I.
    destruct I; auto.
  - intros I.
    apply (Permutation_in _ (Permutation_sym (sort_insert_perm cmp x l))).
    destruct I; [left|right]; auto.
Qed.

Lemma sort_insert_listed x l :
  Forall (fun y => id x < id y) l ->
  StronglySorted (listed_before key id) l ->
  StronglySorted (listed_before key id)
    (sort_insert (fun a b => key b - key a) x l).
Proof.
  induction l as [|y r IH]; simpl; intros F S.
  - repeat constructor.
  - inversion S as [|? ? Sr Fy]; subst.
    inversion F as [|? ? Fxy Fxr]; subst.
    destruct (key y - key x <=? 0) eqn:E.
    + apply Z.leb_le in E. constructor; [exact S|].
      constructor; [unfold listed_before; lia|].
      rewrite Forall_forall in *. intros z Iz.
      specialize (Fy z Iz). specialize (Fxr z Iz).
      unfold listed_before in *. lia.
    + apply Z.leb_gt in E. constructor; [now apply IH|].
      rewrite Forall_forall in *. intros z Iz.
      apply sort_insert_In in Iz. destruct Iz as [->|Iz].
      * unfold listed_before. lia.
      * now apply Fy.
Qed.

Lemma js_sort_listed l :
  StronglySorted Z.lt (map id l) ->
  StronglySorted (listed_before key id)
    (js_sort (fun a b => key b - key a) l).
Proof.
  induction l as [|x r IH]; simpl; intros S; [constructor|].
  inversion S as [|? ? Sr Fx]; subst.
  apply sort_insert_listed; [|now apply IH].
  rewrite Forall_forall in *. intros y Iy. apply js_sort_In in Iy.
  apply Fx. now apply in_map.
Qed.

Lemma filter_ascending (f : A -> bool) l :
  StronglySorted Z.lt (map id l) ->
  StronglySorted Z.lt (map id (filter f l)).
Proof.
  induction l as [|x r IH]; simpl; intros S; [constructor|].
  inversion S as [|? ? Sr Fx]; subst.
  destruct (f x); simpl; [|now apply IH].
  constructor; [now apply IH|].
  rewrite Forall_forall in *. intros z Iz. apply Fx.
  apply in_map_iff in Iz. destruct Iz as (y & <- & Iy).
  apply filter_In in Iy. apply in_map. tauto.
Qed.

Lemma listed_before_newest a b :
  listed_before key id a b -> newest_first key a b.
Proof. unfold listed_before, newest_first. lia. Qed.
End SortedFacts.

Lemma values_ids {V : Type} (id : V -> Z) counter (m : JsMap.t V) :
  wf_map id counter m -> map id (JsMap.values m) = JsMap.keys m.
Proof.
  intros W. unfold JsMap.values, JsMap.keys. rewrite map_map.
  apply map_ext_in. intros [k v] I. simpl. exact (wf_id W _ _ I).
Qed.

(** What a listing [js_sort (newest first) (filter f (values m))] is, for a
    well-formed map with ascending keys. *)
Lemma listing_spec {V : Type} (createdAt id : V -> Z) counter (f : V -> bool)
    (m : JsMap.t V) :
  wf_map id counter m -> ascending (JsMap.keys m) ->
  let listing :=
    js_sort (fun a b => createdAt b - createdAt a)
            (filter f (JsMap.values m)) in
  (forall v, In v listing <-> In v (JsMap.values m) /\ f v = true)
  /\ NoDup listing
  /\ StronglySorted (listed_before createdAt id) listing.
Proof.
  intros W Asc listing. subst listing. split; [|split].
  - intros v. rewrite js_sort_In, filter_In. tauto.
  - eapply Permutation_NoDup; [symmetry; apply js_sort_perm|].
    apply NoDup_filter. exact (wf_map_values_nodup W).
  - apply (@js_sort_listed V createdAt id).
    apply (@filter_ascending V id).
    rewrite (values_ids W). exact Asc.
Qed.

(** ** What every reachable store keeps *)

Lemma ascending_snoc l c :
  ascending l -> (forall k, In k l -> k < c) -> ascending (l ++ [c]).
Proof.
  unfold ascending. induction l as [|x r IH]; simpl; intros S B.
  - repeat constructor.
  - inversion S as [|? ? Sr Fx]; subst. constructor.
    + apply IH; auto.
    + apply Forall_app. split; [exact Fx|]. repeat constructor. auto.
Qed.

Lemma keys_set_fresh {V : Type} k (v : V) m :
  ~ In k (JsMap.keys m) -> JsMap.keys (JsMap.set k v m) = JsMap.keys m ++ [k].
Proof.
  intros F. rewrite JsMapFacts.set_fresh by exact F.
  unfold JsMap.keys. now rewrite map_app.
Qed.

Lemma ascending_create {V : Type} (id : V -> Z) counter (v : V) m :
  wf_map id counter m -> ascending (JsMap.keys m) ->
  ascending (JsMap.keys (JsMap.set counter v m)).
Proof.
  intros W A. rewrite keys_set_fresh by exact (wf_map_fresh W).
  apply ascending_snoc; [exact A|].
  intros k I. pose proof (wf_range W _ I). lia.
Qed.

Lemma parse_project form buyerId d :
  insertProjectSchema_parse form buyerId = Some d ->
  InsertProject.buyerId d = buyerId.
Proof.
  unfold insertProjectSchema_parse.
  destruct (f_title form), (f_description form), (f_budget form),
    (f_deadline form); try discriminate.
  now intros [= <-].
Qed.

Lemma current_user_key session s user :
  wf s -> getCurrentUser session s = Some user ->
  userId session = Some (User.id user)
  /\ In (User.id user) (JsMap.keys (MemStorage.users s)).
Proof.
  intros W U. apply getCurrentUser_getUser in U.
  destruct U as (id & US & _ & GU).
  assert (User.id user = id)
    by (eapply wf_map_get_id; [exact (wf_users W)|exact GU]).
  subst id. split; [exact US|]. eapply JsMapFacts.get_keys. exact GU.
Qed.

Lemma linked_proposals_mapv s g counter :
  wf_map Proposal.id (MemStorage.proposalIdCounter s) (MemStorage.proposals s) ->
  (forall k v, Proposal.projectId (g k v) = Proposal.projectId v
               /\ Proposal.sellerId (g k v) = Proposal.sellerId v
               /\ Proposal.price (g k v) = Proposal.price v) ->
  linked s ->
  linked (MemStorage.set_proposals (JsMap.mapv g (MemStorage.proposals s))
                                   counter s).
Proof.
  intros W G [AU AJ AP AY PB PR OS BK]. split; simpl; try assumption.
  - now rewrite JsMapFacts.keys_mapv.
  - intros p' q' Ip Iq J S.
    apply JsMapFacts.values_mapv_In in Ip, Iq.
    destruct Ip as (k & p & Ip & ->). destruct Iq as (k2 & q & Iq & ->).
    destruct (G k p) as (Jp & Sp & _). destruct (G k2 q) as (Jq & Sq & _).
    assert (p = q).
    { apply OS; try congruence; apply JsMapFacts.In_values; eauto. }
    subst q. pose proof (wf_id W _ _ Ip). pose proof (wf_id W _ _ Iq).
    congruence.
  - intros y Iy. destruct (BK y Iy) as (p & j & Ip & J & S & P & GJ & B).
    apply JsMapFacts.In_values in Ip. destruct Ip as [k Ip].
    destruct (G k p) as (Jp & Sp & Pp).
    exists (g k p), j. repeat split; try congruence; try exact GJ.
    apply JsMapFacts.values_mapv_In. eauto.
Qed.

Lemma linked_projects_mapv s g counter :
  (forall k v, Project.buyerId (g k v) = Project.buyerId v) ->
  linked s ->
  linked (MemStorage.set_projects (JsMap.mapv g (MemStorage.projects s))
                                  counter s).
Proof.
  intros G [AU AJ AP AY PB PR OS BK]. split; simpl; try assumption.
  - now rewrite JsMapFacts.keys_mapv.
  - intros j' Ij. apply JsMapFacts.values_mapv_In in Ij.
    destruct Ij as (k & j & Ij & ->). rewrite G. apply PB.
    apply JsMapFacts.In_values. eauto.
  - intros y Iy. rewrite JsMapFacts.keys_mapv. now apply PR.
  - intros y Iy. destruct (BK y Iy) as (p & j & Ip & J & S & P & GJ & B).
    exists p, (g (Payment.projectId y) j). repeat split; try assumption.
    + unfold MemStorage.getProject in *. simpl.
      rewrite JsMapFacts.get_mapv, GJ. reflexivity.
    + now rewrite G.
Qed.

Lemma linked_payments_mapv s g counter :
  (forall k v, Payment.projectId (g k v) = Payment.projectId v
               /\ Payment.buyerId (g k v) = Payment.buyerId v
               /\ Payment.sellerId (g k v) = Payment.sellerId v
               /\ Payment.amount (g k v) = Payment.amount v) ->
  linked s ->
  linked (MemStorage.set_payments (JsMap.mapv g (MemStorage.payments s))
                                  counter s).
Proof.
  intros G [AU AJ AP AY PB PR OS BK]. split; simpl; try assumption.
  - now rewrite JsMapFacts.keys_mapv.
  - intros y' Iy. apply JsMapFacts.values_mapv_In in Iy.
    destruct Iy as (k & y & Iy & ->).
    destruct (G k y) as (-> & -> & -> & _). apply PR.
    apply JsMapFacts.In_values. eauto.
  - intros y' Iy. apply JsMapFacts.values_mapv_In in Iy.
    destruct Iy as (k & y & Iy & ->).
    destruct (G k y) as (-> & -> & -> & ->). apply BK.
    apply JsMapFacts.In_values. eauto.
Qed.

Lemma effect_linked s r s' :
  effect s r s' ->
  (forall gateway now session proposalId,
     r <> CreatePaymentIntent gateway now session proposalId) ->
  wf s -> linked s -> linked s'.
Proof.
  intros E NP W L.
  destruct E as
    [ r | now insertUser | now session form user d eU eP
    | session projectId status project eGJ
    | transport now session projectId form project user d eGJ eO eU eP eNew
    | session proposalId proposal project eGP eGJ
    | session proposalId status proposal eGP eNA
    | gateway now session proposalId proposal project user intent eGP eGJ eU
    | transport session intentId payment eIP ].
  - exact L.
  - destruct L as [AU AJ AP AY PB PR OS BK]. split; simpl; try assumption.
    + exact (ascending_create _ (wf_users W) AU).
    + intros j Ij. apply keys_set_incl. now apply PB.
    + intros y Iy. destruct (PR y Iy) as (? & ? & ?).
      repeat split; try assumption; now apply keys_set_incl.
  - destruct L as [AU AJ AP AY PB PR OS BK]. split; simpl; try assumption.
    + exact (ascending_create _ (wf_projects W) AJ).
    + intros j Ij.
      rewrite values_set_fresh in Ij by exact (wf_map_fresh (wf_projects W)).
      apply in_app_or in Ij. destruct Ij as [Ij|[<-|[]]]; [now apply PB|].
      simpl. rewrite (parse_project _ _ eP).
      exact (proj2 (current_user_key _ W eU)).
    + intros y Iy. destruct (PR y Iy) as (? & ? & ?).
      repeat split; try assumption. now apply keys_set_incl.
    + intros y Iy. destruct (BK y Iy) as (p & j & Ip & J & S & P & GJ & B).
      exists p, j. repeat split; try assumption.
      unfold MemStorage.getProject in *. simpl.
      rewrite JsMapFacts.get_set_neq; [exact GJ|].
      apply JsMapFacts.get_keys in GJ.
      pose proof (wf_range (wf_projects W) _ GJ). lia.
  - apply linked_projects_mapv; [|exact L].
    intros k v. now destruct (k =? projectId).
  - destruct (parse_proposal _ _ _ eP) as (EJ & ES & _).
    destruct L as [AU AJ AP AY PB PR OS BK]. split; simpl; try assumption.
    + exact (ascending_create _ (wf_proposals W) AP).
    + assert (Fresh : forall p,
                 In p (JsMap.values (MemStorage.proposals s)) ->
                 Proposal.projectId p = projectId ->
                 Proposal.sellerId p <> User.id user).
      { intros p Ip J S.
        assert (T : existsb (fun p => Proposal.sellerId p =? User.id user)
                      (MemStorage.getProposalsByProject projectId s) = true)
          by (apply alreadySubmitted_iff; eauto).
        congruence. }
      intros p q Ip Iq J S.
      rewrite values_set_fresh in Ip, Iq
        by exact (wf_map_fresh (wf_proposals W)).
      apply in_app_or in Ip, Iq.
      destruct Ip as [Ip|[<-|[]]], Iq as [Iq|[<-|[]]]; simpl in *.
      * now apply OS.
      * exfalso. apply (Fresh p Ip); congruence.
      * exfalso. apply (Fresh q Iq); congruence.
      * reflexivity.
    + intros y Iy. destruct (BK y Iy) as (p & j & Ip & J & S & P & GJ & B).
      exists p, j. repeat split; try assumption.
      rewrite values_set_fresh by exact (wf_map_fresh (wf_proposals W)).
      apply in_or_app. now left.
  - unfold accept_storage.
    set (s2 := MemStorage.set_projects
                 (JsMap.adjust (Proposal.projectId proposal)
                    (Project.with_status ProjectStatus.in_progress)
                    (MemStorage.projects s))
                 (MemStorage.projectIdCounter s) s).
    change (linked (MemStorage.set_proposals
                      (JsMap.mapv
                         (after_accept proposalId
                                       (Proposal.projectId proposal))
                         (MemStorage.proposals s2))
                      (MemStorage.proposalIdCounter s2) s2)).
    apply linked_proposals_mapv.
    + simpl. exact (wf_proposals W).
    + intros k v. destruct (after_accept_fields proposalId
                             (Proposal.projectId proposal) k v)
        as (_ & J & S).
      repeat split; try assumption.
      unfold after_accept. destruct (k =? proposalId); [reflexivity|].
      destruct (_ && _); reflexivity.
    + apply linked_projects_mapv; [|exact L].
      intros k v. now destruct (k =? Proposal.projectId proposal).
  - apply linked_proposals_mapv; [exact (wf_proposals W)| |exact L].
    intros k v. now destruct (k =? proposalId).
  - exfalso. exact (NP gateway now session (Some proposalId) eq_refl).
  - apply linked_payments_mapv; [|exact L].
    intros k v. now destruct (k =? Payment.id payment).
Qed.

Lemma payment_intent_effect gateway now session proposalId w :
  storage (snd (POST_create_payment_intent gateway now session proposalId w))
  = storage w
  \/ exists id proposal project user intent,
       proposalId = Some id
       /\ MemStorage.getProposal id (storage w) = Some proposal
       /\ MemStorage.getProject (Proposal.projectId proposal) (storage w)
          = Some project
       /\ getCurrentUser session (storage w) = Some user
       /\ User.id user = Project.buyerId project
       /\ gateway (intent_params proposal project user) = Some intent
       /\ storage (snd (POST_create_payment_intent gateway now session
                          proposalId w))
          = snd (MemStorage.createPayment now
                   (InsertPayment.mk (Proposal.price proposal)
                      (Proposal.price proposal * 0.15)%float
                      (Project.id project) (User.id user)
                      (Proposal.sellerId proposal) (Some (pi_id intent)))
                   (storage w)).
Proof.
  unfold POST_create_payment_intent.
  match goal with
  | |- context [route [isAuthenticated session; checkRole Role.buyer session]
                      ?h ?w0] =>
      destruct (route_cases session Role.buyer h w0)
        as [(_ & _ & ->)|(r & -> & _)]
  end; [|now left].
  destruct proposalId as [id|]; [|now left].
  destruct (truthy_id (Some id)); simpl negb; cbv iota; [|now left].
  destruct (MemStorage.getProposal id (storage w)) as [proposal|] eqn:GP;
    [|now left].
  destruct (MemStorage.getProject (Proposal.projectId proposal) (storage w))
    as [project|] eqn:GJ; [|now left].
  destruct (getCurrentUser session (storage w)) as [user|] eqn:U;
    [|now left].
  destruct (User.id user =? Project.buyerId project) eqn:O; simpl negb;
    cbv iota; [|now left].
  apply Z.eqb_eq in O.
  destruct (gateway (mkParams (Math_round (Proposal.price proposal * 100))
                       "usd" (Proposal.id proposal) (Project.id project)
                       (User.id user) (Proposal.sellerId proposal)))
    as [intent|] eqn:G; [|now left].
  right. exists id, proposal, project, user, intent.
  repeat split; try assumption; reflexivity.
Qed.

Lemma created_payment_linked s now proposalId proposal project user sid :
  wf s -> linked s ->
  MemStorage.getProposal proposalId s = Some proposal ->
  MemStorage.getProject (Proposal.projectId proposal) s = Some project ->
  In (User.id user) (JsMap.keys (MemStorage.users s)) ->
  User.id user = Project.buyerId project ->
  linked (snd (MemStorage.createPayment now
                 (InsertPayment.mk (Proposal.price proposal)
                    (Proposal.price proposal * 0.15)%float
                    (Project.id project) (User.id user)
                    (Proposal.sellerId proposal) sid) s)).
Proof.
  intros W [AU AJ AP AY PB PR OS BK] GP GJ U O.
  assert (Ip : In proposal (JsMap.values (MemStorage.proposals s))).
  { apply JsMapFacts.In_values. exists proposalId.
    now apply JsMapFacts.get_In. }
  assert (EJ : Project.id project = Proposal.projectId proposal)
    by (eapply wf_map_get_id; [exact (wf_projects W)|exact GJ]).
  split; simpl; try assumption.
  - exact (ascending_create _ (wf_payments W) AY).
  - intros y Iy.
    rewrite values_set_fresh in Iy by exact (wf_map_fresh (wf_payments W)).
    apply in_app_or in Iy. destruct Iy as [Iy|[<-|[]]]; [now apply PR|].
    simpl. rewrite EJ. repeat split.
    + eapply JsMapFacts.get_keys. exact GJ.
    + exact U.
    + exact (proj2 (wf_refs W _ Ip)).
  - intros y Iy.
    rewrite values_set_fresh in Iy by exact (wf_map_fresh (wf_payments W)).
    apply in_app_or in Iy. destruct Iy as [Iy|[<-|[]]]; [now apply BK|].
    simpl. exists proposal, project. rewrite EJ.
    repeat split; auto.
Qed.

Lemma linked_constructor : linked MemStorage.constructor.
Proof.
  split; simpl; try apply SSorted_nil.
  - intros j [].
  - intros y [].
  - intros p q [].
  - intros y [].
Qed.

Lemma serve_linked r w :
  wf (storage w) -> linked (storage w) -> linked (storage (snd (serve r w))).
Proof.
  intros W L.
  destruct r as
    [now insertUser | now session form | session projectId status
    | transport now session projectId form | session proposalId status
    | gateway now session proposalId | transport session paymentIntentId];
    try (eapply effect_linked;
         [apply serve_effect; exact W|discriminate|exact W|exact L]).
  simpl serve.
  destruct (payment_intent_effect gateway now session proposalId w)
    as [->|(id & proposal & project & user & intent
            & _ & GP & GJ & U & O & _ & ->)]; [exact L|].
  eapply created_payment_linked; try eassumption.
  exact (proj2 (current_user_key _ W U)).
Qed.

Lemma run_linked rs : forall w,
  wf (storage w) -> linked (storage w) -> linked (storage (run rs w)).
Proof.
  induction rs as [|r rs IH]; intros w W L; [exact L|].
  rewrite run_cons. apply IH.
  - exact (effect_wf (serve_effect r w W) W).
  - now apply serve_linked.
Qed.

Lemma reachable_linked w : reachable w -> linked (storage w).
Proof.
  intros [rs ->]. apply run_linked.
  - exact wf_constructor.
  - exact linked_constructor.
Qed.

(** X1.  In a reachable store [getProposalsByProject] and
    [getProposalsBySeller] return exactly the proposals of the project (of
    the seller), each once, the newest first and, among proposals created at
    the same instant, the one with the smaller id first. *)
Theorem proposal_listings w projectId sellerId :
  reachable w ->
  let all := JsMap.values (MemStorage.proposals (storage w)) in
  let byProject := MemStorage.getProposalsByProject projectId (storage w) in
  let bySeller := MemStorage.getProposalsBySeller sellerId (storage w) in
  (forall p, In p byProject <-> In p all /\ Proposal.projectId p = projectId)
  /\ (forall p, In p bySeller <-> In p all /\ Proposal.sellerId p = sellerId)
  /\ NoDup byProject /\ NoDup bySeller
  /\ StronglySorted (listed_before Proposal.createdAt Proposal.id) byProject
  /\ StronglySorted (listed_before Proposal.createdAt Proposal.id) bySeller.
Proof.
  intros Rw all byProject bySeller.
  pose proof (reachable_wf Rw) as W. pose proof (reachable_linked Rw) as L.
  destruct (listing_spec Proposal.createdAt
              (fun p => Proposal.projectId p =? projectId)
              (wf_proposals W) (asc_proposals L)) as (M1 & N1 & S1).
  destruct (listing_spec Proposal.createdAt
              (fun p => Proposal.sellerId p =? sellerId)
              (wf_proposals W) (asc_proposals L)) as (M2 & N2 & S2).
  subst all byProject bySeller.
  split; [|split; [|split; [|split; [|split]]]]; try assumption.
  - intros p. rewrite <- Z.eqb_eq. apply M1.
  - intros p. rewrite <- Z.eqb_eq. apply M2.
Qed.

Lemma proposal_listings_witness :
  map Proposal.id
      (MemStorage.getProposalsByProject 1 (storage (run two_offers initial)))
  = [2; 1]
  /\ StronglySorted (listed_before Proposal.createdAt Proposal.id)
       (MemStorage.getProposalsByProject 1 (storage (run two_offers initial))).
Proof.
  split; [reflexivity|].
  refine (proj1 (proj2 (proj2 (proj2 (proj2
            (@proposal_listings (run two_offers initial) 1 2 _)))))).
  exists two_offers. reflexivity.
Defined.

(** X2.  In a reachable store [getPaymentsByBuyer], [getPaymentsBySeller] and
    [getPaymentsByProject] return exactly the payments of the buyer (seller,
    project), each once, the newest first and, among payments created at the
    same instant, the one with the smaller id first. *)
Theorem payment_listings w buyerId sellerId projectId :
  reachable w ->
  let all := JsMap.values (MemStorage.payments (storage w)) in
  let byBuyer := MemStorage.getPaymentsByBuyer buyerId (storage w) in
  let bySeller := MemStorage.getPaymentsBySeller sellerId (storage w) in
  let byProject := MemStorage.getPaymentsByProject projectId (storage w) in
  (forall y, In y byBuyer <-> In y all /\ Payment.buyerId y = buyerId)
  /\ (forall y, In y bySeller <-> In y all /\ Payment.sellerId y = sellerId)
  /\ (forall y, In y byProject <-> In y all /\ Payment.projectId y = projectId)
  /\ NoDup byBuyer /\ NoDup bySeller /\ NoDup byProject
  /\ StronglySorted (listed_before Payment.createdAt Payment.id) byBuyer
  /\ StronglySorted (listed_before Payment.createdAt Payment.id) bySeller
  /\ StronglySorted (listed_before Payment.createdAt Payment.id) byProject.
Proof.
  intros Rw all byBuyer bySeller byProject.
  pose proof (reachable_wf Rw) as W. pose proof (reachable_linked Rw) as L.
  destruct (listing_spec Payment.createdAt
              (fun y => Payment.buyerId y =? buyerId)
              (wf_payments W) (asc_payments L)) as (M1 & N1 & S1).
  destruct (listing_spec Payment.createdAt
              (fun y => Payment.sellerId y =? sellerId)
              (wf_payments W) (asc_payments L)) as (M2 & N2 & S2).
  destruct (listing_spec Payment.createdAt
              (fun y => Payment.projectId y =? projectId)
              (wf_payments W) (asc_payments L)) as (M3 & N3 & S3).
  subst all byBuyer bySeller byProject.
  split; [|split; [|split; [|split; [|split; [|split; [|split; [|split]]]]]]];
    try assumption.
  - intros y. rewrite <- Z.eqb_eq. apply M1.
  - intros y. rewrite <- Z.eqb_eq. apply M2.
  - intros y. rewrite <- Z.eqb_eq. apply M3.
Qed.

Lemma payment_listings_witness :
  MemStorage.getPaymentsByBuyer 1 (storage (run paid initial)) = [bob_payment]
  /\ NoDup (MemStorage.getPaymentsByBuyer 1 (storage (run paid initial))).
Proof.
  split; [reflexivity|].
  refine (proj1 (proj2 (proj2 (proj2
            (@payment_listings (run paid initial) 1 2 1 _))))).
  exists paid. reflexivity.
Defined.

(** X3.  In a reachable store every reference is to an entity of the store:
    a proposal's project and seller, a project's buyer, and a payment's
    project, buyer and seller all exist. *)
Theorem references_resolve w :
  reachable w ->
  let s := storage w in
  (forall p, In p (JsMap.values (MemStorage.proposals s)) ->
     (exists j, MemStorage.getProject (Proposal.projectId p) s = Some j)
     /\ exists u, MemStorage.getUser (Proposal.sellerId p) s = Some u)
  /\ (forall j, In j (JsMap.values (MemStorage.projects s)) ->
        exists u, MemStorage.getUser (Project.buyerId j) s = Some u)
  /\ (forall y, In y (JsMap.values (MemStorage.payments s)) ->
        (exists j, MemStorage.getProject (Payment.projectId y) s = Some j)
        /\ (exists u, MemStorage.getUser (Payment.buyerId y) s = Some u)
        /\ exists u, MemStorage.getUser (Payment.sellerId y) s = Some u).
Proof.
  intros Rw s. subst s.
  pose proof (reachable_wf Rw) as W. pose proof (reachable_linked Rw) as L.
  split; [|split].
  - intros p I. destruct (wf_refs W _ I) as [KJ KU].
    split; now apply keys_get.
  - intros j I. apply keys_get. exact (project_buyer L _ I).
  - intros y I. destruct (payment_refs L _ I) as (KJ & KB & KS).
    repeat split; now apply keys_get.
Qed.

Lemma references_resolve_witness :
  exists u,
    MemStorage.getUser (Payment.sellerId bob_payment)
                       (storage (run paid initial)) = Some u.
Proof.
  refine (proj2 (proj2 (proj2 (proj2
            (@references_resolve (run paid initial) _)) bob_payment _))).
  - exists paid. reflexivity.
  - left. reflexivity.
Defined.

(** X4.  In a reachable store a seller has at most one proposal for a
    project: two proposals of the same seller for the same project are the
    same proposal. *)
Theorem one_proposal_per_seller w p q :
  reachable w ->
  In p (JsMap.values (MemStorage.proposals (storage w))) ->
  In q (JsMap.values (MemStorage.proposals (storage w))) ->
  Proposal.projectId p = Proposal.projectId q ->
  Proposal.sellerId p = Proposal.sellerId q ->
  p = q.
Proof.
  intros Rw. exact (one_per_seller (reachable_linked Rw) p q).
Qed.

Lemma one_proposal_per_seller_witness :
  In bob_offer (JsMap.values (MemStorage.proposals
                                (storage (run two_offers initial))))
  /\ bob_offer = bob_offer.
Proof.
  assert (I : In bob_offer
                 (JsMap.values (MemStorage.proposals
                                  (storage (run two_offers initial)))))
    by (left; reflexivity).
  split; [exact I|].
  refine (@one_proposal_per_seller (run two_offers initial) bob_offer
            bob_offer _ I I eq_refl eq_refl).
  exists two_offers. reflexivity.
Defined.



(** X6.  In a reachable store each of [createUser], [createProject],
    [createProposal] and [createPayment] stores its entity under an id that
    no entity of the map has and that is greater than all of them; the
    lookup of that id then returns the entity, every other lookup is as
    before, and the entity comes last in the map. *)
Theorem creates_are_fresh w now :
  reachable w ->
  let s := storage w in
  (forall d, fresh_insert User.id (MemStorage.users s)
               (MemStorage.users (snd (MemStorage.createUser now d s)))
               (fst (MemStorage.createUser now d s)))
  /\ (forall d, fresh_insert Project.id (MemStorage.projects s)
                  (MemStorage.projects (snd (MemStorage.createProject now d s)))
                  (fst (MemStorage.createProject now d s)))
  /\ (forall d, fresh_insert Proposal.id (MemStorage.proposals s)
                  (MemStorage.proposals
                     (snd (MemStorage.createProposal now d s)))
                  (fst (MemStorage.createProposal now d s)))
  /\ (forall d, fresh_insert Payment.id (MemStorage.payments s)
                  (MemStorage.payments (snd (MemStorage.createPayment now d s)))
                  (fst (MemStorage.createPayment now d s))).
Proof.
  intros Rw s. subst s. pose proof (reachable_wf Rw) as W.
  assert (Gen : forall (V : Type) (id : V -> Z) counter (m : JsMap.t V) v,
             wf_map id counter m -> id v = counter ->
             fresh_insert id m (JsMap.set counter v m) v).
  { intros V id counter m v Wm E. unfold fresh_insert. rewrite E.
    split; [|split; [|split; [|split]]].
    - apply JsMapFacts.get_None. exact (wf_map_fresh Wm).
    - apply JsMapFacts.get_set_eq.
    - intros k N. apply JsMapFacts.get_set_neq. congruence.
    - intros u I. apply JsMapFacts.In_values in I. destruct I as [k I].
      rewrite (wf_id Wm _ _ I).
      apply (in_map fst) in I. pose proof (wf_range Wm _ I). simpl in *. lia.
    - apply values_set_fresh. exact (wf_map_fresh Wm). }
  split; [|split; [|split]]; intros d; simpl; apply Gen with
    (counter := _); try reflexivity.
  - exact (wf_users W).
  - exact (wf_projects W).
  - exact (wf_proposals W).
  - exact (wf_payments W).
Qed.

Lemma creates_are_fresh_witness :
  MemStorage.getProposal 3
    (snd (MemStorage.createProposal 70
            (InsertProposal.mk "Another offer" 500 7 1 4)
            (storage (run two_offers initial))))
  = Some (Proposal.mk 3 "Another offer" 500 7 ProposalStatus.pending 1 4 70).
Proof.
  refine (proj1 (proj2 (proj1 (proj2 (proj2
            (@creates_are_fresh (run two_offers initial) 70 _)))
            (InsertProposal.mk "Another offer" 500 7 1 4)))).
  exists two_offers. reflexivity.
Defined.

(** ** Status updates compose *)

Lemma set_set_same {V : Type} k (v1 v2 : V) m :
  JsMap.set k v2 (JsMap.set k v1 m) = JsMap.set k v2 m.
Proof.
  induction m as [|[k' v'] r IH]; simpl.
  - now rewrite Z.eqb_refl.
  - destruct (k' =? k) eqn:E; simpl.
    + now rewrite Z.eqb_refl.
    + now rewrite E, IH.
Qed.

Lemma set_set_comm {V : Type} k1 k2 (v1 v2 : V) m :
  k1 <> k2 -> In k1 (JsMap.keys m) -> In k2 (JsMap.keys m) ->
  JsMap.set k1 v1 (JsMap.set k2 v2 m) = JsMap.set k2 v2 (JsMap.set k1 v1 m).
Proof.
  intros N. induction m as [|[k' v'] r IH]; simpl; [tauto|].
  intros I1 I2.
  destruct (Z.eqb_spec k' k2) as [E2|E2], (Z.eqb_spec k' k1) as [E1|E1];
    simpl.
  - congruence.
  - subst k'. destruct (Z.eqb_spec k2 k1); [congruence|].
    now rewrite Z.eqb_refl.
  - subst k'. destruct (Z.eqb_spec k1 k2); [congruence|].
    now rewrite Z.eqb_refl.
  - destruct (Z.eqb_spec k' k1); [congruence|].
    destruct (Z.eqb_spec k' k2); [congruence|].
    f_equal. apply IH; tauto.
Qed.

(** X7.  Status updates of proposals compose as writes to separate cells:
    of two updates of the same proposal the later one wins, and updates of
    two different proposals can be swapped. *)
Theorem proposal_status_updates_compose s k1 k2 a b :
  snd (MemStorage.updateProposalStatus k1 b
         (snd (MemStorage.updateProposalStatus k1 a s)))
  = snd (MemStorage.updateProposalStatus k1 b s)
  /\ (k1 <> k2 ->
      snd (MemStorage.updateProposalStatus k1 a
             (snd (MemStorage.updateProposalStatus k2 b s)))
      = snd (MemStorage.updateProposalStatus k2 b
               (snd (MemStorage.updateProposalStatus k1 a s)))).
Proof.
  split.
  - unfold MemStorage.updateProposalStatus.
    destruct (JsMap.get k1 (MemStorage.proposals s)) as [p|] eqn:G; simpl.
    + rewrite JsMapFacts.get_set_eq. simpl.
      unfold MemStorage.set_proposals. simpl. now rewrite set_set_same.
    + now rewrite G.
  - intros N. unfold MemStorage.updateProposalStatus.
    destruct (JsMap.get k1 (MemStorage.proposals s)) as [p1|] eqn:G1;
      destruct (JsMap.get k2 (MemStorage.proposals s)) as [p2|] eqn:G2;
      simpl;
      rewrite ?JsMapFacts.get_set_neq by congruence;
      rewrite ?G1, ?G2; simpl; try reflexivity.
    unfold MemStorage.set_proposals. simpl. f_equal.
    apply set_set_comm; [exact N| |];
      eapply JsMapFacts.get_keys; eassumption.
Qed.

(** ** Nothing is deleted, and only statuses change *)

Lemma effect_kept s r s' :
  effect s r s' -> wf s ->
  (forall id u, MemStorage.getUser id s = Some u ->
                MemStorage.getUser id s' = Some u)
  /\ (forall id j, MemStorage.getProject id s = Some j ->
        exists st, MemStorage.getProject id s'
                   = Some (Project.with_status st j))
  /\ (forall id p, MemStorage.getProposal id s = Some p ->
        exists st, MemStorage.getProposal id s'
                   = Some (Proposal.with_status st p)).
Proof.
  intros E W.
  assert (KeptJ : forall id j, MemStorage.getProject id s = Some j ->
                    exists st, MemStorage.getProject id s
                               = Some (Project.with_status st j)).
  { intros id j G. exists (Project.status j). rewrite G. now destruct j. }
  assert (KeptP : forall id p, MemStorage.getProposal id s = Some p ->
                    exists st, MemStorage.getProposal id s
                               = Some (Proposal.with_status st p)).
  { intros id p G. exists (Proposal.status p). rewrite G. now destruct p. }
  unfold MemStorage.getUser, MemStorage.getProject, MemStorage.getProposal
    in *.
  destruct E as
    [ r | now insertUser | now session form user d eU eP
    | session projectId status project eGJ
    | transport now session projectId form project user d eGJ eO eU eP eNew
    | session proposalId proposal project eGP eGJ
    | session proposalId status proposal eGP eNA
    | gateway now session proposalId proposal project user intent eGP eGJ eU
    | transport session intentId payment eIP ];
    simpl; (split; [|split]); try (intros id x G; exact G);
    try exact KeptJ; try exact KeptP.
  - intros id u G. rewrite JsMapFacts.get_set_neq; [exact G|].
    apply JsMapFacts.get_keys in G.
    pose proof (wf_range (wf_users W) _ G). lia.
  - intros id j G. rewrite JsMapFacts.get_set_neq; [now apply KeptJ|].
    apply JsMapFacts.get_keys in G.
    pose proof (wf_range (wf_projects W) _ G). lia.
  - intros id j G. unfold JsMap.adjust. rewrite JsMapFacts.get_mapv, G.
    simpl. destruct (id =? projectId); [eauto|].
    exists (Project.status j). now destruct j.
  - intros id p G. rewrite JsMapFacts.get_set_neq; [now apply KeptP|].
    apply JsMapFacts.get_keys in G.
    pose proof (wf_range (wf_proposals W) _ G). lia.
  - intros id j G. unfold JsMap.adjust. rewrite JsMapFacts.get_mapv, G.
    simpl. destruct (id =? Proposal.projectId proposal); [eauto|].
    exists (Project.status j). now destruct j.
  - intros id p G. rewrite JsMapFacts.get_mapv, G. simpl.
    unfold after_accept. destruct (id =? proposalId); [eauto|].
    destruct (_ && _); [eauto|].
    exists (Proposal.status p). now destruct p.
  - intros id p G. unfold JsMap.adjust. rewrite JsMapFacts.get_mapv, G.
    simpl. destruct (id =? proposalId); [eauto|].
    exists (Proposal.status p). now destruct p.
Qed.

(** X8.  No request deletes or replaces an entity: through any run from a
    reachable store a user stays as it is, and a project and a proposal stay
    under their ids with every field but the status as it was. *)
Theorem entities_persist w rs :
  reachable w ->
  let s := storage w in
  let s' := storage (run rs w) in
  (forall id u, MemStorage.getUser id s = Some u ->
                MemStorage.getUser id s' = Some u)
  /\ (forall id j, MemStorage.getProject id s = Some j ->
        exists st, MemStorage.getProject id s'
                   = Some (Project.with_status st j))
  /\ (forall id p, MemStorage.getProposal id s = Some p ->
        exists st, MemStorage.getProposal id s'
                   = Some (Proposal.with_status st p)).
Proof.
  intros Rw s s'. subst s s'. pose proof (reachable_wf Rw) as W. clear Rw.
  revert w W. induction rs as [|r rs IH]; intros w W.
  - simpl. split; [auto|split].
    + intros id j G. exists (Project.status j). rewrite G. now destruct j.
    + intros id p G. exists (Proposal.status p). rewrite G. now destruct p.
  - rewrite run_cons. pose proof (serve_effect r w W) as E.
    destruct (effect_kept E W) as (U1 & J1 & P1).
    destruct (IH _ (effect_wf E W)) as (U2 & J2 & P2).
    split; [|split].
    + intros id u G. apply U2, U1, G.
    + intros id j G. destruct (J1 id j G) as [st1 G1].
      destruct (J2 id _ G1) as [st2 G2]. exists st2. exact G2.
    + intros id p G. destruct (P1 id p G) as [st1 G1].
      destruct (P2 id _ G1) as [st2 G2]. exists st2. exact G2.
Qed.

Lemma entities_persist_witness :
  exists st,
    MemStorage.getProposal 2
      (storage (run [accept as_alice 1] (run two_offers initial)))
    = Some (Proposal.with_status st carol_offer).
Proof.
  refine (proj2 (proj2 (@entities_persist (run two_offers initial)
                          [accept as_alice 1] _)) 2 carol_offer eq_refl).
  exists two_offers. reflexivity.
Defined.

(** X9.  In a reachable store [getCurrentUser] returns the user whose id the
    session holds and nobody else: the user it returns is stored under the
    session's id and carries that id. *)
Theorem current_user_is_session_user w session user :
  reachable w ->
  getCurrentUser session (storage w) = Some user ->
  userId session = Some (User.id user)
  /\ MemStorage.getUser (User.id user) (storage w) = Some user
  /\ isAuthenticated session = None.
Proof.
  intros Rw U. pose proof (reachable_wf Rw) as W.
  pose proof (getCurrentUser_getUser _ _ U) as (id & US & N & GU).
  assert (E : User.id user = id)
    by (eapply wf_map_get_id; [exact (wf_users W)|exact GU]).
  subst id. split; [exact US|]. split; [exact GU|].
  unfold isAuthenticated. rewrite US. simpl.
  apply Z.eqb_neq in N. now rewrite N.
Qed.

Lemma current_user_is_session_user_witness :
  userId as_bob = Some (User.id bob_user)
  /\ MemStorage.getUser (User.id bob_user) (storage (run two_offers initial))
     = Some bob_user
  /\ isAuthenticated as_bob = None.
Proof.
  refine (@current_user_is_session_user (run two_offers initial) as_bob
            bob_user _ eq_refl).
  exists two_offers. reflexivity.
Defined.

(** ** Who may change what *)

Lemma checkRole_pass role session :
  checkRole role session = None -> userRole session = Some role.
Proof.
  unfold checkRole. destruct (userRole session) as [r|]; [|discriminate].
  destruct r, role; simpl; congruence.
Qed.

Lemma gate_cases session role (h : World -> Response * World) w :
  (truthy_id (userId session) = true /\ userRole session = Some role /\
   route [isAuthenticated session; checkRole role session] h w = h w)
  \/ (exists r,
        route [isAuthenticated session; checkRole role session] h w = (r, w)).
Proof.
  destruct (isAuthenticated session) as [ra|] eqn:A.
  { right. exists ra. reflexivity. }
  destruct (checkRole role session) as [rr|] eqn:R.
  { right. exists rr. reflexivity. }
  left. split; [|split].
  - unfold isAuthenticated in A.
    destruct (truthy_id (userId session)); [reflexivity|discriminate].
  - apply checkRole_pass, R.
  - reflexivity.
Qed.

Lemma patch_project_cases session projectId status w :
  wf (storage w) ->
  storage (snd (PATCH_projects_status session projectId status w)) = storage w
  \/ exists st project,
       status = Some st
       /\ MemStorage.getProject projectId (storage w) = Some project
       /\ userId session = Some (Project.buyerId project)
       /\ userRole session = Some Role.buyer
       /\ storage (snd (PATCH_projects_status session projectId status w))
          = MemStorage.set_projects
              (JsMap.adjust projectId (Project.with_status st)
                            (MemStorage.projects (storage w)))
              (MemStorage.projectIdCounter (storage w)) (storage w).
Proof.
  intros W. unfold PATCH_projects_status.
  match goal with
  | |- context [route ?m ?h w] =>
      destruct (gate_cases session Role.buyer h w)
        as [(_ & R & ->)|(x & ->)]; [|left; reflexivity]
  end.
  destruct status as [st|]; [|left; reflexivity].
  destruct (MemStorage.getProject projectId (storage w)) as [project|] eqn:G;
    [|left; reflexivity].
  destruct (getCurrentUser session (storage w)) as [user|] eqn:U;
    [|left; reflexivity].
  destruct (User.id user =? Project.buyerId project) eqn:O; simpl;
    [|left; reflexivity].
  apply Z.eqb_eq in O. right. exists st, project.
  split; [reflexivity|]. split; [reflexivity|].
  split; [rewrite <- O; exact (proj1 (current_user_key _ W U))|].
  split; [exact R|].
  rewrite (surjective_pairing (MemStorage.updateProjectStatus _ _ _)).
  simpl. apply updateProjectStatus_adjust, (wf_nodup (wf_projects W)).
Qed.

Lemma patch_proposal_cases session proposalId status w :
  wf (storage w) ->
  storage (snd (PATCH_proposals_status session proposalId status w))
  = storage w
  \/ exists st proposal project,
       status = Some st
       /\ MemStorage.getProposal proposalId (storage w) = Some proposal
       /\ MemStorage.getProject (Proposal.projectId proposal) (storage w)
          = Some project
       /\ userId session = Some (Project.buyerId project)
       /\ userRole session = Some Role.buyer
       /\ storage (snd (PATCH_proposals_status session proposalId status w))
          = if ProposalStatus.eqb st ProposalStatus.accepted then
              accept_storage proposalId (Proposal.projectId proposal)
                             (storage w)
            else
              MemStorage.set_proposals
                (JsMap.adjust proposalId (Proposal.with_status st)
                              (MemStorage.proposals (storage w)))
                (MemStorage.proposalIdCounter (storage w)) (storage w).
Proof.
  intros W. unfold PATCH_proposals_status.
  match goal with
  | |- context [route ?m ?h w] =>
      destruct (gate_cases session Role.buyer h w)
        as [(_ & R & ->)|(x & ->)]; [|left; reflexivity]
  end.
  destruct status as [st|]; [|left; reflexivity].
  destruct (MemStorage.getProposal proposalId (storage w))
    as [proposal|] eqn:GP; [|left; reflexivity].
  destruct (MemStorage.getProject (Proposal.projectId proposal) (storage w))
    as [project|] eqn:GJ; [|left; reflexivity].
  destruct (getCurrentUser session (storage w)) as [user|] eqn:U;
    [|left; reflexivity].
  destruct (User.id user =? Project.buyerId project) eqn:O; simpl;
    [|left; reflexivity].
  apply Z.eqb_eq in O. right. exists st, proposal, project.
  split; [reflexivity|]. split; [reflexivity|]. split; [exact GJ|].
  split; [rewrite <- O; exact (proj1 (current_user_key _ W U))|].
  split; [exact R|].
  rewrite (surjective_pairing (MemStorage.updateProposalStatus _ _ _)).
  simpl.
  destruct (ProposalStatus.eqb st ProposalStatus.accepted) eqn:A; simpl.
  - apply status_eqb_eq in A. subst st.
    pose proof (accept_cascade _ W GP GJ) as AC. cbv zeta in AC. exact AC.
  - apply updateProposalStatus_adjust, (wf_nodup (wf_proposals W)).
Qed.

Lemma confirm_payment_cases transport session paymentIntentId w :
  wf (storage w) ->
  storage (snd (POST_payments_confirm transport session paymentIntentId w))
  = storage w
  \/ exists payment,
       In payment (JsMap.values (MemStorage.payments (storage w)))
       /\ userId session = Some (Payment.buyerId payment)
       /\ userRole session = Some Role.buyer
       /\ storage (snd (POST_payments_confirm transport session
                          paymentIntentId w))
          = MemStorage.set_payments
              (JsMap.adjust (Payment.id payment)
                 (complete PaymentStatus.completed None)
                 (MemStorage.payments (storage w)))
              (MemStorage.paymentIdCounter (storage w)) (storage w).
Proof.
  intros W. unfold POST_payments_confirm.
  match goal with
  | |- context [route ?m ?h w] =>
      destruct (gate_cases session Role.buyer h w)
        as [(T & R & ->)|(x & ->)]; [|left; reflexivity]
  end.
  destruct paymentIntentId as [intentId|]; [|left; reflexivity].
  destruct (truthy_string (Some intentId)); simpl; [|left; reflexivity].
  destruct (userId session) as [uid|] eqn:US; [|discriminate].
  destruct (js_find _ _) as [payment|] eqn:F; [|left; reflexivity].
  apply js_find_In in F. destruct F as [F _].
  apply js_sort_In in F. apply filter_In in F. destruct F as [F B].
  apply Z.eqb_eq in B.
  right. exists payment. split; [exact F|].
  split; [now rewrite B|]. split; [exact R|].
  rewrite (surjective_pairing (MemStorage.updatePaymentStatus _ _ _ _)).
  cbv beta iota zeta.
  rewrite <- (@updatePaymentStatus_adjust (Payment.id payment)
                PaymentStatus.completed None (storage w)
                (wf_nodup (wf_payments W))).
  repeat match goal with
         | |- context [match ?x with Some _ => _ | None => _ end] =>
             destruct x
         end; reflexivity.
Qed.


Lemma creates_keep s r s' :
  effect s r s' -> wf s -> creates r = true ->
  (forall id j, MemStorage.getProject id s = Some j ->
                MemStorage.getProject id s' = Some j)
  /\ (forall id p, MemStorage.getProposal id s = Some p ->
                   MemStorage.getProposal id s' = Some p)
  /\ (forall id y, JsMap.get id (MemStorage.payments s) = Some y ->
                   JsMap.get id (MemStorage.payments s') = Some y).
Proof.
  intros E W C.
  unfold MemStorage.getProject, MemStorage.getProposal.
  destruct E as
    [ r | now insertUser | now session form user d eU eP
    | session projectId status project eGJ
    | transport now session projectId form project user d eGJ eO eU eP eNew
    | session proposalId proposal project eGP eGJ
    | session proposalId status proposal eGP eNA
    | gateway now session proposalId proposal project user intent eGP eGJ eU
    | transport session intentId payment eIP ];
    try discriminate C; simpl;
    (split; [|split]); try (intros id x G; exact G).
  - intros id j G. rewrite JsMapFacts.get_set_neq; [exact G|].
    apply JsMapFacts.get_keys in G.
    pose proof (wf_range (wf_projects W) _ G). lia.
  - intros id p G. rewrite JsMapFacts.get_set_neq; [exact G|].
    apply JsMapFacts.get_keys in G.
    pose proof (wf_range (wf_proposals W) _ G). lia.
  - intros id y G. rewrite JsMapFacts.get_set_neq; [exact G|].
    apply JsMapFacts.get_keys in G.
    pose proof (wf_range (wf_payments W) _ G). lia.
Qed.

(** X10.  Only the owner changes anything that exists: when a request
    changes a stored project, it comes from a session of the project's
    buyer; when it changes a proposal, from a session of the buyer of the
    proposal's project; when it changes a payment, from a session of the
    payment's buyer. *)
Theorem changes_are_authorized w r :
  reachable w ->
  let s := storage w in
  let s' := storage (snd (serve r w)) in
  (forall id j j',
      MemStorage.getProject id s = Some j ->
      MemStorage.getProject id s' = Some j' -> j' <> j ->
      from_buyer r (Project.buyerId j))
  /\ (forall id p p',
        MemStorage.getProposal id s = Some p ->
        MemStorage.getProposal id s' = Some p' -> p' <> p ->
        exists j, MemStorage.getProject (Proposal.projectId p) s = Some j
                  /\ from_buyer r (Project.buyerId j))
  /\ (forall id y y',
        JsMap.get id (MemStorage.payments s) = Some y ->
        JsMap.get id (MemStorage.payments s') = Some y' -> y' <> y ->
        from_buyer r (Payment.buyerId y)).
Proof.
  intros Rw s s'. subst s s'. pose proof (reachable_wf Rw) as W. clear Rw.
  destruct (creates r) eqn:C.
  { destruct (creates_keep (serve_effect r w W) W C) as (KJ & KP & KY).
    split; [|split].
    - intros id j j' G G' N. rewrite (KJ _ _ G) in G'. congruence.
    - intros id p p' G G' N. rewrite (KP _ _ G) in G'. congruence.
    - intros id y y' G G' N. rewrite (KY _ _ G) in G'. congruence. }
  unfold MemStorage.getProject, MemStorage.getProposal.
  destruct r as
    [now insertUser | now session form | session projectId status
    | transport now session projectId form | session proposalId status
    | gateway now session proposalId | transport session paymentIntentId];
    try discriminate C; unfold serve.
  - destruct (patch_project_cases session projectId status w W)
      as [E|(st & project & -> & G & US & R & E)]; rewrite E.
    { split; [|split]; intros; congruence. }
    simpl. split; [|split]; try (intros; congruence).
    intros id j j' Gj Gj' N. unfold JsMap.adjust in Gj'.
    rewrite JsMapFacts.get_mapv, Gj in Gj'. simpl in Gj'.
    destruct (Z.eqb_spec id projectId) as [->|]; [|congruence].
    unfold MemStorage.getProject in G.
    assert (j = project) by congruence. subst j.
    exists session. auto.
  - destruct (patch_proposal_cases session proposalId status w W)
      as [E|(st & proposal & project & -> & GP & GJ & US & R & E)];
      rewrite E.
    { split; [|split]; intros; congruence. }
    unfold MemStorage.getProposal, MemStorage.getProject in GP, GJ.
    assert (F : from_buyer (PatchProposalStatus session proposalId (Some st))
                           (Project.buyerId project))
      by (exists session; auto).
    destruct (ProposalStatus.eqb st ProposalStatus.accepted); simpl.
    + split; [|split]; try (intros; congruence).
      * intros id j j' Gj Gj' N. unfold JsMap.adjust in Gj'.
        rewrite JsMapFacts.get_mapv, Gj in Gj'. simpl in Gj'.
        destruct (Z.eqb_spec id (Proposal.projectId proposal)) as [->|];
          [|congruence].
        assert (j = project) by congruence. subst j. exact F.
      * intros id p p' Gp Gp' N.
        rewrite JsMapFacts.get_mapv, Gp in Gp'. simpl in Gp'.
        unfold after_accept in Gp'.
        destruct (Z.eqb_spec id proposalId) as [->|].
        { assert (p = proposal) by congruence. subst p. eauto. }
        destruct (Z.eqb_spec (Proposal.projectId p)
                             (Proposal.projectId proposal)) as [e|];
          simpl in Gp'; [|congruence].
        rewrite e. eauto.
    + split; [|split]; try (intros; congruence).
      intros id p p' Gp Gp' N. unfold JsMap.adjust in Gp'.
      rewrite JsMapFacts.get_mapv, Gp in Gp'. simpl in Gp'.
      destruct (Z.eqb_spec id proposalId) as [->|]; [|congruence].
      assert (p = proposal) by congruence. subst p. eauto.
  - destruct (confirm_payment_cases transport session paymentIntentId w W)
      as [E|(payment & I & US & R & E)]; rewrite E.
    { split; [|split]; intros; congruence. }
    simpl. split; [|split]; try (intros; congruence).
    intros id y y' Gy Gy' N. unfold JsMap.adjust in Gy'.
    rewrite JsMapFacts.get_mapv, Gy in Gy'. simpl in Gy'.
    destruct (Z.eqb_spec id (Payment.id payment)) as [->|]; [|congruence].
    assert (y = payment).
    { eapply wf_map_values_inj; [exact (wf_payments W)| | |].
      - apply JsMapFacts.In_values. eexists.
        apply JsMapFacts.get_In. exact Gy.
      - exact I.
      - eapply wf_map_get_id; [exact (wf_payments W)|exact Gy]. }
    subst y. exists session. auto.
Qed.

Lemma changes_are_authorized_witness :
  exists j,
    MemStorage.getProject (Proposal.projectId carol_offer)
                          (storage (run two_offers initial)) = Some j
    /\ from_buyer (accept as_alice 1) (Project.buyerId j).
Proof.
  refine (proj1 (proj2 (@changes_are_authorized (run two_offers initial)
                          (accept as_alice 1) _))
            2 carol_offer
            (Proposal.with_status ProposalStatus.rejected carol_offer)
            eq_refl eq_refl _).
  - exists two_offers. reflexivity.
  - discriminate.
Defined.

(** X11.  The gates in front of the routes: a request whose session holds
    no user id is answered 401, and one whose session has another role than
    the route asks for is answered 403; either way nothing is stored and no
    mail is sent. *)
Theorem gates_refuse r session w :
  session_of r = Some session ->
  (truthy_id (userId session) = false ->
   serve r w = (json 401 (Message "Unauthorized - Please log in"), w))
  /\ (truthy_id (userId session) = true ->
      userRole session <> Some (role_of r) ->
      serve r w
      = (json 403 (Message ("Access denied - " ++ role_name (role_of r)
                              ++ " role required")), w)).
Proof.
  intros S. split.
  - intros T.
    destruct r; simpl in S; try discriminate S; injection S as ->; simpl;
      unfold POST_projects, PATCH_projects_status, POST_projects_proposals,
        PATCH_proposals_status, POST_create_payment_intent,
        POST_payments_confirm, route, isAuthenticated;
      rewrite T; reflexivity.
  - intros T R.
    assert (C : checkRole (role_of r) session
                = Some (json 403 (Message ("Access denied - "
                                             ++ role_name (role_of r)
                                             ++ " role required")))).
    { unfold checkRole. destruct (userRole session) as [x|]; [|reflexivity].
      destruct x, (role_of r); simpl; try reflexivity; congruence. }
    destruct r; simpl in S; try discriminate S; injection S as ->;
      simpl in C |- *;
      unfold POST_projects, PATCH_projects_status, POST_projects_proposals,
        PATCH_proposals_status, POST_create_payment_intent,
        POST_payments_confirm, route, isAuthenticated;
      rewrite T, C; reflexivity.
Qed.

Lemma gates_refuse_witness :
  serve (SubmitProposal delivers 30 as_alice 1 (offer 800 14))
        (run one_offer initial)
  = (json 403 (Message "Access denied - seller role required"),
     run one_offer initial).
Proof.
  apply (proj2 (@gates_refuse
                  (SubmitProposal delivers 30 as_alice 1 (offer 800 14))
                  as_alice (run one_offer initial) eq_refl)).
  - reflexivity.
  - discriminate.
Defined.


(** ** The status of a project *)

(** X12.  PATCH /api/projects/:id/status in a reachable world: for the
    session of the project's buyer any status replaces the current one,
    whatever the current one is, and nothing else changes, not a proposal
    and not the mail log; for every other request the world stays as it is
    and the answer is 400, 401, 403 or 404. *)
Theorem project_status_outcomes w session projectId status :
  reachable w ->
  let rw := PATCH_projects_status session projectId status w in
  (forall st project,
      status = Some st ->
      MemStorage.getProject projectId (storage w) = Some project ->
      owns_project session project ->
      fst rw = json 200 (ProjectJson (Some (Project.with_status st project)))
      /\ MemStorage.getProject projectId (storage (snd rw))
         = Some (Project.with_status st project)
      /\ (forall k, k <> projectId ->
            MemStorage.getProject k (storage (snd rw))
            = MemStorage.getProject k (storage w))
      /\ MemStorage.users (storage (snd rw)) = MemStorage.users (storage w)
      /\ MemStorage.proposals (storage (snd rw))
         = MemStorage.proposals (storage w)
      /\ MemStorage.payments (storage (snd rw))
         = MemStorage.payments (storage w)
      /\ mailLog (snd rw) = mailLog w)
  /\ ((forall st project,
         status = Some st ->
         MemStorage.getProject projectId (storage w) = Some project ->
         ~ owns_project session project) ->
      snd rw = w /\ In (code (fst rw)) [400; 401; 403; 404]).
Proof.
  intros Rw rw. pose proof (reachable_wf Rw) as W.
  pose proof (reachable_linked Rw) as L. subst rw. split.
  - intros st project -> G [US R].
    assert (Ib : In (Project.buyerId project)
                    (JsMap.keys (MemStorage.users (storage w)))).
    { apply (project_buyer L). apply JsMapFacts.In_values.
      exists projectId. apply JsMapFacts.get_In. exact G. }
    pose proof (wf_range (wf_users W) _ Ib) as Pos.
    destruct (keys_get _ _ Ib) as [user GU].
    assert (Eid : User.id user = Project.buyerId project)
      by (eapply wf_map_get_id; [exact (wf_users W)|exact GU]).
    assert (T : truthy_id (userId session) = true).
    { rewrite US. simpl. apply negb_true_iff, Z.eqb_neq. lia. }
    assert (U : getCurrentUser session (storage w) = Some user).
    { unfold getCurrentUser. rewrite T, US. exact GU. }
    unfold PATCH_projects_status.
    rewrite route_pass;
      [|unfold isAuthenticated; now rewrite T
       |unfold checkRole; now rewrite R].
    rewrite G, U, (proj2 (Z.eqb_eq _ _) Eid). simpl.
    unfold MemStorage.updateProjectStatus. unfold MemStorage.getProject in *.
    rewrite G. simpl. split; [reflexivity|].
    split; [apply JsMapFacts.get_set_eq|].
    split; [|auto].
    intros k N. apply JsMapFacts.get_set_neq. congruence.
  - intros N. unfold PATCH_projects_status.
    match goal with
    | |- context [route ?m ?h w] =>
        destruct (route_cases session Role.buyer h w)
          as [(A & R & ->)|(x & -> & [C|C])];
          [|simpl; rewrite C; auto|simpl; rewrite C; auto]
    end.
    destruct status as [st|]; [|simpl; auto].
    destruct (MemStorage.getProject projectId (storage w)) as [project|] eqn:G;
      [|simpl; auto 6].
    destruct (getCurrentUser session (storage w)) as [user|] eqn:U;
      [|simpl; auto 6].
    destruct (User.id user =? Project.buyerId project) eqn:O; simpl;
      [|auto 6].
    exfalso. apply (N st project eq_refl eq_refl). split.
    + apply Z.eqb_eq in O. rewrite <- O.
      exact (proj1 (current_user_key _ W U)).
    + apply checkRole_pass, R.
Qed.

Lemma project_status_outcomes_witness :
  fst (PATCH_projects_status as_alice 1 (Some ProjectStatus.cancelled)
         (run (two_offers ++ [accept as_alice 1]) initial))
  = json 200 (ProjectJson
                (Some (Project.with_status ProjectStatus.cancelled
                         (Project.with_status ProjectStatus.in_progress
                            website_project)))).
Proof.
  refine (proj1 (proj1 (@project_status_outcomes
                          (run (two_offers ++ [accept as_alice 1]) initial)
                          as_alice 1 (Some ProjectStatus.cancelled) _)
                   ProjectStatus.cancelled
                   (Project.with_status ProjectStatus.in_progress
                      website_project)
                   eq_refl eq_refl (conj eq_refl eq_refl))).
  exists (two_offers ++ [accept as_alice 1]). reflexivity.
Defined.

Lemma effect_progress s r s' :
  effect s r s' -> core r = true -> targets_pending r s = true -> wf s ->
  progress s -> progress s'.
Proof.
  intros E C T W B.
  destruct E as
    [ r | now insertUser | now session form user d eU eP
    | session projectId status project eGJ
    | transport now session projectId form project user d eGJ eO eU eP eNew
    | session proposalId proposal project eGP eGJ
    | session proposalId status proposal eGP eNA
    | gateway now session proposalId proposal project user intent eGP eGJ eU
    | transport session intentId payment eIP ];
    try exact B; try discriminate C.
  - (* a project is created *)
    intros j I. simpl in I.
    rewrite values_set_fresh in I by exact (wf_map_fresh (wf_projects W)).
    apply in_app_or in I. destruct I as [I|[<-|[]]]; [|left; reflexivity].
    exact (B j I).
  - (* a proposal is created *)
    intros j I. destruct (B j I) as [O|(S & p & Ip & Jp & Ap)]; [auto|].
    right. split; [exact S|]. exists p. split; [|auto]. simpl.
    rewrite values_set_fresh by exact (wf_map_fresh (wf_proposals W)).
    apply in_or_app. auto.
  - (* accept *)
    intros j' I. simpl in I. apply JsMapFacts.values_mapv_In in I.
    destruct I as (k & v & I & ->).
    assert (Ek : Project.id v = k) by exact (wf_id (wf_projects W) _ _ I).
    destruct (Z.eqb_spec k (Proposal.projectId proposal)) as [e|n].
    + right. split; [reflexivity|].
      exists (Proposal.with_status ProposalStatus.accepted proposal).
      split; [|split; [simpl; congruence|reflexivity]].
      simpl. apply JsMapFacts.values_mapv_In. exists proposalId, proposal.
      split; [apply JsMapFacts.get_In; exact eGP|].
      unfold after_accept. now rewrite Z.eqb_refl.
    + assert (Iv : In v (JsMap.values (MemStorage.projects s)))
        by (apply JsMapFacts.In_values; eauto).
      destruct (B v Iv) as [O|(S & p & Ip & Jp & Ap)]; [auto|].
      right. split; [exact S|]. exists p. split; [|auto].
      simpl. apply JsMapFacts.values_mapv_In. exists (Proposal.id p), p.
      split.
      * apply JsMapFacts.get_In.
        exact (@wf_map_get _ _ _ _ _ (wf_proposals W) Ip).
      * unfold after_accept.
        destruct (Z.eqb_spec (Proposal.id p) proposalId) as [e|_].
        { pose proof (@wf_map_get _ _ _ _ _ (wf_proposals W) Ip) as Gp.
          unfold MemStorage.getProposal in eGP. rewrite e in Gp.
          assert (p = proposal) by congruence. subst p. congruence. }
        destruct (Z.eqb_spec (Proposal.projectId p)
                             (Proposal.projectId proposal)) as [e|_];
          [congruence|reflexivity].
  - (* another status *)
    pose proof (targets_pending_status _ _ _ _ T eGP) as Pend.
    intros j I. destruct (B j I) as [O|(S & p & Ip & Jp & Ap)]; [auto|].
    right. split; [exact S|]. exists p. split; [|auto].
    simpl. apply JsMapFacts.values_mapv_In. exists (Proposal.id p), p.
    split.
    + apply JsMapFacts.get_In. exact (@wf_map_get _ _ _ _ _ (wf_proposals W) Ip).
    + destruct (Z.eqb_spec (Proposal.id p) proposalId) as [e|_];
        [|reflexivity].
      pose proof (@wf_map_get _ _ _ _ _ (wf_proposals W) Ip) as Gp.
      unfold MemStorage.getProposal in eGP. rewrite e in Gp.
      assert (p = proposal) by congruence. subst p. congruence.
Qed.

Lemma run_progress rs : forall w,
  forallb core rs = true -> disciplined rs w = true ->
  wf (storage w) -> progress (storage w) -> progress (storage (run rs w)).
Proof.
  induction rs as [|r rs IH]; intros w C D W B; [exact B|].
  simpl in C, D. apply andb_true_iff in C, D.
  destruct C as [Cr C], D as [Dr D].
  rewrite run_cons. pose proof (serve_effect r w W) as E.
  apply IH; [exact C|exact D|exact (effect_wf E W)|].
  exact (effect_progress E Cr Dr W B).
Qed.

(** X13.  The status of a project tracks its proposals: after a run of
    core operations from the empty store in which every status update
    targets a pending proposal, a project is open and has no accepted
    proposal, or it is in progress and has exactly one; no other status
    arises. *)
Theorem project_status_tracks_acceptance rs :
  forallb core rs = true -> disciplined rs initial = true ->
  let s := storage (run rs initial) in
  forall id j,
    MemStorage.getProject id s = Some j ->
    (Project.status j = ProjectStatus.open /\ accepted_proposals id s = [])
    \/ (Project.status j = ProjectStatus.in_progress
        /\ exists p, accepted_proposals id s = [p]).
Proof.
  intros C D s id j G. subst s.
  assert (W : wf (storage (run rs initial)))
    by (apply run_wf; exact wf_constructor).
  assert (B0 : accepted_is_busy (storage initial)) by (intros p []).
  assert (X0 : exclusive (storage initial)) by (intros p q []).
  assert (P0 : progress (storage initial)) by (intros p []).
  pose proof (run_accepted_is_busy rs initial C wf_constructor B0) as B.
  pose proof (run_exclusive rs initial C D wf_constructor B0 X0) as X.
  pose proof (run_progress rs initial C D wf_constructor P0) as P.
  assert (Ij : In j (JsMap.values
                       (MemStorage.projects (storage (run rs initial))))).
  { apply JsMapFacts.In_values. exists id. apply JsMapFacts.get_In. exact G. }
  assert (Eid : Project.id j = id)
    by (eapply wf_map_get_id; [exact (wf_projects W)|exact G]).
  destruct (P j Ij) as [O|(S & p & Ip & Jp & Ap)].
  - left. split; [exact O|].
    exact (busy_no_accepted_while_open B id G O).
  - right. split; [exact S|].
    assert (Ia : In p (accepted_proposals id (storage (run rs initial)))).
    { apply accepted_proposals_In. split; [exact Ip|]. split; congruence. }
    pose proof (exclusive_at_most_one W X id) as M.
    destruct (accepted_proposals id (storage (run rs initial)))
      as [|a [|b l]]; [destruct Ia|eauto|simpl in M; lia].
Qed.

Lemma project_status_tracks_acceptance_witness :
  let s := storage (run (two_offers ++ [accept as_alice 1]) initial) in
  (Project.status (Project.with_status ProjectStatus.in_progress
                     website_project) = ProjectStatus.open
   /\ accepted_proposals 1 s = [])
  \/ (Project.status (Project.with_status ProjectStatus.in_progress
                        website_project) = ProjectStatus.in_progress
      /\ exists p, accepted_proposals 1 s = [p]).
Proof.
  exact (@project_status_tracks_acceptance
           (two_offers ++ [accept as_alice 1]) eq_refl eq_refl 1
           (Project.with_status ProjectStatus.in_progress website_project)
           eq_refl).
Defined.


(** ** Listings of projects and the reading routes *)

Lemma filter_all {A : Type} (l : list A) : filter (fun _ => true) l = l.
Proof. induction l as [|x r IH]; simpl; [reflexivity|now rewrite IH]. Qed.

(** X14.  In a reachable store [getAllProjects] lists every stored project
    and [getProjectsByBuyer] the projects of that buyer, each once, newest
    first, and projects with the same creation time in the order of their
    ids. *)
Theorem project_listings w buyerId :
  reachable w ->
  let all := JsMap.values (MemStorage.projects (storage w)) in
  let listed := getAllProjects (storage w) in
  let byBuyer := getProjectsByBuyer buyerId (storage w) in
  (forall j, In j listed <-> In j all)
  /\ (forall j, In j byBuyer <-> In j all /\ Project.buyerId j = buyerId)
  /\ NoDup listed /\ NoDup byBuyer
  /\ StronglySorted (listed_before Project.createdAt Project.id) listed
  /\ StronglySorted (listed_before Project.createdAt Project.id) byBuyer.
Proof.
  intros Rw all listed byBuyer.
  pose proof (reachable_wf Rw) as W. pose proof (reachable_linked Rw) as L.
  destruct (listing_spec Project.createdAt (fun _ => true)
              (wf_projects W) (asc_projects L)) as (M1 & N1 & S1).
  destruct (listing_spec Project.createdAt
              (fun j => Project.buyerId j =? buyerId)
              (wf_projects W) (asc_projects L)) as (M2 & N2 & S2).
  rewrite filter_all in M1, N1, S1.
  subst all listed byBuyer.
  split; [|split; [|split; [|split; [|split]]]]; try assumption.
  - intros j. rewrite (M1 j). tauto.
  - intros j. rewrite <- Z.eqb_eq. apply M2.
Qed.

Lemma project_listings_witness :
  getAllProjects (storage (run two_offers initial)) = [website_project]
  /\ NoDup (getProjectsByBuyer 1 (storage (run two_offers initial))).
Proof.
  split; [reflexivity|].
  refine (proj1 (proj2 (proj2 (proj2
            (@project_listings (run two_offers initial) 1 _))))).
  exists two_offers. reflexivity.
Defined.

Lemma current_user_gate session s user :
  getCurrentUser session s = Some user -> isAuthenticated session = None.
Proof.
  unfold getCurrentUser, isAuthenticated.
  destruct (truthy_id (userId session)); [reflexivity|discriminate].
Qed.

(** X15.  Who sees the proposals of a project: GET
    /api/projects/:id/proposals refuses a buyer who does not own the
    project, and answers the owner and every user with the seller role,
    whether or not that seller has a proposal there, with all proposals of
    the project, each with the id, name and email of its seller. *)
Theorem proposals_visible w session projectId project user :
  reachable w ->
  MemStorage.getProject projectId (storage w) = Some project ->
  getCurrentUser session (storage w) = Some user ->
  let reply := GET_projects_proposals session projectId (storage w) in
  (User.id user <> Project.buyerId project -> User.role user = Role.buyer ->
   reply = Refused 403 "You don't have permission to view these proposals")
  /\ (User.id user = Project.buyerId project \/ User.role user = Role.seller ->
      exists listing,
        reply = Answer 200 listing
        /\ map fst listing
           = MemStorage.getProposalsByProject projectId (storage w)
        /\ forall p info, In (p, info) listing ->
             exists seller,
               MemStorage.getUser (Proposal.sellerId p) (storage w)
                 = Some seller
               /\ info = Some (mkSellerInfo (Proposal.sellerId p)
                                 (User.name seller) (User.email seller))).
Proof.
  intros Rw G U reply. pose proof (reachable_wf Rw) as W. subst reply.
  unfold GET_projects_proposals, reading.
  rewrite (current_user_gate _ _ U). simpl js_find. cbv iota.
  rewrite G, U. split.
  - intros N R. apply Z.eqb_neq in N. rewrite N, R. reflexivity.
  - intros H.
    assert (E : negb (User.id user =? Project.buyerId project)
                && negb (Role.eqb (User.role user) Role.seller) = false).
    { destruct H as [H|H].
      - apply Z.eqb_eq in H. now rewrite H.
      - rewrite H. simpl. apply andb_false_r. }
    rewrite E. eexists. split; [reflexivity|]. split.
    + rewrite map_map. simpl. apply map_id.
    + intros p info I. apply in_map_iff in I.
      destruct I as (p' & E' & I). injection E' as -> <-.
      apply js_sort_In in I. apply filter_In in I. destruct I as [I _].
      destruct (wf_refs W _ I) as [_ KU].
      destruct (keys_get _ _ KU) as [seller GS].
      exists seller. unfold MemStorage.getUser in *. rewrite GS.
      split; [reflexivity|].
      rewrite (@wf_map_get_id _ _ _ _ _ _ (wf_users W) GS). reflexivity.
Qed.

Lemma proposals_visible_witness :
  exists listing,
    GET_projects_proposals as_carol 1 (storage (run one_offer initial))
    = Answer 200 listing
    /\ map fst listing
       = MemStorage.getProposalsByProject 1 (storage (run one_offer initial))
    /\ forall p info, In (p, info) listing ->
         exists seller,
           MemStorage.getUser (Proposal.sellerId p)
                              (storage (run one_offer initial)) = Some seller
           /\ info = Some (mkSellerInfo (Proposal.sellerId p)
                             (User.name seller) (User.email seller)).
Proof.
  refine (proj2 (@proposals_visible (run one_offer initial) as_carol 1
                   website_project
                   (User.mk 3 (InsertUser.name carol) (InsertUser.email carol)
                      (InsertUser.password carol) Role.seller 12)
                   _ eq_refl eq_refl)
            (or_intror eq_refl)).
  exists one_offer. reflexivity.
Defined.

(** X16.  What a seller is shown as earnings: for a seller's session GET
    /api/seller/earnings lists every payment addressed to the seller,
    whatever its status, each with the net amount [amount - amount * 0.15],
    the id and title of its project and the id and name of its buyer. *)
Theorem seller_earnings w session user :
  reachable w ->
  getCurrentUser session (storage w) = Some user ->
  userRole session = Some Role.seller ->
  exists earnings,
    GET_seller_earnings session (storage w) = Answer 200 earnings
    /\ map e_payment earnings
       = MemStorage.getPaymentsBySeller (User.id user) (storage w)
    /\ forall e, In e earnings ->
         let y := e_payment e in
         netAmount e = (Payment.amount y - Payment.amount y * 0.15)%float
         /\ Payment.sellerId y = User.id user
         /\ (exists j,
               MemStorage.getProject (Payment.projectId y) (storage w)
                 = Some j
               /\ e_project e
                  = Some (mkProjectInfo (Payment.projectId y)
                                        (Project.title j)))
         /\ (exists b,
               MemStorage.getUser (Payment.buyerId y) (storage w) = Some b
               /\ e_buyer e
                  = Some (mkPartyInfo (Payment.buyerId y) (User.name b))).
Proof.
  intros Rw U R. pose proof (reachable_wf Rw) as W.
  pose proof (reachable_linked Rw) as L.
  assert (CO : commission_ok (storage w)).
  { destruct Rw as [rs ->]. apply run_commission_ok.
    - exact wf_constructor.
    - intros p []. }
  unfold GET_seller_earnings, reading.
  rewrite (current_user_gate _ _ U).
  assert (C : checkRole Role.seller session = None)
    by (unfold checkRole; now rewrite R).
  rewrite C. simpl js_find. cbv iota. rewrite U.
  eexists. split; [reflexivity|]. split.
  - rewrite map_map. simpl. apply map_id.
  - intros e I. cbv zeta. apply in_map_iff in I.
    destruct I as (y & <- & I). simpl.
    apply js_sort_In in I. apply filter_In in I. destruct I as [I S].
    apply Z.eqb_eq in S.
    destruct (payment_refs L _ I) as (KJ & KB & _).
    destruct (keys_get _ _ KJ) as [j GJ]. destruct (keys_get _ _ KB) as [b GB].
    split; [now rewrite (CO y I)|]. split; [exact S|].
    unfold MemStorage.getProject, MemStorage.getUser. rewrite GJ, GB.
    split.
    + exists j. split; [reflexivity|].
      now rewrite (@wf_map_get_id _ _ _ _ _ _ (wf_projects W) GJ).
    + exists b. split; [reflexivity|].
      now rewrite (@wf_map_get_id _ _ _ _ _ _ (wf_users W) GB).
Qed.

Lemma seller_earnings_witness :
  exists earnings,
    GET_seller_earnings as_bob (storage (run paid initial))
    = Answer 200 earnings
    /\ map e_payment earnings
       = MemStorage.getPaymentsBySeller (User.id bob_user)
                                        (storage (run paid initial))
    /\ forall e, In e earnings ->
         let y := e_payment e in
         netAmount e = (Payment.amount y - Payment.amount y * 0.15)%float
         /\ Payment.sellerId y = User.id bob_user
         /\ (exists j,
               MemStorage.getProject (Payment.projectId y)
                                     (storage (run paid initial)) = Some j
               /\ e_project e
                  = Some (mkProjectInfo (Payment.projectId y)
                                        (Project.title j)))
         /\ (exists b,
               MemStorage.getUser (Payment.buyerId y)
                                  (storage (run paid initial)) = Some b
               /\ e_buyer e
                  = Some (mkPartyInfo (Payment.buyerId y) (User.name b))).
Proof.
  refine (@seller_earnings (run paid initial) as_bob bob_user _ eq_refl
            eq_refl).
  exists paid. reflexivity.
Defined.


(** * Messages *)

Lemma js_sort_ext {A : Type} (cmp cmp' : A -> A -> Z) l :
  (forall a b, cmp a b = cmp' a b) -> js_sort cmp l = js_sort cmp' l.
Proof.
  intros E. induction l as [|x r IH]; simpl; [reflexivity|].
  rewrite IH. generalize (js_sort cmp' r). intros l.
  induction l as [|y t IHt]; simpl; [reflexivity|].
  now rewrite E, IHt.
Qed.

Lemma StronglySorted_impl {A : Type} (R R' : A -> A -> Prop) l :
  (forall a b, R a b -> R' a b) -> StronglySorted R l -> StronglySorted R' l.
Proof.
  intros H S. induction S as [|x l S IH F]; constructor; [exact IH|].
  rewrite Forall_forall in *. auto.
Qed.

Lemma oldest_first_spec {V : Type} (createdAt id : V -> Z) counter
    (f : V -> bool) (m : JsMap.t V) :
  wf_map id counter m -> ascending (JsMap.keys m) ->
  let listing :=
    js_sort (fun a b => createdAt a - createdAt b)
            (filter f (JsMap.values m)) in
  (forall v, In v listing <-> In v (JsMap.values m) /\ f v = true)
  /\ NoDup listing
  /\ StronglySorted (listed_oldest_first createdAt id) listing.
Proof.
  intros W Asc listing. subst listing.
  rewrite (js_sort_ext (fun a b => createdAt a - createdAt b)
             (fun a b => - createdAt b - - createdAt a))
    by (intros; lia).
  destruct (listing_spec (fun v => - createdAt v) f W Asc) as (M & N & S).
  split; [exact M|]. split; [exact N|].
  eapply StronglySorted_impl; [|exact S].
  unfold listed_before, listed_oldest_first. intros a b. lia.
Qed.

Lemma with_read_same m : Message.read m = true -> Message.with_read true m = m.
Proof. destruct m. simpl. now intros ->. Qed.

Lemma markMessageAsRead_adjust id s :
  NoDup (JsMap.keys (MessageStorage.messages s)) ->
  snd (MessageStorage.markMessageAsRead id s)
  = MessageStorage.mk
      (JsMap.adjust id (Message.with_read true) (MessageStorage.messages s))
      (MessageStorage.messageIdCounter s).
Proof.
  intros ND. unfold MessageStorage.markMessageAsRead.
  destruct (JsMap.get id (MessageStorage.messages s)) as [m|] eqn:G; simpl.
  - now rewrite <- JsMapFacts.set_present with (v := m) by assumption.
  - rewrite JsMapFacts.adjust_absent by exact G. now destruct s.
Qed.

Lemma mark_fold userId l : forall s,
  NoDup (JsMap.keys (MessageStorage.messages s)) ->
  fold_left (mark_for userId) l s
  = MessageStorage.mk
      (JsMap.mapv
         (fun k v =>
            if existsb (fun m => (Message.id m =? k)
                                 && (negb (Message.read m)
                                     && (Message.receiverId m =? userId))) l
            then Message.with_read true v else v)
         (MessageStorage.messages s))
      (MessageStorage.messageIdCounter s).
Proof.
  induction l as [|m r IH]; intros s ND.
  - simpl. rewrite JsMapFacts.mapv_id by reflexivity. now destruct s.
  - simpl fold_left. unfold mark_for at 2.
    destruct (negb (Message.read m) && (Message.receiverId m =? userId))
      eqn:C.
    + rewrite markMessageAsRead_adjust by exact ND. rewrite IH.
      * simpl. unfold JsMap.adjust. rewrite JsMapFacts.mapv_mapv.
        f_equal. apply JsMapFacts.mapv_ext_in. intros k v _.
        rewrite (Z.eqb_sym (Message.id m) k).
        destruct (k =? Message.id m); simpl; rewrite ?C; simpl;
          destruct (existsb _ r); try reflexivity.
      * simpl. unfold JsMap.adjust. rewrite JsMapFacts.keys_mapv. exact ND.
    + rewrite IH by exact ND. f_equal.
      apply JsMapFacts.mapv_ext_in. intros k v _. simpl.
      now rewrite C, andb_false_r.
Qed.

Lemma read_fold userId projectId s :
  wf_map Message.id (MessageStorage.messageIdCounter s)
         (MessageStorage.messages s) ->
  fold_left (mark_for userId)
            (MessageStorage.getMessagesByProject projectId s) s
  = MessageStorage.mk
      (JsMap.mapv (fun _ v => read_by userId projectId v)
                  (MessageStorage.messages s))
      (MessageStorage.messageIdCounter s).
Proof.
  intros W. rewrite mark_fold by exact (wf_nodup W). f_equal.
  apply JsMapFacts.mapv_ext_in. intros k v I.
  assert (Iv : In v (JsMap.values (MessageStorage.messages s)))
    by (apply JsMapFacts.In_values; eauto).
  pose proof (wf_id W _ _ I) as Ek.
  unfold read_by.
  destruct (existsb _ _) eqn:X.
  - apply existsb_exists in X. destruct X as (m & Im & C).
    apply andb_true_iff in C. destruct C as [C1 C2].
    apply andb_true_iff in C2. destruct C2 as [C2 C3].
    apply Z.eqb_eq in C1.
    unfold MessageStorage.getMessagesByProject in Im.
    apply js_sort_In in Im. apply filter_In in Im. destruct Im as [Im P].
    assert (m = v)
      by (eapply wf_map_values_inj; [exact W|exact Im|exact Iv|congruence]).
    subst m. now rewrite P, C3.
  - destruct ((Message.projectId v =? projectId)
              && (Message.receiverId v =? userId)) eqn:C; [|reflexivity].
    apply andb_true_iff in C. destruct C as [C1 C2].
    destruct (Message.read v) eqn:R; [symmetry; now apply with_read_same|].
    exfalso.
    assert (T : existsb
                  (fun m => (Message.id m =? k)
                            && (negb (Message.read m)
                                && (Message.receiverId m =? userId)))
                  (MessageStorage.getMessagesByProject projectId s) = true).
    { apply existsb_exists. exists v. split.
      - unfold MessageStorage.getMessagesByProject.
        apply js_sort_In. apply filter_In. auto.
      - rewrite R, C2, Ek, Z.eqb_refl. reflexivity. }
    congruence.
Qed.

Lemma read_by_fields userId projectId m :
  Message.id (read_by userId projectId m) = Message.id m
  /\ Message.content (read_by userId projectId m) = Message.content m
  /\ Message.senderId (read_by userId projectId m) = Message.senderId m
  /\ Message.receiverId (read_by userId projectId m) = Message.receiverId m
  /\ Message.projectId (read_by userId projectId m) = Message.projectId m
  /\ Message.createdAt (read_by userId projectId m) = Message.createdAt m
  /\ (Message.read m = true ->
      Message.read (read_by userId projectId m) = true).
Proof.
  unfold read_by. destruct (_ && _); simpl; auto 10.
Qed.


Lemma read_messages_cases session projectId x :
  wf_site x ->
  (exists c m, GET_projects_messages session projectId x = (Refused c m, x))
  \/ exists project user,
       MemStorage.getProject projectId (storage (world x)) = Some project
       /\ getCurrentUser session (storage (world x)) = Some user
       /\ takes_part (User.id user) project projectId (storage (world x))
          = true
       /\ GET_projects_messages session projectId x
          = (Answer 200
               (map (with_sender (storage (world x)))
                    (MessageStorage.getMessagesByProject projectId (inbox x))),
             mkSite (world x)
               (MessageStorage.mk
                  (JsMap.mapv (fun _ v => read_by (User.id user) projectId v)
                              (MessageStorage.messages (inbox x)))
                  (MessageStorage.messageIdCounter (inbox x)))
               (outbox x)).
Proof.
  intros W. unfold GET_projects_messages.
  destruct (isAuthenticated session) as [r|]; [left; unfold refusal; eauto|].
  destruct (MemStorage.getProject projectId (storage (world x)))
    as [project|] eqn:G; [|left; eauto].
  destruct (getCurrentUser session (storage (world x))) as [user|] eqn:U;
    [|left; eauto].
  destruct (takes_part (User.id user) project projectId (storage (world x)))
    eqn:T; simpl; [|left; eauto].
  right. exists project, user. split; [reflexivity|]. split; [reflexivity|].
  split; [exact T|].
  rewrite (@read_fold (User.id user) projectId (inbox x) (inbox_wf W)).
  reflexivity.
Qed.

Lemma send_message_cases transport now session projectId content receiverId
    x :
  (exists c m,
      POST_projects_messages transport now session projectId content
                             receiverId x = (Refused c m, x))
  \/ exists text rid project user receiver,
       content = Some text /\ text <> ""%string
       /\ receiverId = Some rid /\ rid <> 0
       /\ MemStorage.getProject projectId (storage (world x)) = Some project
       /\ getCurrentUser session (storage (world x)) = Some user
       /\ takes_part (User.id user) project projectId (storage (world x))
          = true
       /\ MemStorage.getUser rid (storage (world x)) = Some receiver
       /\ takes_part (User.id receiver) project projectId (storage (world x))
          = true
       /\ POST_projects_messages transport now session projectId content
                                 receiverId x
          = (Answer 201
               (fst (MessageStorage.createMessage now
                       (InsertMessage.mk text (User.id user) rid projectId)
                       (inbox x))),
             mkSite (world x)
               (snd (MessageStorage.createMessage now
                       (InsertMessage.mk text (User.id user) rid projectId)
                       (inbox x)))
               (outbox x
                ++ [mkPosted (message_notice receiver user project)
                      (transport (message_notice receiver user project))])).
Proof.
  unfold POST_projects_messages.
  destruct (isAuthenticated session) as [r|]; [left; unfold refusal; eauto|].
  destruct content as [text|]; [|left; eauto].
  destruct receiverId as [rid|]; [|left; eauto].
  destruct (truthy_string (Some text)) eqn:TS; simpl; [|left; eauto].
  destruct (rid =? 0) eqn:TR; simpl; [left; eauto|].
  destruct (MemStorage.getProject projectId (storage (world x)))
    as [project|] eqn:G; [|left; eauto].
  destruct (getCurrentUser session (storage (world x))) as [user|] eqn:U;
    [|left; eauto].
  destruct (takes_part (User.id user) project projectId (storage (world x)))
    eqn:T; simpl; [|left; eauto].
  destruct (MemStorage.getUser rid (storage (world x))) as [receiver|] eqn:GR;
    [|left; eauto].
  destruct (takes_part (User.id receiver) project projectId
                       (storage (world x))) eqn:T'; simpl; [|left; eauto].
  right. exists text, rid, project, user, receiver.
  split; [reflexivity|].
  split; [intros ->; discriminate TS|].
  split; [reflexivity|].
  split; [now apply Z.eqb_neq|].
  repeat (split; [first [reflexivity|assumption]|]). reflexivity.
Qed.

Lemma effect_keys s r s' :
  effect s r s' -> wf s ->
  (forall k, In k (JsMap.keys (MemStorage.users s)) ->
             In k (JsMap.keys (MemStorage.users s')))
  /\ (forall k, In k (JsMap.keys (MemStorage.projects s)) ->
                In k (JsMap.keys (MemStorage.projects s'))).
Proof.
  intros E W. destruct (effect_kept E W) as (KU & KJ & _). split.
  - intros k I. destruct (keys_get _ _ I) as [u G].
    eapply JsMapFacts.get_keys. exact (KU _ _ G).
  - intros k I. destruct (keys_get _ _ I) as [j G].
    destruct (KJ _ _ G) as [st G']. eapply JsMapFacts.get_keys. exact G'.
Qed.

Lemma wf_site_opening : wf_site opening.
Proof.
  split; simpl.
  - exact wf_constructor.
  - exact linked_constructor.
  - apply wf_map_empty.
  - constructor.
  - intros m [].
Qed.

Lemma handle_wf_site e x : wf_site x -> wf_site (handle e x).
Proof.
  intros W. destruct e as
    [r | session projectId
     | transport now session projectId content receiverId]; simpl.
  - pose proof (serve_effect r (world x) (site_wf W)) as E.
    destruct (effect_keys E (site_wf W)) as [KU KJ].
    split; simpl.
    + exact (effect_wf E (site_wf W)).
    + exact (serve_linked r (world x) (site_wf W) (site_linked W)).
    + exact (inbox_wf W).
    + exact (inbox_asc W).
    + intros m I. destruct (inbox_refs W m I) as (A & B & C). auto.
  - destruct (read_messages_cases session projectId W)
      as [(c & m & ->)|(project & user & _ & _ & _ & ->)]; [exact W|].
    split; simpl; try apply W.
    + apply wf_map_mapv; [exact (inbox_wf W)|].
      intros k v. apply read_by_fields.
    + rewrite JsMapFacts.keys_mapv. exact (inbox_asc W).
    + intros m I. apply JsMapFacts.values_mapv_In in I.
      destruct I as (k & v & I & ->).
      destruct (read_by_fields (User.id user) projectId v)
        as (_ & _ & -> & -> & -> & _).
      apply (inbox_refs W). apply JsMapFacts.In_values. eauto.
  - destruct (send_message_cases transport now session projectId content
                                 receiverId x)
      as [(c & m & ->)
         |(text & rid & project & user & receiver & _ & _ & _ & _ & G & U
           & _ & GR & _ & ->)]; [exact W|].
    split; simpl; try apply W.
    + apply wf_map_create; [exact (inbox_wf W)|reflexivity].
    + eapply ascending_create; [exact (inbox_wf W)|exact (inbox_asc W)].
    + intros m I.
      rewrite values_set_fresh in I by exact (wf_map_fresh (inbox_wf W)).
      apply in_app_or in I. destruct I as [I|[<-|[]]].
      * exact (inbox_refs W m I).
      * simpl. split; [|split].
        -- exact (proj2 (current_user_key _ (site_wf W) U)).
        -- eapply JsMapFacts.get_keys. exact GR.
        -- eapply JsMapFacts.get_keys. exact G.
Qed.

Lemma play_cons e es x : play (e :: es) x = play es (handle e x).
Proof. reflexivity. Qed.

Lemma play_app es es' x : play (es ++ es') x = play es' (play es x).
Proof. unfold play. apply fold_left_app. Qed.

Lemma play_wf_site es : forall x, wf_site x -> wf_site (play es x).
Proof.
  induction es as [|e es IH]; intros x W; [exact W|].
  rewrite play_cons. apply IH. now apply handle_wf_site.
Qed.

Lemma live_wf_site x : live x -> wf_site x.
Proof. intros [es ->]. apply play_wf_site. exact wf_site_opening. Qed.

Lemma live_reachable x : live x -> reachable (world x).
Proof.
  intros [es ->]. induction es as [|e es IH] using rev_ind.
  - exists []. reflexivity.
  - rewrite play_app. simpl.
    destruct e as
      [r | session projectId
       | transport now session projectId content receiverId]; simpl.
    + destruct IH as [rs E]. exists (rs ++ [r]). rewrite E.
      unfold run. rewrite fold_left_app. reflexivity.
    + destruct (read_messages_cases session projectId
                  (play_wf_site es wf_site_opening))
        as [(c & m & ->)|(project & user & _ & _ & _ & ->)]; exact IH.
    + destruct (send_message_cases transport now session projectId content
                                   receiverId (play es opening))
        as [(c & m & ->)
           |(text & rid & project & user & receiver & _ & _ & _ & _ & _ & _
             & _ & _ & _ & ->)]; exact IH.
Qed.


(** X17.  In a live site [getMessagesByProject] returns exactly the stored
    messages of the project, each once, oldest first, and
    [getMessagesByUser] exactly the messages the user sent or received,
    each once, newest first; messages with the same creation time come in
    the order of their ids. *)
Theorem message_listings x projectId userId :
  live x ->
  let all := JsMap.values (MessageStorage.messages (inbox x)) in
  let byProject := MessageStorage.getMessagesByProject projectId (inbox x) in
  let byUser := MessageStorage.getMessagesByUser userId (inbox x) in
  (forall m, In m byProject <-> In m all /\ Message.projectId m = projectId)
  /\ (forall m, In m byUser <->
                In m all /\ (Message.senderId m = userId
                             \/ Message.receiverId m = userId))
  /\ NoDup byProject /\ NoDup byUser
  /\ StronglySorted (listed_oldest_first Message.createdAt Message.id)
                    byProject
  /\ StronglySorted (listed_before Message.createdAt Message.id) byUser.
Proof.
  intros Lx all byProject byUser. pose proof (live_wf_site Lx) as W.
  destruct (oldest_first_spec Message.createdAt
              (fun m => Message.projectId m =? projectId)
              (inbox_wf W) (inbox_asc W)) as (M1 & N1 & S1).
  destruct (listing_spec Message.createdAt
              (fun m => (Message.senderId m =? userId)
                        || (Message.receiverId m =? userId))
              (inbox_wf W) (inbox_asc W)) as (M2 & N2 & S2).
  subst all byProject byUser.
  split; [|split; [|split; [|split; [|split]]]]; try assumption.
  - intros m. rewrite <- Z.eqb_eq. apply M1.
  - intros m. rewrite <- !Z.eqb_eq, <- orb_true_iff. apply M2.
Qed.

Lemma message_listings_witness :
  MessageStorage.getMessagesByProject 1 (inbox (play chat opening))
  = [first_message]
  /\ NoDup (MessageStorage.getMessagesByUser 2 (inbox (play chat opening))).
Proof.
  split; [reflexivity|].
  refine (proj1 (proj2 (proj2 (proj2
            (@message_listings (play chat opening) 1 2 _))))).
  exists chat. reflexivity.
Defined.

Lemma fresh_insert_set {V : Type} (id : V -> Z) counter (m : JsMap.t V) v :
  wf_map id counter m -> id v = counter ->
  fresh_insert id m (JsMap.set counter v m) v.
Proof.
  intros Wm E. unfold fresh_insert. rewrite E.
  split; [|split; [|split; [|split]]].
  - apply JsMapFacts.get_None. exact (wf_map_fresh Wm).
  - apply JsMapFacts.get_set_eq.
  - intros k N. apply JsMapFacts.get_set_neq. congruence.
  - intros u I. apply JsMapFacts.In_values in I. destruct I as [k I].
    rewrite (wf_id Wm _ _ I).
    apply (in_map fst) in I. pose proof (wf_range Wm _ I). simpl in *. lia.
  - apply values_set_fresh. exact (wf_map_fresh Wm).
Qed.

(** X18.  POST /api/projects/:id/messages in a live site: either the
    request is refused and nothing changes, or a message with the content
    and the receiver of the body is stored, unread, under a fresh id, from
    the user of the session, where sender and receiver are each the buyer
    of the project or a seller with an accepted proposal for it; then one
    notice goes to the receiver's address, and the message is stored
    whether or not the notice is delivered. *)
Theorem send_message_outcomes transport now session projectId content
    receiverId x :
  live x ->
  let s := storage (world x) in
  let rx := POST_projects_messages transport now session projectId content
                                   receiverId x in
  (exists status message, fst rx = Refused status message /\ snd rx = x)
  \/ exists m user receiver project,
       fst rx = Answer 201 m
       /\ content = Some (Message.content m)
       /\ receiverId = Some (Message.receiverId m)
       /\ getCurrentUser session s = Some user
       /\ Message.senderId m = User.id user
       /\ MemStorage.getUser (Message.receiverId m) s = Some receiver
       /\ Message.projectId m = projectId
       /\ MemStorage.getProject projectId s = Some project
       /\ takes_part (Message.senderId m) project projectId s = true
       /\ takes_part (Message.receiverId m) project projectId s = true
       /\ Message.read m = false
       /\ Message.createdAt m = now
       /\ fresh_insert Message.id (MessageStorage.messages (inbox x))
            (MessageStorage.messages (inbox (snd rx))) m
       /\ world (snd rx) = world x
       /\ outbox (snd rx)
          = outbox x
            ++ [mkPosted (message_notice receiver user project)
                  (transport (message_notice receiver user project))].
Proof.
  intros Lx s rx. subst s rx. pose proof (live_wf_site Lx) as W.
  destruct (send_message_cases transport now session projectId content
                               receiverId x)
    as [(c & m & ->)
       |(text & rid & project & user & receiver & -> & _ & -> & _ & G & U
         & T & GR & T' & ->)].
  { left. exists c, m. split; reflexivity. }
  right. eexists. exists user, receiver, project. simpl.
  assert (Er : User.id receiver = rid)
    by exact (@wf_map_get_id _ _ _ _ _ _ (wf_users (site_wf W)) GR).
  rewrite Er in T'.
  repeat (split; [first [reflexivity|assumption]|]).
  split; [|auto].
  apply fresh_insert_set; [exact (inbox_wf W)|reflexivity].
Qed.

Lemma send_message_outcomes_witness :
  exists m,
    fst (POST_projects_messages (fun _ => false) 61 as_bob 1
           (Some "On Monday"%string) (Some 1) (play chat opening))
    = Answer 201 m
    /\ Message.read m = false.
Proof.
  destruct (@send_message_outcomes (fun _ => false) 61 as_bob 1
              (Some "On Monday"%string) (Some 1) (play chat opening)
              (ex_intro _ chat eq_refl))
    as [(c & t & E & _)
       |(m & user & receiver & project & E & _ & _ & _ & _ & _ & _ & _ & _
         & _ & R & _)].
  - discriminate E.
  - exists m. split; [exact E|exact R].
Defined.

Lemma read_by_idem userId projectId m :
  read_by userId projectId (read_by userId projectId m)
  = read_by userId projectId m.
Proof.
  unfold read_by.
  destruct ((Message.projectId m =? projectId)
            && (Message.receiverId m =? userId)) eqn:C; simpl;
    now rewrite C.
Qed.

(** X19.  GET /api/projects/:id/messages in a live site: either the
    request is refused and nothing changes, or the user of the session is
    the buyer of the project or a seller with an accepted proposal for it
    and is answered the messages of the project as they were stored, each
    with the id and name of its sender; in the store exactly the messages
    of the project addressed to the user are then marked as read, and
    reading again changes nothing more. *)
Theorem reading_marks_read session projectId x :
  live x ->
  let s := storage (world x) in
  let rx := GET_projects_messages session projectId x in
  (exists status message, fst rx = Refused status message /\ snd rx = x)
  \/ exists user project,
       getCurrentUser session s = Some user
       /\ MemStorage.getProject projectId s = Some project
       /\ takes_part (User.id user) project projectId s = true
       /\ fst rx
          = Answer 200
              (map (with_sender s)
                   (MessageStorage.getMessagesByProject projectId (inbox x)))
       /\ (forall m,
             In m (MessageStorage.getMessagesByProject projectId (inbox x)) ->
             exists sender,
               MemStorage.getUser (Message.senderId m) s = Some sender
               /\ with_sender s m
                  = (m, Some (mkPartyInfo (Message.senderId m)
                                          (User.name sender))))
       /\ (forall id,
             JsMap.get id (MessageStorage.messages (inbox (snd rx)))
             = option_map (read_by (User.id user) projectId)
                 (JsMap.get id (MessageStorage.messages (inbox x))))
       /\ world (snd rx) = world x
       /\ outbox (snd rx) = outbox x
       /\ snd (GET_projects_messages session projectId (snd rx)) = snd rx.
Proof.
  intros Lx s rx. subst s rx. pose proof (live_wf_site Lx) as W.
  pose proof (handle_wf_site (ReadMessages session projectId) W) as W'.
  simpl in W'.
  destruct (read_messages_cases session projectId W)
    as [(c & m & E)|(project & user & G & U & T & E)].
  { left. exists c, m. now rewrite E. }
  right. exists user, project. rewrite E in W' |- *. simpl in W' |- *.
  split; [exact U|]. split; [exact G|]. split; [exact T|].
  split; [reflexivity|]. split; [|split; [|split; [|split]]]; auto.
  - intros m I. apply js_sort_In in I. apply filter_In in I.
    destruct I as [I _]. destruct (inbox_refs W m I) as (KS & _ & _).
    destruct (keys_get _ _ KS) as [sender GS]. exists sender.
    split; [exact GS|]. unfold with_sender, MemStorage.getUser. rewrite GS.
    now rewrite (@wf_map_get_id _ _ _ _ _ _ (wf_users (site_wf W)) GS).
  - intros id. rewrite JsMapFacts.get_mapv.
    now destruct (JsMap.get id (MessageStorage.messages (inbox x))).
  - destruct (read_messages_cases session projectId W')
      as [(c' & m' & ->)|(project' & user' & G' & U' & T' & ->)];
      [reflexivity|].
    simpl in G', U' |- *.
    assert (user' = user) by congruence. subst user'.
    rewrite JsMapFacts.mapv_mapv. f_equal. f_equal.
    apply JsMapFacts.mapv_ext_in. intros k v _. apply read_by_idem.
Qed.

Lemma reading_marks_read_witness :
  JsMap.get 1 (MessageStorage.messages
                 (inbox (snd (GET_projects_messages as_bob 1
                                (play chat opening)))))
  = Some (Message.with_read true first_message).
Proof.
  destruct (@reading_marks_read as_bob 1 (play chat opening)
              (ex_intro _ chat eq_refl))
    as [(c & t & E & _)|(user & project & U & _ & _ & _ & _ & M & _)].
  - discriminate E.
  - rewrite (M 1). injection U as <-. reflexivity.
Defined.


Lemma values_mapv_const {V : Type} (g : V -> V) (m : JsMap.t V) :
  JsMap.values (JsMap.mapv (fun _ v => g v) m) = map g (JsMap.values m).
Proof.
  unfold JsMap.values, JsMap.mapv. rewrite !map_map.
  apply map_ext. intros [k v]. reflexivity.
Qed.

Lemma filter_map_length {A : Type} (f : A -> bool) (g : A -> A) l :
  List.length (filter f (map g l))
  = List.length (filter (fun x => f (g x)) l).
Proof.
  induction l as [|a r IH]; simpl; [reflexivity|].
  destruct (f (g a)); simpl; now rewrite IH.
Qed.

(** X20.  The count of unread messages: a message that is sent adds one to
    the count of its receiver and leaves every other count as it is; after
    a user has read the messages of a project, the user's count is the
    number of unread messages addressed to the user in other projects, and
    the counts of the other users are as before; and GET
    /api/messages/unread-count answers the count of the session's user. *)
Theorem unread_count_accounting x userId :
  live x ->
  (forall transport now session projectId content receiverId m,
      fst (POST_projects_messages transport now session projectId content
                                  receiverId x) = Answer 201 m ->
      MessageStorage.getUnreadMessageCount userId
        (inbox (snd (POST_projects_messages transport now session projectId
                       content receiverId x)))
      = MessageStorage.getUnreadMessageCount userId (inbox x)
        + (if Message.receiverId m =? userId then 1 else 0))
  /\ (forall session projectId user listing,
        getCurrentUser session (storage (world x)) = Some user ->
        fst (GET_projects_messages session projectId x)
        = Answer 200 listing ->
        MessageStorage.getUnreadMessageCount userId
          (inbox (snd (GET_projects_messages session projectId x)))
        = if userId =? User.id user then
            Z.of_nat
              (List.length
                 (filter (fun m => unread_for userId m
                                   && negb (Message.projectId m =? projectId))
                         (JsMap.values (MessageStorage.messages (inbox x)))))
          else MessageStorage.getUnreadMessageCount userId (inbox x))
  /\ (forall session user,
        getCurrentUser session (storage (world x)) = Some user ->
        GET_messages_unread_count session x
        = Answer 200
            (MessageStorage.getUnreadMessageCount (User.id user) (inbox x))).
Proof.
  intros Lx. pose proof (live_wf_site Lx) as W. split; [|split].
  - intros transport now session projectId content receiverId m.
    destruct (send_message_cases transport now session projectId content
                                 receiverId x)
      as [(c & t & ->)
         |(text & rid & project & user & receiver & _ & _ & _ & _ & _ & _
           & _ & _ & _ & ->)]; [discriminate|].
    simpl. intros [= <-]. simpl.
    unfold MessageStorage.getUnreadMessageCount. simpl.
    rewrite values_set_fresh by exact (wf_map_fresh (inbox_wf W)).
    rewrite filter_app, length_app. simpl.
    destruct (rid =? userId); simpl; lia.
  - intros session projectId user listing U.
    destruct (read_messages_cases session projectId W)
      as [(c & t & ->)|(project & user' & _ & U' & _ & ->)]; [discriminate|].
    assert (user' = user) by congruence. subst user'.
    simpl. intros _. unfold MessageStorage.getUnreadMessageCount. simpl.
    rewrite values_mapv_const, filter_map_length.
    destruct (Z.eqb_spec userId (User.id user)) as [e|n].
    + f_equal. f_equal. apply filter_ext. intros v.
      unfold unread_for, read_by. rewrite <- e.
      destruct (Message.projectId v =? projectId),
        (Message.receiverId v =? userId) eqn:R; simpl;
        rewrite ?R; simpl; rewrite ?andb_true_r, ?andb_false_r;
        reflexivity.
    + f_equal. f_equal. apply filter_ext. intros v. unfold read_by.
      destruct (Message.projectId v =? projectId); simpl; [|reflexivity].
      destruct (Z.eqb_spec (Message.receiverId v) (User.id user)) as [e|_];
        [|reflexivity].
      simpl. destruct (Z.eqb_spec (Message.receiverId v) userId);
        [congruence|reflexivity].
  - intros session user U. unfold GET_messages_unread_count, reading.
    rewrite (current_user_gate _ _ U). simpl. now rewrite U.
Qed.

Lemma unread_count_accounting_witness :
  GET_messages_unread_count as_bob (play chat opening) = Answer 200 1.
Proof.
  exact (proj2 (proj2 (@unread_count_accounting (play chat opening) 2
                         (ex_intro _ chat eq_refl)))
           as_bob bob_user eq_refl).
Defined.

Lemma same_message_refl m : same_message m m.
Proof. unfold same_message. auto 10. Qed.

Lemma same_message_trans a b c :
  same_message a b -> same_message b c -> same_message a c.
Proof.
  unfold same_message.
  intros (A1 & A2 & A3 & A4 & A5 & A6 & A7) (B1 & B2 & B3 & B4 & B5 & B6 & B7).
  repeat split; try congruence. auto.
Qed.

Lemma handle_same_message e x id m :
  wf_site x ->
  JsMap.get id (MessageStorage.messages (inbox x)) = Some m ->
  exists m',
    JsMap.get id (MessageStorage.messages (inbox (handle e x))) = Some m'
    /\ same_message m m'.
Proof.
  intros W G. destruct e as
    [r | session projectId
     | transport now session projectId content receiverId]; simpl.
  - exists m. split; [exact G|apply same_message_refl].
  - destruct (read_messages_cases session projectId W)
      as [(c & t & ->)|(project & user & _ & _ & _ & ->)]; simpl.
    + exists m. split; [exact G|apply same_message_refl].
    + rewrite JsMapFacts.get_mapv, G. simpl. eexists. split; [reflexivity|].
      apply read_by_fields.
  - destruct (send_message_cases transport now session projectId content
                                 receiverId x)
      as [(c & t & ->)
         |(text & rid & project & user & receiver & _ & _ & _ & _ & _ & _
           & _ & _ & _ & ->)]; simpl.
    + exists m. split; [exact G|apply same_message_refl].
    + exists m. split; [|apply same_message_refl].
      rewrite JsMapFacts.get_set_neq; [exact G|].
      apply JsMapFacts.get_keys in G.
      pose proof (wf_range (inbox_wf W) _ G). lia.
Qed.

(** X21.  Messages are kept: through any sequence of events of a live site
    a stored message stays under its id with its content, sender, receiver,
    project and creation time, and once it is read it stays read. *)
Theorem messages_persist x es id m :
  live x ->
  JsMap.get id (MessageStorage.messages (inbox x)) = Some m ->
  exists m',
    JsMap.get id (MessageStorage.messages (inbox (play es x))) = Some m'
    /\ same_message m m'.
Proof.
  intros Lx. pose proof (live_wf_site Lx) as W. clear Lx.
  revert x m W. induction es as [|e es IH]; intros x m W G.
  - exists m. split; [exact G|apply same_message_refl].
  - rewrite play_cons.
    destruct (@handle_same_message e x id m W G) as (m1 & G1 & S1).
    destruct (IH _ _ (handle_wf_site e W) G1) as (m2 & G2 & S2).
    exists m2. split; [exact G2|]. eapply same_message_trans; eassumption.
Qed.

Lemma messages_persist_witness :
  exists m',
    JsMap.get 1 (MessageStorage.messages
                   (inbox (play [ReadMessages as_bob 1;
                                 Marketplace (accept as_alice 2)]
                                (play chat opening)))) = Some m'
    /\ same_message first_message m'.
Proof.
  exact (@messages_persist (play chat opening)
           [ReadMessages as_bob 1; Marketplace (accept as_alice 2)]
           1 first_message (ex_intro _ chat eq_refl) eq_refl).
Defined.

(** X22.  Only its receiver marks a message as read: an event of a live
    site that changes a stored message is a reading of the message's
    project by a session of its receiver, who is the buyer of the project
    or a seller with an accepted proposal for it, and the change is that
    the unread message becomes read. *)
Theorem read_only_by_receiver e x id m m' :
  live x ->
  JsMap.get id (MessageStorage.messages (inbox x)) = Some m ->
  JsMap.get id (MessageStorage.messages (inbox (handle e x))) = Some m' ->
  m' <> m ->
  exists session user project,
    e = ReadMessages session (Message.projectId m)
    /\ getCurrentUser session (storage (world x)) = Some user
    /\ User.id user = Message.receiverId m
    /\ MemStorage.getProject (Message.projectId m) (storage (world x))
       = Some project
    /\ takes_part (User.id user) project (Message.projectId m)
                  (storage (world x)) = true
    /\ Message.read m = false
    /\ m' = Message.with_read true m.
Proof.
  intros Lx G G' N. pose proof (live_wf_site Lx) as W.
  destruct e as
    [r | session projectId
     | transport now session projectId content receiverId];
    simpl in G'.
  - congruence.
  - destruct (read_messages_cases session projectId W)
      as [(c & t & E)|(project & user & GJ & U & T & E)];
      rewrite E in G'; simpl in G'; [congruence|].
    rewrite JsMapFacts.get_mapv, G in G'. simpl in G'.
    injection G' as <-. unfold read_by in N |- *.
    destruct (Z.eqb_spec (Message.projectId m) projectId) as [eP|];
      [|now contradiction N].
    destruct (Z.eqb_spec (Message.receiverId m) (User.id user)) as [eR|];
      [|now contradiction N].
    simpl in N |- *. subst projectId.
    exists session, user, project.
    repeat (split; [first [reflexivity|assumption|congruence]|]).
    split; [|reflexivity].
    destruct (Message.read m) eqn:R; [|reflexivity].
    contradiction N. now apply with_read_same.
  - destruct (send_message_cases transport now session projectId content
                                 receiverId x)
      as [(c & t & E)
         |(text & rid & project & user & receiver & _ & _ & _ & _ & _ & _
           & _ & _ & _ & E)]; rewrite E in G'; simpl in G'; [congruence|].
    rewrite JsMapFacts.get_set_neq in G'; [congruence|].
    apply JsMapFacts.get_keys in G.
    pose proof (wf_range (inbox_wf W) _ G). lia.
Qed.

Lemma read_only_by_receiver_witness :
  exists session user project,
    ReadMessages as_bob 1
    = ReadMessages session (Message.projectId first_message)
    /\ getCurrentUser session (storage (world (play chat opening)))
       = Some user
    /\ User.id user = Message.receiverId first_message
    /\ MemStorage.getProject (Message.projectId first_message)
                             (storage (world (play chat opening)))
       = Some project
    /\ takes_part (User.id user) project (Message.projectId first_message)
                  (storage (world (play chat opening))) = true
    /\ Message.read first_message = false
    /\ Message.with_read true first_message
       = Message.with_read true first_message.
Proof.
  refine (@read_only_by_receiver (ReadMessages as_bob 1) (play chat opening)
            1 first_message (Message.with_read true first_message)
            (ex_intro _ chat eq_refl) eq_refl eq_refl _).
  discriminate.
Defined.

(** X23.  The references of a message resolve: in a live site, whatever
    requests the marketplace has served since the message was sent, the
    sender and the receiver of every stored message are users of the store
    and its project is a project of the store. *)
Theorem messages_resolve x m :
  live x ->
  In m (JsMap.values (MessageStorage.messages (inbox x))) ->
  let s := storage (world x) in
  (exists sender, MemStorage.getUser (Message.senderId m) s = Some sender)
  /\ (exists receiver,
        MemStorage.getUser (Message.receiverId m) s = Some receiver)
  /\ (exists project,
        MemStorage.getProject (Message.projectId m) s = Some project).
Proof.
  intros Lx I s. subst s. pose proof (live_wf_site Lx) as W.
  destruct (inbox_refs W m I) as (A & B & C).
  repeat split; now apply keys_get.
Qed.

Lemma messages_resolve_witness :
  let s := storage (world (play chat opening)) in
  (exists sender,
      MemStorage.getUser (Message.senderId first_message) s = Some sender)
  /\ (exists receiver,
        MemStorage.getUser (Message.receiverId first_message) s
        = Some receiver)
  /\ (exists project,
        MemStorage.getProject (Message.projectId first_message) s
        = Some project).
Proof.
  exact (@messages_resolve (play chat opening) first_message
           (ex_intro _ chat eq_refl) (or_introl eq_refl)).
Defined.


(** * Registration and login *)

Lemma js_find_None {A : Type} (f : A -> bool) l :
  js_find f l = None <-> forall x, In x l -> f x = false.
Proof.
  induction l as [|y r IH]; simpl.
  - split; [intros _ x []|reflexivity].
  - destruct (f y) eqn:E.
    + split; [discriminate|]. intros H. specialize (H y (or_introl eq_refl)).
      congruence.
    + rewrite IH. split.
      * intros H x [<-|I]; auto.
      * intros H x I. auto.
Qed.

Lemma js_find_only {A : Type} (f : A -> bool) l u :
  (forall x, In x l -> f x = true -> x = u) ->
  In u l -> f u = true -> js_find f l = Some u.
Proof.
  intros Only I T. destruct (js_find f l) as [x|] eqn:F.
  - apply js_find_In in F. destruct F as [Ix Tx]. f_equal. now apply Only.
  - rewrite js_find_None in F. specialize (F u I). congruence.
Qed.

Lemma effect_users s r s' :
  effect s r s' -> by_route (Use r) = true ->
  MemStorage.users s' = MemStorage.users s.
Proof.
  intros E B. destruct E; try reflexivity. discriminate B.
Qed.

Lemma reachable_step r w : reachable w -> reachable (snd (serve r w)).
Proof.
  intros [rs ->]. exists (rs ++ [r]). unfold run. now rewrite fold_left_app.
Qed.

Lemma sign_up_cases toLowerCase hashPassword now body session s :
  (exists r, POST_auth_register toLowerCase hashPassword now body session s
             = (r, session, s) /\ code r = 400)
  \/ exists data,
       body = Some data
       /\ getUserByEmail toLowerCase (rd_email data) s = None
       /\ POST_auth_register toLowerCase hashPassword now body session s
          = (json 201
               (userWithoutPassword
                  (fst (MemStorage.createUser now
                          (InsertUser.mk (rd_name data) (rd_email data)
                             (hashPassword (rd_password data))
                             (rd_role data)) s))),
             session_for
               (fst (MemStorage.createUser now
                       (InsertUser.mk (rd_name data) (rd_email data)
                          (hashPassword (rd_password data)) (rd_role data))
                       s)),
             snd (MemStorage.createUser now
                    (InsertUser.mk (rd_name data) (rd_email data)
                       (hashPassword (rd_password data)) (rd_role data)) s)).
Proof.
  unfold POST_auth_register. destruct body as [data|]; [|left; eauto].
  destruct (getUserByEmail toLowerCase (rd_email data) s) eqn:G;
    [left; eauto|].
  right. exists data. auto.
Qed.

Lemma visit_serve toLowerCase v w :
  visit toLowerCase v w = w \/ exists r, visit toLowerCase v w = snd (serve r w).
Proof.
  destruct v as [hashPassword now body|r]; simpl; [|eauto].
  destruct (sign_up_cases toLowerCase hashPassword now body
              (mkSession None None) (storage w))
    as [(r & -> & _)|(data & _ & _ & ->)].
  - left. now destruct w.
  - right.
    exists (Register now
              (InsertUser.mk (rd_name data) (rd_email data)
                 (hashPassword (rd_password data)) (rd_role data))).
    reflexivity.
Qed.

Lemma tour_cons toLowerCase v vs w :
  tour toLowerCase (v :: vs) w = tour toLowerCase vs (visit toLowerCase v w).
Proof. reflexivity. Qed.

Lemma tour_app toLowerCase vs vs' w :
  tour toLowerCase (vs ++ vs') w
  = tour toLowerCase vs' (tour toLowerCase vs w).
Proof. unfold tour. apply fold_left_app. Qed.

Lemma visit_reachable toLowerCase v w :
  reachable w -> reachable (visit toLowerCase v w).
Proof.
  intros R. destruct (visit_serve toLowerCase v w) as [->|[r ->]];
    [exact R|now apply reachable_step].
Qed.

Lemma tour_reachable toLowerCase vs : forall w,
  reachable w -> reachable (tour toLowerCase vs w).
Proof.
  induction vs as [|v vs IH]; intros w R; [exact R|].
  rewrite tour_cons. apply IH. now apply visit_reachable.
Qed.

Lemma visit_user_kept toLowerCase v w id u :
  wf (storage w) ->
  MemStorage.getUser id (storage w) = Some u ->
  MemStorage.getUser id (storage (visit toLowerCase v w)) = Some u.
Proof.
  intros W G. destruct (visit_serve toLowerCase v w) as [->|[r ->]];
    [exact G|].
  exact (proj1 (effect_kept (serve_effect r w W) W) _ _ G).
Qed.

Lemma tour_user_kept toLowerCase vs id u : forall w,
  reachable w ->
  MemStorage.getUser id (storage w) = Some u ->
  MemStorage.getUser id (storage (tour toLowerCase vs w)) = Some u.
Proof.
  induction vs as [|v vs IH]; intros w R G; [exact G|].
  rewrite tour_cons. apply IH; [now apply visit_reachable|].
  apply visit_user_kept; [now apply reachable_wf|exact G].
Qed.

Lemma visit_distinct toLowerCase v w :
  by_route v = true -> wf (storage w) ->
  distinct_emails toLowerCase (storage w) ->
  distinct_emails toLowerCase (storage (visit toLowerCase v w)).
Proof.
  intros B W D. destruct v as [hashPassword now body|r]; simpl.
  - destruct (sign_up_cases toLowerCase hashPassword now body
                (mkSession None None) (storage w))
      as [(r & -> & _)|(data & _ & G & ->)]; [exact D|].
    unfold getUserByEmail in G. rewrite js_find_None in G.
    unfold distinct_emails. simpl. intros u v.
    rewrite values_set_fresh by exact (wf_map_fresh (wf_users W)).
    intros Iu Iv E. apply in_app_or in Iu. apply in_app_or in Iv.
    destruct Iu as [Iu|[<-|[]]], Iv as [Iv|[<-|[]]].
    + now apply D.
    + specialize (G u Iu). simpl in E. rewrite E, String.eqb_refl in G.
      discriminate.
    + specialize (G v Iv). simpl in E. rewrite <- E, String.eqb_refl in G.
      discriminate.
    + reflexivity.
  - unfold distinct_emails.
    rewrite (effect_users (serve_effect r w W) B). exact D.
Qed.

Lemma signed_up_reachable toLowerCase w :
  signed_up toLowerCase w -> reachable w.
Proof.
  intros (vs & _ & ->). apply tour_reachable. exists []. reflexivity.
Qed.

Lemma tour_distinct toLowerCase vs : forall w,
  forallb by_route vs = true -> reachable w ->
  distinct_emails toLowerCase (storage w) ->
  distinct_emails toLowerCase (storage (tour toLowerCase vs w)).
Proof.
  induction vs as [|v vs IH]; intros w B R D; [exact D|].
  simpl in B. apply andb_true_iff in B. destruct B as [Bv B].
  rewrite tour_cons. apply IH; [exact B|now apply visit_reachable|].
  apply visit_distinct; [exact Bv|now apply reachable_wf|exact D].
Qed.

Lemma signed_up_distinct toLowerCase w :
  signed_up toLowerCase w -> distinct_emails toLowerCase (storage w).
Proof.
  intros (vs & B & ->). apply tour_distinct; [exact B| |].
  - exists []. reflexivity.
  - intros u v [].
Qed.

Lemma getUserByEmail_spec toLowerCase email s u :
  distinct_emails toLowerCase s ->
  getUserByEmail toLowerCase email s = Some u
  <-> In u (JsMap.values (MemStorage.users s))
      /\ toLowerCase (User.email u) = toLowerCase email.
Proof.
  intros D. unfold getUserByEmail. split.
  - intros F. apply js_find_In in F. destruct F as [I E].
    apply String.eqb_eq in E. auto.
  - intros [I E]. apply js_find_only; [|exact I|now apply String.eqb_eq].
    intros x Ix Ex. apply String.eqb_eq in Ex. apply D; congruence.
Qed.

(** X24.  Emails are unique up to letter case: in a world whose users all
    registered through POST /api/auth/register no two users have emails
    that [toLowerCase] makes equal; [getUserByEmail] finds a user exactly
    when the user's email matches in that sense; and a registration under
    such an email is refused with 400, the store and the session staying
    as they are. *)
Theorem emails_unique toLowerCase w :
  signed_up toLowerCase w ->
  let s := storage w in
  distinct_emails toLowerCase s
  /\ (forall email u,
        getUserByEmail toLowerCase email s = Some u
        <-> In u (JsMap.values (MemStorage.users s))
            /\ toLowerCase (User.email u) = toLowerCase email)
  /\ (forall hashPassword now data session u,
        In u (JsMap.values (MemStorage.users s)) ->
        toLowerCase (User.email u) = toLowerCase (rd_email data) ->
        POST_auth_register toLowerCase hashPassword now (Some data) session s
        = (json 400 (Message "User with this email already exists"),
           session, s)).
Proof.
  intros S s. subst s. pose proof (signed_up_distinct S) as D.
  split; [exact D|]. split.
  - intros email u. now apply getUserByEmail_spec.
  - intros hashPassword now data session u I E.
    unfold POST_auth_register.
    rewrite (proj2 (getUserByEmail_spec (rd_email data) u D) (conj I E)).
    reflexivity.
Qed.

Lemma emails_unique_witness :
  POST_auth_register lower salted 6
    (Some (mkRegisterData "Erin B" "erin@example.COM" "secret2" Role.buyer))
    (mkSession None None)
    (storage (tour lower [SignUp salted 5 (Some erin)] initial))
  = (json 400 (Message "User with this email already exists"),
     mkSession None None,
     storage (tour lower [SignUp salted 5 (Some erin)] initial)).
Proof.
  refine (proj2 (proj2 (@emails_unique lower
                          (tour lower [SignUp salted 5 (Some erin)] initial)
                          _))
            salted 6
            (mkRegisterData "Erin B" "erin@example.COM" "secret2" Role.buyer)
            (mkSession None None) erin_user (or_introl eq_refl) eq_refl).
  exists [SignUp salted 5 (Some erin)]. split; reflexivity.
Defined.


Lemma session_for_genuine s user :
  wf s -> In user (JsMap.values (MemStorage.users s)) ->
  getCurrentUser (session_for user) s = Some user
  /\ isAuthenticated (session_for user) = None
  /\ forall role, checkRole role (session_for user) = None
                  <-> User.role user = role.
Proof.
  intros W I.
  pose proof (@wf_map_get _ _ _ _ _ (wf_users W) I) as G.
  pose proof (wf_range (wf_users W) _ (JsMapFacts.get_keys _ _ G)) as Pos.
  assert (T : truthy_id (Some (User.id user)) = true).
  { simpl. apply negb_true_iff, Z.eqb_neq. lia. }
  split; [|split].
  - unfold getCurrentUser, session_for. simpl userId. rewrite T. exact G.
  - unfold isAuthenticated, session_for. simpl userId. now rewrite T.
  - intros role. unfold checkRole, session_for. simpl.
    destruct (User.role user), role; simpl; split; congruence.
Qed.

(** X25.  POST /api/auth/login with a valid body, in a world whose users
    all registered through the route: if a user's email matches the email
    of the body up to letter case and [checkPassword] accepts the password
    against the stored one, the answer is 200 with that user less the
    password, and the session then holds that user's id and role, so that
    it passes [isAuthenticated], passes [checkRole] for exactly the user's
    role, and [getCurrentUser] returns the user; if the password is not
    accepted, or no user's email matches, the answer is 400 with the same
    message in both cases and the session stays as it is. *)
Theorem login_outcomes toLowerCase checkPassword data session w :
  signed_up toLowerCase w ->
  let s := storage w in
  let rs :=
    POST_auth_login toLowerCase checkPassword (Some data) session s in
  (forall user,
      In user (JsMap.values (MemStorage.users s)) ->
      toLowerCase (User.email user) = toLowerCase (ld_email data) ->
      (checkPassword (ld_password data) (User.password user) = true ->
       rs = (json 200 (userWithoutPassword user), session_for user)
       /\ getCurrentUser (session_for user) s = Some user
       /\ isAuthenticated (session_for user) = None
       /\ forall role, checkRole role (session_for user) = None
                       <-> User.role user = role)
      /\ (checkPassword (ld_password data) (User.password user) = false ->
          rs = (json 400 (Message "Invalid email or password"), session)))
  /\ ((forall user,
         In user (JsMap.values (MemStorage.users s)) ->
         toLowerCase (User.email user) <> toLowerCase (ld_email data)) ->
      rs = (json 400 (Message "Invalid email or password"), session)).
Proof.
  intros S s rs. subst s rs. pose proof (signed_up_distinct S) as D.
  pose proof (reachable_wf (signed_up_reachable S)) as W.
  unfold POST_auth_login. split.
  - intros user I E.
    rewrite (proj2 (getUserByEmail_spec (ld_email data) user D) (conj I E)).
    split; intros C; rewrite C; simpl; [|reflexivity].
    split; [reflexivity|]. now apply session_for_genuine.
  - intros N.
    destruct (getUserByEmail toLowerCase (ld_email data) (storage w))
      as [user|] eqn:G; [|reflexivity].
    apply (getUserByEmail_spec (ld_email data) user D) in G.
    destruct G as [I E]. now destruct (N user I).
Qed.

Lemma login_outcomes_witness :
  POST_auth_login lower matches
    (Some (mkLoginData "ERIN@example.com" "secret1")) (mkSession None None)
    (storage (tour lower [SignUp salted 5 (Some erin)] initial))
  = (json 200 (userWithoutPassword erin_user), session_for erin_user).
Proof.
  refine (proj1 (proj1 (proj1 (@login_outcomes lower matches
                                 (mkLoginData "ERIN@example.com" "secret1")
                                 (mkSession None None)
                                 (tour lower [SignUp salted 5 (Some erin)]
                                       initial) _)
                          erin_user (or_introl eq_refl) eq_refl)
                   eq_refl)).
  exists [SignUp salted 5 (Some erin)]. split; reflexivity.
Defined.

(** X26.  Registration and login fit together: a registration with a valid
    body under an email no user has yet, up to letter case, answers 201
    with the new user less the password, stores the hashed password and
    not the given one, and opens a session of the new user; and whatever
    the site serves afterwards, a login with that password and the email
    in any letter case opens the same session, as long as [checkPassword]
    accepts the password against its hash. *)
Theorem register_then_login toLowerCase hashPassword checkPassword now data
    session w :
  signed_up toLowerCase w ->
  getUserByEmail toLowerCase (rd_email data) (storage w) = None ->
  checkPassword (rd_password data) (hashPassword (rd_password data)) = true ->
  exists user,
    fst (POST_auth_register toLowerCase hashPassword now (Some data) session
           (storage w))
    = (json 201 (userWithoutPassword user), session_for user)
    /\ User.name user = rd_name data
    /\ User.email user = rd_email data
    /\ User.role user = rd_role data
    /\ User.password user = hashPassword (rd_password data)
    /\ forall vs email session',
         forallb by_route vs = true ->
         toLowerCase email = toLowerCase (rd_email data) ->
         let w' :=
           tour toLowerCase vs
             (visit toLowerCase (SignUp hashPassword now (Some data)) w) in
         POST_auth_login toLowerCase checkPassword
           (Some (mkLoginData email (rd_password data))) session' (storage w')
         = (json 200 (userWithoutPassword user), session_for user)
         /\ getCurrentUser (session_for user) (storage w') = Some user.
Proof.
  intros S G C. pose proof (signed_up_reachable S) as R.
  pose proof (reachable_wf R) as W.
  set (d := InsertUser.mk (rd_name data) (rd_email data)
              (hashPassword (rd_password data)) (rd_role data)).
  exists (fst (MemStorage.createUser now d (storage w))).
  split; [unfold POST_auth_register; rewrite G; reflexivity|].
  do 4 (split; [reflexivity|]).
  intros vs email session' B E w'.
  set (user := fst (MemStorage.createUser now d (storage w))).
  set (w1 := visit toLowerCase (SignUp hashPassword now (Some data)) w)
    in w'.
  assert (R1 : reachable w1) by now apply visit_reachable.
  assert (G1 : MemStorage.getUser (User.id user) (storage w1) = Some user).
  { subst w1. simpl. unfold POST_auth_register. rewrite G. simpl.
    unfold MemStorage.getUser. simpl. apply JsMapFacts.get_set_eq. }
  assert (S1 : signed_up toLowerCase w1).
  { destruct S as (vs0 & B0 & E0).
    exists (vs0 ++ [SignUp hashPassword now (Some data)]). split.
    - rewrite forallb_app, B0. reflexivity.
    - rewrite tour_app, <- E0. reflexivity. }
  assert (S' : signed_up toLowerCase w').
  { destruct S1 as (vs1 & B1 & E1). exists (vs1 ++ vs). split.
    - now rewrite forallb_app, B1, B.
    - subst w'. now rewrite tour_app, <- E1. }
  pose proof (tour_user_kept toLowerCase vs _ R1 G1) as G'.
  fold w' in G'.
  assert (I' : In user (JsMap.values (MemStorage.users (storage w')))).
  { apply JsMapFacts.In_values. exists (User.id user).
    apply JsMapFacts.get_In. exact G'. }
  pose proof (reachable_wf (signed_up_reachable S')) as W'.
  split.
  - unfold POST_auth_login. cbn [ld_email ld_password].
    rewrite (proj2 (getUserByEmail_spec email user (signed_up_distinct S'))
               (conj I' (eq_sym E))).
    change (User.password user) with (hashPassword (rd_password data)).
    now rewrite C.
  - exact (proj1 (@session_for_genuine (storage w') user W' I')).
Qed.

Lemma register_then_login_witness :
  exists user,
    fst (POST_auth_register lower salted 5 (Some erin) (mkSession None None)
           (storage initial))
    = (json 201 (userWithoutPassword user), session_for user)
    /\ User.name user = rd_name erin
    /\ User.email user = rd_email erin
    /\ User.role user = rd_role erin
    /\ User.password user = salted (rd_password erin)
    /\ forall vs email session',
         forallb by_route vs = true ->
         lower email = lower (rd_email erin) ->
         let w' :=
           tour lower vs (visit lower (SignUp salted 5 (Some erin)) initial)
         in
         POST_auth_login lower matches
           (Some (mkLoginData email (rd_password erin))) session' (storage w')
         = (json 200 (userWithoutPassword user), session_for user)
         /\ getCurrentUser (session_for user) (storage w') = Some user.
Proof.
  refine (@register_then_login lower salted matches 5 erin
            (mkSession None None) initial _ eq_refl eq_refl).
  exists []. split; reflexivity.
Defined.


(** * The life of a payment and the user's own listings *)

Lemma complete_completed y :
  Payment.status y = PaymentStatus.completed ->
  complete PaymentStatus.completed None y = y.
Proof. destruct y. simpl. now intros ->. Qed.

Lemma effect_payment_step s r s' id y :
  effect s r s' -> wf s ->
  JsMap.get id (MemStorage.payments s) = Some y ->
  pending_or_completed y ->
  exists y', JsMap.get id (MemStorage.payments s') = Some y' /\ settles y y'.
Proof.
  intros E W G P.
  assert (Same : exists y', JsMap.get id (MemStorage.payments s) = Some y'
                            /\ settles y y')
    by (exists y; split; [assumption|now left]).
  destruct E as
    [ r | now insertUser | now session form user d eU eP
    | session projectId status project eGJ
    | transport now session projectId form project user d eGJ eO eU eP eNew
    | session proposalId proposal project eGP eGJ
    | session proposalId status proposal eGP eNA
    | gateway now session proposalId proposal project user intent eGP eGJ eU
    | transport session intentId payment eIP ];
    try exact Same.
  - simpl. rewrite JsMapFacts.get_set_neq; [exact Same|].
    apply JsMapFacts.get_keys in G.
    pose proof (wf_range (wf_payments W) _ G). lia.
  - simpl. unfold JsMap.adjust. rewrite JsMapFacts.get_mapv, G. simpl.
    eexists. split; [reflexivity|].
    destruct (id =? Payment.id payment); [|now left].
    destruct P as [P|P]; [right; auto|left].
    now apply complete_completed.
Qed.

Lemma settles_status y y' :
  pending_or_completed y -> settles y y' -> pending_or_completed y'.
Proof.
  intros P [->|[_ ->]]; [exact P|]. right. reflexivity.
Qed.

Lemma settles_trans a b c :
  settles a b -> settles b c -> settles a c.
Proof.
  intros [->|[Pa ->]] [->|[Pb ->]].
  - now left.
  - right. auto.
  - right. auto.
  - simpl in Pb. discriminate.
Qed.

Lemma effect_payment_status s r s' :
  effect s r s' -> wf s ->
  (forall y, In y (JsMap.values (MemStorage.payments s)) ->
             pending_or_completed y) ->
  forall y, In y (JsMap.values (MemStorage.payments s')) ->
            pending_or_completed y.
Proof.
  intros E W P.
  destruct E as
    [ r | now insertUser | now session form user d eU eP
    | session projectId status project eGJ
    | transport now session projectId form project user d eGJ eO eU eP eNew
    | session proposalId proposal project eGP eGJ
    | session proposalId status proposal eGP eNA
    | gateway now session proposalId proposal project user intent eGP eGJ eU
    | transport session intentId payment eIP ];
    try exact P.
  - intros y I. simpl in I.
    rewrite values_set_fresh in I by exact (wf_map_fresh (wf_payments W)).
    apply in_app_or in I. destruct I as [I|[<-|[]]]; [now apply P|].
    left. reflexivity.
  - intros y I. simpl in I. apply JsMapFacts.values_mapv_In in I.
    destruct I as (k & v & I & ->).
    destruct (k =? Payment.id payment); [right; reflexivity|].
    apply P. apply JsMapFacts.In_values. eauto.
Qed.

(** X27.  The life of a payment: every payment of a reachable store is
    pending or completed, and through any run a stored payment stays under
    its id and is either exactly as it was or, if it was pending, the same
    payment with the status completed; amount, commission, parties,
    project, payment intent and creation time never change, and a
    completed payment is never reopened, refunded or failed. *)
Theorem payment_lifecycle w :
  reachable w ->
  (forall y, In y (JsMap.values (MemStorage.payments (storage w))) ->
             pending_or_completed y)
  /\ (forall rs id y,
        JsMap.get id (MemStorage.payments (storage w)) = Some y ->
        exists y',
          JsMap.get id (MemStorage.payments (storage (run rs w))) = Some y'
          /\ settles y y').
Proof.
  intros Rw.
  assert (P : forall w, reachable w ->
                forall y, In y (JsMap.values (MemStorage.payments (storage w)))
                          -> pending_or_completed y).
  { clear w Rw. intros w [rs ->].
    induction rs as [|r rs IH] using rev_ind; [intros y []|].
    rewrite run_app. simpl.
    apply (effect_payment_status
             (serve_effect r (run rs initial)
                (run_wf rs initial wf_constructor))
             (run_wf rs initial wf_constructor) IH). }
  split; [exact (P w Rw)|].
  intros rs. revert w Rw. induction rs as [|r rs IH]; intros w Rw id y G.
  - exists y. split; [exact G|now left].
  - rewrite run_cons. pose proof (reachable_wf Rw) as W.
    assert (Py : pending_or_completed y).
    { apply (P w Rw). apply JsMapFacts.In_values. exists id.
      apply JsMapFacts.get_In. exact G. }
    destruct (effect_payment_step id (serve_effect r w W) W G Py)
      as (y1 & G1 & S1).
    destruct (IH _ (reachable_step r Rw) id y1 G1) as (y2 & G2 & S2).
    exists y2. split; [exact G2|]. eapply settles_trans; eassumption.
Qed.

Lemma payment_lifecycle_witness :
  exists y',
    JsMap.get 1 (MemStorage.payments
                   (storage (run [ConfirmPayment delivers as_alice
                                    (Some "pi_1"%string)]
                                 (run paid initial)))) = Some y'
    /\ settles bob_payment y'.
Proof.
  refine (proj2 (@payment_lifecycle (run paid initial) _)
            [ConfirmPayment delivers as_alice (Some "pi_1"%string)]
            1 bob_payment eq_refl).
  exists paid. reflexivity.
Defined.

(** X28.  A user's own listings: with a seller's session GET
    /api/seller/proposals answers exactly the seller's proposals, each with
    its project, and with a buyer's session GET /api/buyer/payments answers
    exactly the buyer's payments, each with the id and title of its project
    and the id and name of its seller; nothing of another user is listed
    and none of the attached records is missing. *)
Theorem own_listings w session user :
  reachable w ->
  getCurrentUser session (storage w) = Some user ->
  let s := storage w in
  (userRole session = Some Role.seller ->
   exists listing,
     GET_seller_proposals session s = Answer 200 listing
     /\ map fst listing = MemStorage.getProposalsBySeller (User.id user) s
     /\ forall p j, In (p, j) listing ->
          Proposal.sellerId p = User.id user
          /\ exists project,
               j = Some project
               /\ MemStorage.getProject (Proposal.projectId p) s
                  = Some project)
  /\ (userRole session = Some Role.buyer ->
      exists listing,
        GET_buyer_payments session s = Answer 200 listing
        /\ map p_payment listing
           = MemStorage.getPaymentsByBuyer (User.id user) s
        /\ forall e, In e listing ->
             Payment.buyerId (p_payment e) = User.id user
             /\ (exists j,
                   MemStorage.getProject (Payment.projectId (p_payment e)) s
                     = Some j
                   /\ p_project e
                      = Some (mkProjectInfo (Payment.projectId (p_payment e))
                                            (Project.title j)))
             /\ (exists u,
                   MemStorage.getUser (Payment.sellerId (p_payment e)) s
                     = Some u
                   /\ p_seller e
                      = Some (mkPartyInfo (Payment.sellerId (p_payment e))
                                          (User.name u)))).
Proof.
  intros Rw U s. subst s. pose proof (reachable_wf Rw) as W.
  pose proof (reachable_linked Rw) as L. split; intros R.
  - unfold GET_seller_proposals, reading.
    rewrite (current_user_gate _ _ U).
    assert (C : checkRole Role.seller session = None)
      by (unfold checkRole; now rewrite R).
    rewrite C. simpl js_find. cbv iota. rewrite U.
    eexists. split; [reflexivity|]. split.
    + rewrite map_map. simpl. apply map_id.
    + intros p j I. apply in_map_iff in I.
      destruct I as (p' & E' & I). injection E' as -> <-.
      apply js_sort_In in I. apply filter_In in I. destruct I as [I S].
      apply Z.eqb_eq in S. split; [exact S|].
      destruct (wf_refs W _ I) as [KJ _].
      destruct (keys_get _ _ KJ) as [project GJ]. eauto.
  - unfold GET_buyer_payments, reading.
    rewrite (current_user_gate _ _ U).
    assert (C : checkRole Role.buyer session = None)
      by (unfold checkRole; now rewrite R).
    rewrite C. simpl js_find. cbv iota. rewrite U.
    eexists. split; [reflexivity|]. split.
    + rewrite map_map. simpl. apply map_id.
    + intros e I. apply in_map_iff in I.
      destruct I as (y & <- & I). simpl.
      apply js_sort_In in I. apply filter_In in I. destruct I as [I S].
      apply Z.eqb_eq in S.
      destruct (payment_refs L _ I) as (KJ & _ & KS).
      destruct (keys_get _ _ KJ) as [j GJ].
      destruct (keys_get _ _ KS) as [u GU].
      split; [exact S|].
      unfold MemStorage.getProject, MemStorage.getUser. rewrite GJ, GU.
      split.
      * exists j. split; [reflexivity|].
        now rewrite (@wf_map_get_id _ _ _ _ _ _ (wf_projects W) GJ).
      * exists u. split; [reflexivity|].
        now rewrite (@wf_map_get_id _ _ _ _ _ _ (wf_users W) GU).
Qed.

Lemma own_listings_witness :
  exists listing,
    GET_seller_proposals as_bob (storage (run paid initial))
    = Answer 200 listing
    /\ map fst listing
       = MemStorage.getProposalsBySeller (User.id bob_user)
                                         (storage (run paid initial))
    /\ forall p j, In (p, j) listing ->
         Proposal.sellerId p = User.id bob_user
         /\ exists project,
              j = Some project
              /\ MemStorage.getProject (Proposal.projectId p)
                                       (storage (run paid initial))
                 = Some project.
Proof.
  refine (proj1 (@own_listings (run paid initial) as_bob bob_user _ eq_refl)
            eq_refl).
  exists paid. reflexivity.
Defined.
